(** * Auth0 passwordless extension: a shallow embedding of the background logic

    Part I embeds the TypeScript sources, in their order of dependency:

    - [Js], [Base64], [Regex]: the primitives of the host language the code
      uses (string search, [split], [trim], [btoa]/[atob], regular
      expressions)
    - src/auth/types.ts, src/utils/errors.ts, src/auth/validation.ts
    - src/auth/config.ts and the ID-token validation ([parseJWT],
      [validateIDToken])
    - the [World] of the background script and the monad [M] of its
      asynchronous functions
    - src/storage/session-storage.ts, src/storage/local-storage.ts,
      src/storage/index.ts
    - the API client ([fetchWithRetry] and the three requests)
    - the state machine, the message handlers and [processMessage]
    - the stored facts the proofs speak about, and sample worlds to run
      the code on
    - the rest of src/auth/validation.ts, the PKCE helpers, the rest of
      the ID-token module and of src/auth/config.ts, and the service
      worker of src/entrypoints/background.ts with its refresh alarm

    Part II states and proves the properties.

    Conventions.  Timestamps and durations are integers ([Z], milliseconds
    unless said otherwise); numbers that can be fractions (retry delays) are
    rationals.  Strings are byte strings; [TextEncoder] and [TextDecoder]
    are the conversions between [string] and [list byte].  The string
    primitives of [Js] ([len], [trim], [toLowerCase] and the class [\s])
    are those of the host language on ASCII strings, for which a byte is
    a character; what is stated about the text a user enters is stated for
    ASCII input ([ascii_only]).  [Date.now()]
    reads the world clock; the clock is moved by the environment between
    two handler runs and stands still during one.  The members of a
    [Promise.all] run in the order they are listed.  What the browser
    provides (the cipher, key derivation, the JSON parser, the network,
    randomness) is a parameter or an oracle of the world.  The user-info
    request [FETCH_USER_INFO] and its handler are not embedded; the alarm of the service
    worker is threaded through the functions of [Background]. *)

From Stdlib Require Import ZArith NArith QArith Lia Lqa List String Ascii Bool.
From Stdlib Require Import Strings.Byte.
From Stdlib Require Import DecimalString.
Import ListNotations.

#[local] Open Scope string_scope.
#[local] Open Scope Z_scope.

(* ===================================================================== *)
(** * Part I: the code *)
(* ===================================================================== *)

(* ===================================================================== *)
(** ** Host-language string primitives *)
(* ===================================================================== *)

Module Js.

(** [s.length] *)
Definition len (s : string) : Z := Z.of_nat (String.length s).

(** [!s] for a string: only the empty string is falsy. *)
Definition falsy (s : string) : bool :=
  match s with EmptyString => true | _ => false end.

(** [!v] for an optional string ([undefined] or a string). *)
Definition falsy_opt (o : option string) : bool :=
  match o with None => true | Some s => falsy s end.

(** [s.startsWith(p)] *)
Fixpoint starts_with (p s : string) : bool :=
  match p, s with
  | EmptyString, _ => true
  | String a p', String b s' => Ascii.eqb a b && starts_with p' s'
  | String _ _, EmptyString => false
  end.

(** [s.includes(p)] *)
Fixpoint includes (s p : string) : bool :=
  starts_with p s ||
  match s with
  | EmptyString => false
  | String _ s' => includes s' p
  end.

Definition lower_ascii (c : ascii) : ascii :=
  let n := nat_of_ascii c in
  if (Nat.leb 65 n && Nat.leb n 90)%bool then ascii_of_nat (n + 32) else c.

(** [s.toLowerCase()] (the searched patterns are ASCII) *)
Fixpoint toLowerCase (s : string) : string :=
  match s with
  | EmptyString => EmptyString
  | String c s' => String (lower_ascii c) (toLowerCase s')
  end.

(** White space as matched by [\s] and removed by [trim], within ASCII:
    TAB, LF, VT, FF, CR and SPACE. *)
Definition is_space (c : ascii) : bool :=
  let n := nat_of_ascii c in
  (Nat.leb 9 n && Nat.leb n 13)%bool || Nat.eqb n 32.

Fixpoint trim_start (s : string) : string :=
  match s with
  | String c s' => if is_space c then trim_start s' else s
  | EmptyString => EmptyString
  end.

(** Drops trailing white space. *)
Fixpoint trim_end (s : string) : string :=
  match s with
  | EmptyString => EmptyString
  | String c s' =>
      match trim_end s' with
      | EmptyString => if is_space c then EmptyString else String c EmptyString
      | t => String c t
      end
  end.

(** [s.trim()] *)
Definition trim (s : string) : string := trim_end (trim_start s).

(** [s.split(sep)] for a one-character separator: always at least one
    part, empty parts are kept. *)
Fixpoint split (sep : ascii) (s : string) : list string :=
  match s with
  | EmptyString => [EmptyString]
  | String c s' =>
      if Ascii.eqb c sep then EmptyString :: split sep s'
      else match split sep s' with
           | p :: ps => String c p :: ps
           | [] => [String c EmptyString]
           end
  end.

(** [parts.join(sep)] for a one-character separator *)
Fixpoint join (sep : ascii) (parts : list string) : string :=
  match parts with
  | [] => EmptyString
  | [p] => p
  | p :: ps => p ++ String sep (join sep ps)
  end.

(** [s.replace(/a/g, b)] for single characters *)
Fixpoint replace_all (a b : ascii) (s : string) : string :=
  match s with
  | EmptyString => EmptyString
  | String c s' => String (if Ascii.eqb c a then b else c) (replace_all a b s')
  end.

(** [String(n)] for an integer *)
Definition of_Z (n : Z) : string := NilZero.string_of_int (Z.to_int n).

(** [Math.ceil(a / b)] for integers [a] and [b > 0] *)
Definition ceil_div (a b : Z) : Z := - ((- a) / b).

(** [Math.floor(a / b)] for integers [a] and [b > 0] *)
Definition floor_div (a b : Z) : Z := a / b.

End Js.

(* ===================================================================== *)
(** ** Base64: [btoa] and [atob] on byte buffers *)
(* ===================================================================== *)

Module Base64.

#[local] Open Scope N_scope.

(** The base64 alphabet: A-Z, a-z, 0-9, plus and slash. *)
Definition char_of_index (n : N) : ascii :=
  if n <? 26 then ascii_of_N (65 + n)
  else if n <? 52 then ascii_of_N (97 + (n - 26))
  else if n <? 62 then ascii_of_N (48 + (n - 52))
  else if n =? 62 then "+"%char
  else "/"%char.

Definition index_of_char (c : ascii) : option N :=
  let n := N_of_ascii c in
  if (65 <=? n) && (n <=? 90) then Some (n - 65)
  else if (97 <=? n) && (n <=? 122) then Some (n - 97 + 26)
  else if (48 <=? n) && (n <=? 57) then Some (n - 48 + 52)
  else if n =? 43 then Some 62
  else if n =? 47 then Some 63
  else None.

Definition pad : ascii := "="%char.

Definition byte_of_N (n : N) : byte :=
  match Byte.of_N (n mod 256) with Some b => b | None => x00 end.

(** [btoa(String.fromCharCode(...buffer))] *)
Fixpoint encode (l : list byte) : list ascii :=
  match l with
  | [] => []
  | [a] =>
      let a := Byte.to_N a in
      [char_of_index (a / 4); char_of_index ((a mod 4) * 16); pad; pad]
  | [a; b] =>
      let a := Byte.to_N a in
      let b := Byte.to_N b in
      [char_of_index (a / 4); char_of_index ((a mod 4) * 16 + b / 16);
       char_of_index ((b mod 16) * 4); pad]
  | a :: b :: c :: rest =>
      let a := Byte.to_N a in
      let b := Byte.to_N b in
      let c := Byte.to_N c in
      char_of_index (a / 4) :: char_of_index ((a mod 4) * 16 + b / 16)
        :: char_of_index ((b mod 16) * 4 + c / 64) :: char_of_index (c mod 64)
        :: encode rest
  end.

(** Two sextets carry one byte; the four spare bits are dropped. *)
Definition dec2 (c1 c2 : ascii) : option (list byte) :=
  match index_of_char c1, index_of_char c2 with
  | Some s1, Some s2 => Some [byte_of_N (s1 * 4 + s2 / 16)]
  | _, _ => None
  end.

(** Three sextets carry two bytes; the two spare bits are dropped. *)
Definition dec3 (c1 c2 c3 : ascii) : option (list byte) :=
  match index_of_char c1, index_of_char c2, index_of_char c3 with
  | Some s1, Some s2, Some s3 =>
      Some [byte_of_N (s1 * 4 + s2 / 16); byte_of_N ((s2 mod 16) * 16 + s3 / 4)]
  | _, _, _ => None
  end.

Definition dec4 (c1 c2 c3 c4 : ascii) : option (list byte) :=
  match index_of_char c1, index_of_char c2, index_of_char c3, index_of_char c4 with
  | Some s1, Some s2, Some s3, Some s4 =>
      Some [byte_of_N (s1 * 4 + s2 / 16); byte_of_N ((s2 mod 16) * 16 + s3 / 4);
            byte_of_N ((s3 mod 4) * 64 + s4)]
  | _, _, _, _ => None
  end.

(** The decoding loop of [atob] on input without white space: padding is
    accepted only at the end of an input whose length is a multiple of
    four, a length of 1 modulo 4 fails, and so does any character outside
    the alphabet.  [None] stands for the exception [atob] throws. *)
Fixpoint decode (l : list ascii) : option (list byte) :=
  match l with
  | [] => Some []
  | [_] => None
  | [c1; c2] => dec2 c1 c2
  | [c1; c2; c3] => dec3 c1 c2 c3
  | c1 :: c2 :: c3 :: c4 :: rest =>
      match rest with
      | [] =>
          if Ascii.eqb c4 pad
          then (if Ascii.eqb c3 pad then dec2 c1 c2 else dec3 c1 c2 c3)
          else dec4 c1 c2 c3 c4
      | _ :: _ =>
          match dec4 c1 c2 c3 c4, decode rest with
          | Some x, Some y => Some (x ++ y)%list
          | _, _ => None
          end
      end
  end.

(** White space [atob] skips: TAB, LF, FF, CR and SPACE. *)
Definition is_skipped (c : ascii) : bool :=
  let n := N_of_ascii c in
  (n =? 9) || (n =? 10) || (n =? 12) || (n =? 13) || (n =? 32).

(** [btoa] of the binary string of a buffer *)
Definition btoa (buffer : list byte) : string :=
  string_of_list_ascii (encode buffer).

(** [atob] returning the bytes of the binary string *)
Definition atob (s : string) : option (list byte) :=
  decode (filter (fun c => negb (is_skipped c)) (list_ascii_of_string s)).

(** The sixty-four sextets, and the check that the alphabet is decoded
    back and avoids white space and the padding character. *)
Definition sextets : list N := map N.of_nat (seq 0 64).

Definition sound_index (n : N) : bool :=
  match index_of_char (char_of_index n) with
  | Some m => m =? n
  | None => false
  end
  && negb (is_skipped (char_of_index n))
  && negb (Ascii.eqb (char_of_index n) pad).

End Base64.

(** [bufferToBase64] of src/storage/local-storage.ts *)
Definition bufferToBase64 (buffer : list byte) : string := Base64.btoa buffer.

(** [base64ToBuffer] of src/storage/local-storage.ts; [None] when [atob] throws. *)
Definition base64ToBuffer (base64 : string) : option (list byte) := Base64.atob base64.

(* ===================================================================== *)
(** ** src/auth/types.ts *)
(* ===================================================================== *)

(** [AuthState] *)
Record AuthState := {
  email : string;
  accessToken : string;
  refreshToken : string;
  expiresAt : Z;
  idToken : option string;
  sessionCreatedAt : Z
}.

(** [Omit<AuthState, 'refreshToken'>], the value kept under the [auth] key *)
Record SessionAuth := {
  sa_email : string;
  sa_accessToken : string;
  sa_expiresAt : Z;
  sa_idToken : option string;
  sa_sessionCreatedAt : Z
}.

(** [OTPRequest] *)
Record OTPRequest := {
  otp_email : string;
  requestedAt : Z;
  attemptCount : Z;
  windowStart : Z;
  codeVerifier : option string
}.

(** [UserProfile] *)
Record UserProfile := {
  up_sub : string;
  up_email : string;
  up_email_verified : bool;
  up_name : option string;
  up_picture : option string;
  updatedAt : Z
}.

(** [TokenResponse] ([token_type] is the constant ["Bearer"]) *)
Record TokenResponse := {
  access_token : string;
  refresh_token : option string;
  id_token : option string;
  expires_in : Z
}.

(** [AuthErrorCode] *)
Inductive AuthErrorCode :=
| INVALID_EMAIL
| INVALID_OTP
| OTP_EXPIRED
| RATE_LIMITED
| NETWORK_ERROR
| AUTH0_UNAVAILABLE
| SESSION_EXPIRED_ERROR   (* 'SESSION_EXPIRED' as an error code *)
| REFRESH_FAILED
| STORAGE_ERROR
| NOT_AUTHENTICATED
| VALIDATION_ERROR
| EMAIL_DOMAIN_NOT_ALLOWED.

Definition AuthErrorCode_eqb (a b : AuthErrorCode) : bool :=
  match a, b with
  | INVALID_EMAIL, INVALID_EMAIL
  | INVALID_OTP, INVALID_OTP
  | OTP_EXPIRED, OTP_EXPIRED
  | RATE_LIMITED, RATE_LIMITED
  | NETWORK_ERROR, NETWORK_ERROR
  | AUTH0_UNAVAILABLE, AUTH0_UNAVAILABLE
  | SESSION_EXPIRED_ERROR, SESSION_EXPIRED_ERROR
  | REFRESH_FAILED, REFRESH_FAILED
  | STORAGE_ERROR, STORAGE_ERROR
  | NOT_AUTHENTICATED, NOT_AUTHENTICATED
  | VALIDATION_ERROR, VALIDATION_ERROR
  | EMAIL_DOMAIN_NOT_ALLOWED, EMAIL_DOMAIN_NOT_ALLOWED => true
  | _, _ => false
  end.

(** [Auth0ErrorResponse] *)
Record Auth0ErrorResponse := {
  error : string;
  error_description : option string;
  error_message : option string;   (* the [message] field *)
  statusCode : option Z
}.

(** [AuthFlowState] *)
Inductive AuthFlowState :=
| LOGGED_OUT
| PENDING_OTP
| AUTHENTICATED
| SESSION_EXPIRED.

Definition AuthFlowState_eqb (a b : AuthFlowState) : bool :=
  match a, b with
  | LOGGED_OUT, LOGGED_OUT
  | PENDING_OTP, PENDING_OTP
  | AUTHENTICATED, AUTHENTICATED
  | SESSION_EXPIRED, SESSION_EXPIRED => true
  | _, _ => false
  end.

(** [SessionStorageSchema]: the keys of chrome.storage.session *)
Record SessionStorageSchema := {
  auth : option SessionAuth;
  otpRequest : option OTPRequest;
  userProfile : option UserProfile;
  flowState : option AuthFlowState
}.

Record SessionMeta := {
  createdAt : Z;
  meta_email : string
}.

(** [LocalStorageSchema]: the keys of chrome.storage.local *)
Record LocalStorageSchema := {
  encryptedRefreshToken : option string;
  refreshTokenIV : option string;
  sessionMeta : option SessionMeta
}.

(** [a ?? b] *)
Definition nullish {A} (a : option A) (b : A) : A :=
  match a with Some x => x | None => b end.

(** [a ?? b] where [b] may be undefined as well *)
Definition nullish_opt {A} (a b : option A) : option A :=
  match a with Some x => Some x | None => b end.

(* ===================================================================== *)
(** ** src/utils/errors.ts *)
(* ===================================================================== *)

Definition ERROR_MESSAGES (c : AuthErrorCode) : string :=
  match c with
  | INVALID_EMAIL => "Please enter a valid email address."
  | INVALID_OTP => "The code you entered is incorrect. Please check and try again."
  | OTP_EXPIRED => "This code has expired. Please request a new code."
  | RATE_LIMITED => "Too many requests. Please wait a few minutes before trying again."
  | NETWORK_ERROR => "Unable to connect. Please check your internet connection."
  | AUTH0_UNAVAILABLE =>
      "Authentication service is temporarily unavailable. Please try again later."
  | SESSION_EXPIRED_ERROR => "Your session has expired. Please log in again."
  | REFRESH_FAILED => "Unable to refresh your session. Please log in again."
  | STORAGE_ERROR => "Unable to save authentication data. Please try again."
  | NOT_AUTHENTICATED => "You are not logged in. Please log in to continue."
  | VALIDATION_ERROR =>
      "Authentication failed. Please check your configuration or try again later."
  | EMAIL_DOMAIN_NOT_ALLOWED =>
      "This email domain is not allowed. Please use an authorized email address or contact your administrator."
  end.

(** An [AuthError] instance ([cause] and the stack are not modelled). *)
Record AuthError := {
  code : AuthErrorCode;
  message : string
}.

(** [new AuthError(code, message?)] *)
Definition newAuthError (c : AuthErrorCode) (msg : option string) : AuthError :=
  {| code := c; message := nullish msg (ERROR_MESSAGES c) |}.

(** What a [throw] can carry in this code base. *)
Inductive Exn :=
| ExnAuth (e : AuthError)         (* an [AuthError] *)
| ExnTypeError (msg : string)     (* a [TypeError], thrown by [fetch] on transport failure *)
| ExnError (msg : string).        (* any other [Error], e.g. the [SyntaxError] of [response.json()] *)

Definition exn_message (x : Exn) : string :=
  match x with
  | ExnAuth e => message e
  | ExnTypeError m => m
  | ExnError m => m
  end.

(** [mapAuth0ErrorToCode] *)
Definition mapAuth0ErrorToCode (auth0Error : string) (errorDetail : option string)
  : AuthErrorCode :=
  let errorLower := Js.toLowerCase auth0Error in
  let detailLower := nullish (option_map Js.toLowerCase errorDetail) "" in
  if Js.includes errorLower "unauthorized_email_domain"
     || Js.includes errorLower "email_domain"
     || Js.includes detailLower "unauthorized_email_domain"
     || Js.includes detailLower "email domain"
     || Js.includes detailLower "domain is not allowed"
     || Js.includes detailLower "email address is not allowed"
  then EMAIL_DOMAIN_NOT_ALLOWED
  else if String.eqb auth0Error "invalid_request" then INVALID_EMAIL
  else if String.eqb auth0Error "invalid_grant" then INVALID_OTP
  else if String.eqb auth0Error "access_denied" then
    (if Js.includes detailLower "domain" then EMAIL_DOMAIN_NOT_ALLOWED else INVALID_OTP)
  else if String.eqb auth0Error "unauthorized_client" then VALIDATION_ERROR
  else if String.eqb auth0Error "too_many_requests" then RATE_LIMITED
  else if String.eqb auth0Error "server_error" then AUTH0_UNAVAILABLE
  else VALIDATION_ERROR.

(** [AuthError.fromAuth0Error] *)
Definition fromAuth0Error (e : Auth0ErrorResponse) : AuthError :=
  let errorDetail := nullish (nullish_opt (error_description e) (error_message e)) "" in
  let c := mapAuth0ErrorToCode (error e) (Some errorDetail) in
  newAuthError c None.

(** [AuthError.fromUnknown] *)
Definition fromUnknown (x : Exn) (defaultCode : AuthErrorCode) : AuthError :=
  match x with
  | ExnAuth e => e
  | ExnTypeError m => newAuthError defaultCode (Some m)
  | ExnError m => newAuthError defaultCode (Some m)
  end.

(* ===================================================================== *)
(** ** src/auth/validation.ts *)
(* ===================================================================== *)

Module Regex.

(** Regular expressions over character classes, matched by derivatives. *)
Inductive re :=
| Void
| Eps
| Class (p : ascii -> bool)
| Cat (r1 r2 : re)
| Alt (r1 r2 : re)
| Star (r : re).

Definition Plus (r : re) : re := Cat r (Star r).

Fixpoint nullable (r : re) : bool :=
  match r with
  | Void => false
  | Eps => true
  | Class _ => false
  | Cat r1 r2 => nullable r1 && nullable r2
  | Alt r1 r2 => nullable r1 || nullable r2
  | Star _ => true
  end.

Fixpoint deriv (c : ascii) (r : re) : re :=
  match r with
  | Void => Void
  | Eps => Void
  | Class p => if p c then Eps else Void
  | Cat r1 r2 =>
      if nullable r1 then Alt (Cat (deriv c r1) r2) (deriv c r2)
      else Cat (deriv c r1) r2
  | Alt r1 r2 => Alt (deriv c r1) (deriv c r2)
  | Star r1 => Cat (deriv c r1) (Star r1)
  end.

(** [/^r$/.test(s)] *)
Fixpoint test (r : re) (s : string) : bool :=
  match s with
  | EmptyString => nullable r
  | String c s' => test (deriv c r) s'
  end.

End Regex.

(** The class [[^\s@]] *)
Definition not_space_at (c : ascii) : bool :=
  negb (Js.is_space c || Ascii.eqb c "@").

(** [/^[^\s@]+@[^\s@]+\.[^\s@]+$/] *)
Definition emailRegex : Regex.re :=
  Regex.Cat (Regex.Plus (Regex.Class not_space_at))
    (Regex.Cat (Regex.Class (Ascii.eqb "@"))
       (Regex.Cat (Regex.Plus (Regex.Class not_space_at))
          (Regex.Cat (Regex.Class (Ascii.eqb "."))
             (Regex.Plus (Regex.Class not_space_at))))).

(** [validateEmail] *)
Definition validateEmail (email : string) : bool :=
  if Js.falsy email then false
  else
    let trimmed := Js.trim email in
    if (Js.len trimmed =? 0) || (Js.len trimmed >? 254) then false
    else Regex.test emailRegex trimmed.

(* ===================================================================== *)
(** ** The host platform *)
(* ===================================================================== *)

(** What the browser provides and the repository does not define: the
    extension identifier and the Web Crypto primitives.  [gcm_decrypt]
    answers [None] where [crypto.subtle.decrypt] rejects. *)
Class Host := {
  extensionId : string;
  pbkdf2 : list byte -> list byte -> Z -> list byte;
  gcm_encrypt : list byte -> list byte -> list byte -> list byte;
  gcm_decrypt : list byte -> list byte -> list byte -> option (list byte)
}.

(** A synchronous computation either returns or throws. *)
Inductive Result (A : Type) :=
| Ok (a : A)
| Throw (x : Exn).
Arguments Ok {A} a.
Arguments Throw {A} x.

(* ===================================================================== *)
(** ** src/auth/config.ts *)
(* ===================================================================== *)

Record Auth0Config := {
  domain : string;
  clientId : string;
  audience : option string
}.

Fixpoint drop (n : nat) (s : string) : string :=
  match n, s with
  | S n', String _ s' => drop n' s'
  | _, _ => s
  end.

(** [getAuth0BaseUrl]: strips a leading [http://] or [https://] *)
Definition getAuth0BaseUrl (d : string) : string :=
  let cleanDomain :=
    if Js.starts_with "https://" d then drop 8 d
    else if Js.starts_with "http://" d then drop 7 d
    else d in
  "https://" ++ cleanDomain.

(* ===================================================================== *)
(** ** ID token validation *)
(* ===================================================================== *)

Record JWTHeader := {
  alg : string;
  typ : string;
  kid : option string
}.

(** The members of the payload are read as JavaScript finds them, not as
    the interface [IDTokenClaims] declares them: [JSON.parse] accepts any
    document and the cast [as IDTokenClaims] checks nothing. *)

(** A member compared with a string by [!==]: the string it is, or any
    other value (an absent member is [undefined]), kept as a template
    literal prints it.  No value but a string is [===] to a string. *)
Inductive Member :=
| Text (s : string)
| NotText (printed : string).

(** [`${m}`] *)
Definition printed_member (m : Member) : string :=
  match m with
  | Text s => s
  | NotText printed => printed
  end.

(** [aud]: an array, or any other value; an element or value that is a
    string is [Some] of it, any other one is [None]. *)
Inductive Audience :=
| AudString (s : option string)
| AudArray (l : list (option string)).

(** [exp] as the left operand of [+ clockTolerance]: a number (also what
    [null] and the booleans convert to); a value that makes the sum [NaN]
    ([undefined], that is, an absent member); or a value whose primitive is
    a string (a string, an array, an object), to which [+] appends the
    tolerance. *)
Inductive Summand :=
| Num (n : Z)
| NaN
| Str (s : string).

Record IDTokenClaims := {
  iss : Member;
  sub : option string;
  aud : Audience;
  exp : Summand;
  iat : option Z;                (* the number [iat] converts to; [None] is [NaN] *)
  azp : option string;           (* [None]: absent, or not a string *)
  auth_time : option Z;
  nonce : option string;         (* [None]: absent, or not a string *)
  claim_email : option string;
  claim_email_verified : option bool;
  claim_name : option string;
  claim_picture : option string
}.

(** What [JSON.parse] returned for the payload segment: [null], on which
    every property access throws a [TypeError], or a value whose members can
    be read (an object; a number, string or boolean has none of the claims). *)
Inductive Payload :=
| PayloadNull
| PayloadObject (c : IDTokenClaims).

Record ParsedJWT := {
  header : JWTHeader;
  payload : Payload;
  signature : string
}.

Record ValidationOptions := {
  opt_audience : option string;
  opt_issuer : option string;
  opt_clockTolerance : option Z;
  opt_nonce : option string
}.

Record ValidatedToken := {
  claims : IDTokenClaims;
  vt_email : option string;
  vt_sub : option string
}.

(** Appends ['='] while the length is not a multiple of four. *)
Definition pad4 (s : string) : string :=
  match (String.length s mod 4)%nat with
  | 1%nat => s ++ "==="
  | 2%nat => s ++ "=="
  | 3%nat => s ++ "="
  | _ => s
  end.

(** [base64UrlDecode]; [None] when [atob] throws *)
Definition base64UrlDecode (input : string) : option string :=
  let base64 := Js.replace_all "_" "/" (Js.replace_all "-" "+" input) in
  option_map string_of_list_byte (Base64.atob (pad4 base64)).

(** [array.includes(x)] for a string [x]: an element that is that string *)
Definition array_includes (l : list (option string)) (x : string) : bool :=
  existsb (fun v => match v with
                    | Some s => String.eqb s x
                    | None => false
                    end) l.

(** [m !== b] for a string [b] *)
Definition member_differs (m : Member) (b : string) : bool :=
  match m with
  | Text s => negb (String.eqb s b)
  | NotText _ => true
  end.

(** [a !== b] where [a] may be undefined *)
Definition opt_differs (a : option string) (b : string) : bool :=
  match a with
  | Some x => negb (String.eqb x b)
  | None => true
  end.

Section IdToken.

(** The JSON parser of the host, and the view of a parsed value that the
    casts [as JWTHeader] and [as IDTokenClaims] give. *)
Variable JsonValue : Type.
Variable JSON_parse_value : string -> option JsonValue.
Variable header_of : JsonValue -> JWTHeader.
Variable claims_of : JsonValue -> Payload.

(** [Number(s)] of a string, as the comparison [<] converts it; [None] is
    [NaN]. *)
Variable ToNumber : string -> option Z.

(** [claims.exp + clockTolerance < now] *)
Definition exp_before (e : Summand) (clockTolerance now : Z) : bool :=
  match e with
  | Num n => n + clockTolerance <? now
  | NaN => false
  | Str s =>
      match ToNumber (s ++ Js.of_Z clockTolerance) with
      | Some n => n <? now
      | None => false
      end
  end.

(** [claims.iat - clockTolerance > now] *)
Definition iat_after (i : option Z) (clockTolerance now : Z) : bool :=
  match i with
  | Some n => n - clockTolerance >? now
  | None => false
  end.

(** [JSON.parse(base64UrlDecode(segment))]; [None] when either throws *)
Definition decode_segment (segment : string) : option JsonValue :=
  match base64UrlDecode segment with
  | Some text => JSON_parse_value text
  | None => None
  end.

(** [parseJWT] *)
Definition parseJWT (token : string) : Result ParsedJWT :=
  match Js.split "." token with
  | [headerB64; payloadB64; sig] =>
      if Js.falsy headerB64 || Js.falsy payloadB64 || Js.falsy sig
      then Throw (ExnAuth (newAuthError VALIDATION_ERROR (Some "Invalid token format")))
      else
        match decode_segment headerB64 with
        | Some h =>
            match decode_segment payloadB64 with
            | Some p =>
                Ok {| header := header_of h; payload := claims_of p; signature := sig |}
            | None =>
                Throw (ExnAuth (newAuthError VALIDATION_ERROR (Some "Failed to parse token")))
            end
        | None =>
            Throw (ExnAuth (newAuthError VALIDATION_ERROR (Some "Failed to parse token")))
        end
  | _ => Throw (ExnAuth (newAuthError VALIDATION_ERROR (Some "Invalid token format")))
  end.

(** [validateIDToken]; [config] is what [getAuth0Config()] returns and
    [dateNow] what [Date.now()] returns.  On a [null] payload the first
    property access, [claims.iss], throws a [TypeError] that nothing
    catches. *)
Definition validateIDToken (config : Auth0Config) (dateNow : Z)
    (token : string) (options : ValidationOptions) : Result ValidatedToken :=
  let audience := nullish (opt_audience options) (clientId config) in
  let issuer := nullish (opt_issuer options) (getAuth0BaseUrl (domain config) ++ "/") in
  let clockTolerance := nullish (opt_clockTolerance options) 60 in
  let nonce_expected := opt_nonce options in
  match parseJWT token with
  | Throw x => Throw x
  | Ok parsed =>
      let now := Js.floor_div dateNow 1000 in
      match payload parsed with
      | PayloadNull =>
          Throw (ExnTypeError "Cannot read properties of null (reading 'iss')")
      | PayloadObject claims =>
          if member_differs (iss claims) issuer then
            Throw (ExnAuth (newAuthError VALIDATION_ERROR
              (Some ("Invalid issuer: expected " ++ issuer ++ ", got "
                     ++ printed_member (iss claims)))))
          else
            let audArray :=
              match aud claims with AudArray l => l | AudString a => [a] end in
            if negb (array_includes audArray audience) then
              Throw (ExnAuth (newAuthError VALIDATION_ERROR
                (Some ("Invalid audience: expected " ++ audience))))
            else if match aud claims with
                    | AudArray l =>
                        (Z.of_nat (List.length l) >? 1) && opt_differs (azp claims) audience
                    | AudString _ => false
                    end then
              Throw (ExnAuth (newAuthError VALIDATION_ERROR
                (Some ("Invalid authorized party: expected " ++ audience))))
            else if exp_before (exp claims) clockTolerance now then
              Throw (ExnAuth (newAuthError VALIDATION_ERROR (Some "Token has expired")))
            else if iat_after (iat claims) clockTolerance now then
              Throw (ExnAuth (newAuthError VALIDATION_ERROR
                (Some "Token issued in the future")))
            else if match nonce_expected with
                    | Some n => opt_differs (nonce claims) n
                    | None => false
                    end then
              Throw (ExnAuth (newAuthError VALIDATION_ERROR (Some "Invalid nonce")))
            else
              Ok {| claims := claims; vt_email := claim_email claims;
                    vt_sub := sub claims |}
      end
  end.

End IdToken.

(** *** Well-formed tokens *)

Section IdTokenRule.

Variable JsonValue : Type.
Variable JSON_parse_value : string -> option JsonValue.
Variable claims_of : JsonValue -> Payload.

(** A string without a dot. *)
Definition dotless (s : string) : Prop :=
  ~ In "."%char (list_ascii_of_string s).

(** The token is three non-empty dot-separated segments. *)
Definition three_segments (token h p sg : string) : Prop :=
  token = h ++ "." ++ p ++ "." ++ sg /\
  dotless h /\ dotless p /\ dotless sg /\
  h <> "" /\ p <> "" /\ sg <> "".

(** The token is three segments whose header and payload parse; [p] is the
    payload. *)
Definition parses_to (token : string) (p : Payload) : Prop :=
  exists h pl sg hv pv,
    three_segments token h pl sg /\
    decode_segment JsonValue JSON_parse_value h = Some hv /\
    decode_segment JsonValue JSON_parse_value pl = Some pv /\
    p = claims_of pv.

(** The token is not three dot-separated segments, or its segments do not parse. *)
Definition malformed (token : string) : Prop :=
  ~ exists p, parses_to token p.

End IdTokenRule.

(** The exception is an [AuthError] with the code VALIDATION_ERROR. *)
Definition is_validation_error (x : Exn) : Prop :=
  exists msg, x = ExnAuth {| code := VALIDATION_ERROR; message := msg |}.

(* ===================================================================== *)
(** ** The world the background script runs in *)
(* ===================================================================== *)

(** A [Response]: its status, and what [response.json()] yields when read at
    the type the call site casts it to ([None]: the promise rejects). *)
Record FetchResponse (T : Type) := {
  status : Z;
  okBody : option T;
  errBody : option Auth0ErrorResponse
}.
Arguments status {T} _.
Arguments okBody {T} _.
Arguments errBody {T} _.

(** The outcome of one [fetch]: a transport failure (a [TypeError]) or a response. *)
Inductive FetchResult (T : Type) :=
| NetworkFailure (msg : string)
| Responded (r : FetchResponse T).
Arguments NetworkFailure {T} msg.
Arguments Responded {T} r.

Record PasswordlessStartResponse := {
  ps_id : string;
  ps_email : string;
  ps_email_verified : bool
}.

(** The requests the API client sends. *)
Inductive Request :=
| PasswordlessStart (email : string)             (* POST /passwordless/start *)
| TokenExchange (email otp : string)             (* POST /oauth/token, passwordless grant *)
| TokenRefresh (refresh_token : string).         (* POST /oauth/token, refresh_token grant *)

(** The provider: what the n-th [fetch] of the process answers, at the
    result type of the operation that sends it. *)
Record Network := {
  onStart : nat -> FetchResult PasswordlessStartResponse;
  onToken : nat -> FetchResult TokenResponse
}.

Record World := {
  session : SessionStorageSchema;      (* chrome.storage.session *)
  local : LocalStorageSchema;          (* chrome.storage.local *)
  encryptionKey : option (list byte);  (* the memoised [encryptionKey] *)
  dateNow : Z;                         (* [Date.now()] *)
  network : Network;
  fetchLog : list Request;             (* the [fetch] calls made, oldest first *)
  sleepLog : list Q;                   (* the [sleep] calls made, oldest first *)
  random : nat -> Q;                   (* the values of [Math.random()] *)
  randomUsed : nat;
  entropy : nat -> byte;               (* the bytes of [crypto.getRandomValues] *)
  entropyUsed : nat
}.

Definition with_session (f : SessionStorageSchema -> SessionStorageSchema) (w : World) : World :=
  {| session := f (session w); local := local w; encryptionKey := encryptionKey w;
     dateNow := dateNow w; network := network w; fetchLog := fetchLog w;
     sleepLog := sleepLog w; random := random w; randomUsed := randomUsed w;
     entropy := entropy w; entropyUsed := entropyUsed w |}.

Definition with_local (f : LocalStorageSchema -> LocalStorageSchema) (w : World) : World :=
  {| session := session w; local := f (local w); encryptionKey := encryptionKey w;
     dateNow := dateNow w; network := network w; fetchLog := fetchLog w;
     sleepLog := sleepLog w; random := random w; randomUsed := randomUsed w;
     entropy := entropy w; entropyUsed := entropyUsed w |}.

Definition with_encryptionKey (k : option (list byte)) (w : World) : World :=
  {| session := session w; local := local w; encryptionKey := k;
     dateNow := dateNow w; network := network w; fetchLog := fetchLog w;
     sleepLog := sleepLog w; random := random w; randomUsed := randomUsed w;
     entropy := entropy w; entropyUsed := entropyUsed w |}.

(** The environment moves the clock between two runs. *)
Definition at_time (t : Z) (w : World) : World :=
  {| session := session w; local := local w; encryptionKey := encryptionKey w;
     dateNow := t; network := network w; fetchLog := fetchLog w;
     sleepLog := sleepLog w; random := random w; randomUsed := randomUsed w;
     entropy := entropy w; entropyUsed := entropyUsed w |}.

Definition log_fetch (r : Request) (w : World) : World :=
  {| session := session w; local := local w; encryptionKey := encryptionKey w;
     dateNow := dateNow w; network := network w; fetchLog := fetchLog w ++ [r];
     sleepLog := sleepLog w; random := random w; randomUsed := randomUsed w;
     entropy := entropy w; entropyUsed := entropyUsed w |}.

Definition log_sleep (ms : Q) (w : World) : World :=
  {| session := session w; local := local w; encryptionKey := encryptionKey w;
     dateNow := dateNow w; network := network w; fetchLog := fetchLog w;
     sleepLog := sleepLog w ++ [ms]; random := random w; randomUsed := randomUsed w;
     entropy := entropy w; entropyUsed := entropyUsed w |}.

Definition use_random (w : World) : World :=
  {| session := session w; local := local w; encryptionKey := encryptionKey w;
     dateNow := dateNow w; network := network w; fetchLog := fetchLog w;
     sleepLog := sleepLog w; random := random w; randomUsed := S (randomUsed w);
     entropy := entropy w; entropyUsed := entropyUsed w |}.

Definition use_entropy (n : nat) (w : World) : World :=
  {| session := session w; local := local w; encryptionKey := encryptionKey w;
     dateNow := dateNow w; network := network w; fetchLog := fetchLog w;
     sleepLog := sleepLog w; random := random w; randomUsed := randomUsed w;
     entropy := entropy w; entropyUsed := (entropyUsed w + n)%nat |}.

(** An asynchronous function of the code base: it reads and writes the
    world and either resolves or rejects. *)
Definition M (A : Type) : Type := World -> Result A * World.

Definition ret {A} (a : A) : M A := fun w => (Ok a, w).

Definition throw {A} (x : Exn) : M A := fun w => (Throw x, w).

Definition bind {A B} (m : M A) (k : A -> M B) : M B :=
  fun w =>
    match m w with
    | (Ok a, w') => k a w'
    | (Throw x, w') => (Throw x, w')
    end.

(** [try { body } catch (error) { handler }] *)
Definition try_catch {A} (body : M A) (handler : Exn -> M A) : M A :=
  fun w =>
    match body w with
    | (Ok a, w') => (Ok a, w')
    | (Throw x, w') => handler x w'
    end.

Declare Scope m_scope.
Delimit Scope m_scope with M.
Notation "x <- m ;; k" := (bind m (fun x => k))
  (at level 61, m at next level, right associativity) : m_scope.
Notation "m ;;; k" := (bind m (fun _ => k))
  (at level 61, right associativity) : m_scope.
#[local] Open Scope m_scope.

(** [Date.now()] *)
Definition Date_now : M Z := fun w => (Ok (dateNow w), w).

(** [Math.random()] *)
Definition Math_random : M Q := fun w => (Ok (random w (randomUsed w)), use_random w).

(** [crypto.getRandomValues(new Uint8Array(n))] *)
Definition getRandomValues (n : nat) : M (list byte) :=
  fun w => (Ok (map (entropy w) (seq (entropyUsed w) n)), use_entropy n w).

(** [sleep] *)
Definition sleep (ms : Q) : M unit := fun w => (Ok tt, log_sleep ms w).

(** [Promise.all([a, b])]: both members run, then the first rejection, if
    any, is the outcome. *)
Definition all2 {A B} (a : M A) (b : M B) : M (A * B) :=
  fun w =>
    let (ra, w1) := a w in
    let (rb, w2) := b w1 in
    match ra, rb with
    | Ok x, Ok y => (Ok (x, y), w2)
    | Throw e, _ => (Throw e, w2)
    | _, Throw e => (Throw e, w2)
    end.

(** [Promise.all] of actions whose results are not used *)
Fixpoint all_ (l : list (M unit)) : M unit :=
  match l with
  | [] => ret tt
  | a :: l' => r <- all2 a (all_ l') ;; ret tt
  end.

(* ===================================================================== *)
(** ** src/storage/session-storage.ts *)
(* ===================================================================== *)

Definition put_auth (v : option SessionAuth) (s : SessionStorageSchema) :=
  {| auth := v; otpRequest := otpRequest s; userProfile := userProfile s;
     flowState := flowState s |}.

Definition put_otpRequest (v : option OTPRequest) (s : SessionStorageSchema) :=
  {| auth := auth s; otpRequest := v; userProfile := userProfile s;
     flowState := flowState s |}.

Definition put_userProfile (v : option UserProfile) (s : SessionStorageSchema) :=
  {| auth := auth s; otpRequest := otpRequest s; userProfile := v;
     flowState := flowState s |}.

Definition put_flowState (v : option AuthFlowState) (s : SessionStorageSchema) :=
  {| auth := auth s; otpRequest := otpRequest s; userProfile := userProfile s;
     flowState := v |}.

(** [getSessionValue(key)]: the key is given by its projection *)
Definition getSessionValue {A} (key : SessionStorageSchema -> option A) : M (option A) :=
  fun w => (Ok (key (session w)), w).

(** [setSessionValue(key, value)] and [removeSessionValue(key)]: the key is
    given by its update function *)
Definition setSessionValue {A}
    (key : option A -> SessionStorageSchema -> SessionStorageSchema) (value : A) : M unit :=
  fun w => (Ok tt, with_session (key (Some value)) w).

Definition removeSessionValue {A}
    (key : option A -> SessionStorageSchema -> SessionStorageSchema) : M unit :=
  fun w => (Ok tt, with_session (key None) w).

Definition getAuthState : M (option SessionAuth) := getSessionValue auth.
Definition setAuthState (a : SessionAuth) : M unit := setSessionValue put_auth a.
Definition clearAuthState : M unit := removeSessionValue put_auth.

Definition getOTPRequest : M (option OTPRequest) := getSessionValue otpRequest.
Definition setOTPRequest (r : OTPRequest) : M unit := setSessionValue put_otpRequest r.
Definition clearOTPRequest : M unit := removeSessionValue put_otpRequest.

Definition getUserProfile : M (option UserProfile) := getSessionValue userProfile.
Definition setUserProfile (p : UserProfile) : M unit := setSessionValue put_userProfile p.
Definition clearUserProfile : M unit := removeSessionValue put_userProfile.

Definition getFlowState : M (option AuthFlowState) := getSessionValue flowState.
Definition setFlowState (st : AuthFlowState) : M unit := setSessionValue put_flowState st.

(* ===================================================================== *)
(** ** src/storage/local-storage.ts *)
(* ===================================================================== *)

Definition put_encryptedRefreshToken (v : option string) (l : LocalStorageSchema) :=
  {| encryptedRefreshToken := v; refreshTokenIV := refreshTokenIV l;
     sessionMeta := sessionMeta l |}.

Definition put_refreshTokenIV (v : option string) (l : LocalStorageSchema) :=
  {| encryptedRefreshToken := encryptedRefreshToken l; refreshTokenIV := v;
     sessionMeta := sessionMeta l |}.

Definition put_sessionMeta (v : option SessionMeta) (l : LocalStorageSchema) :=
  {| encryptedRefreshToken := encryptedRefreshToken l;
     refreshTokenIV := refreshTokenIV l; sessionMeta := v |}.

Definition getLocalValue {A} (key : LocalStorageSchema -> option A) : M (option A) :=
  fun w => (Ok (key (local w)), w).

Definition setLocalValue {A}
    (key : option A -> LocalStorageSchema -> LocalStorageSchema) (value : A) : M unit :=
  fun w => (Ok tt, with_local (key (Some value)) w).

Definition removeLocalValue {A}
    (key : option A -> LocalStorageSchema -> LocalStorageSchema) : M unit :=
  fun w => (Ok tt, with_local (key None) w).

Definition IV_LENGTH : nat := 12.

Definition SEVEN_DAYS_MS : Z := 7 * 24 * 60 * 60 * 1000.

Section LocalStorage.

Context {host : Host}.

(** [getEncryptionKey]: derived once from the extension id, then memoised *)
Definition getEncryptionKey : M (list byte) :=
  fun w =>
    match encryptionKey w with
    | Some k => (Ok k, w)
    | None =>
        let k := pbkdf2 (list_byte_of_string extensionId)
                   (list_byte_of_string "auth0-passwordless-extension") 100000 in
        (Ok k, with_encryptionKey (Some k) w)
    end.

(** [encrypt] *)
Definition encrypt (plaintext : string) : M (string * string) :=
  key <- getEncryptionKey ;;
  iv <- getRandomValues IV_LENGTH ;;
  let cipherBuffer := gcm_encrypt key iv (list_byte_of_string plaintext) in
  ret (bufferToBase64 cipherBuffer, bufferToBase64 iv).

(** [decrypt]: throws when a base64 string is malformed or when the
    cipher rejects *)
Definition decrypt (ciphertext iv : string) : M string :=
  key <- getEncryptionKey ;;
  match base64ToBuffer iv with
  | None => throw (ExnError "InvalidCharacterError")
  | Some ivBuffer =>
      match base64ToBuffer ciphertext with
      | None => throw (ExnError "InvalidCharacterError")
      | Some cipherBuffer =>
          match gcm_decrypt key ivBuffer cipherBuffer with
          | None => throw (ExnError "OperationError")
          | Some plainBuffer => ret (string_of_list_byte plainBuffer)
          end
      end
  end.

(** [setRefreshToken] *)
Definition setRefreshToken (token : string) : M unit :=
  c <- encrypt token ;;
  let (ciphertext, iv) := c in
  all_ [ setLocalValue put_encryptedRefreshToken ciphertext;
         setLocalValue put_refreshTokenIV iv ].

(** [clearRefreshToken] *)
Definition clearRefreshToken : M unit :=
  all_ [ removeLocalValue put_encryptedRefreshToken;
         removeLocalValue put_refreshTokenIV ].

(** [getRefreshToken] *)
Definition getRefreshToken : M (option string) :=
  p <- all2 (getLocalValue encryptedRefreshToken) (getLocalValue refreshTokenIV) ;;
  let (ciphertext, iv) := p in
  if Js.falsy_opt ciphertext || Js.falsy_opt iv then ret None
  else
    match ciphertext, iv with
    | Some c, Some i =>
        try_catch
          (t <- decrypt c i ;; ret (Some t))
          (fun _ => clearRefreshToken ;;; ret None)
    | _, _ => ret None
    end.

End LocalStorage.

(** [setSessionMeta] *)
Definition setSessionMeta (email : string) : M unit :=
  now <- Date_now ;;
  setLocalValue put_sessionMeta {| createdAt := now; meta_email := email |}.

(** [getSessionMeta] *)
Definition getSessionMeta : M (option SessionMeta) := getLocalValue sessionMeta.

(** [clearSessionMeta] *)
Definition clearSessionMeta : M unit := removeLocalValue put_sessionMeta.

(** [isSessionExpired] *)
Definition isSessionExpired : M bool :=
  meta <- getSessionMeta ;;
  match meta with
  | None => ret true
  | Some m =>
      now <- Date_now ;;
      ret (now - createdAt m >? SEVEN_DAYS_MS)
  end.

(* ===================================================================== *)
(** ** The API client *)
(* ===================================================================== *)

Definition MAX_RETRIES : nat := 3.
Definition INITIAL_RETRY_DELAY_MS : Q := 1000.
Definition MAX_RETRY_DELAY_MS : Q := 5000.

(** [Math.min] *)
Definition Math_min (a b : Q) : Q := if Qle_bool a b then a else b.

(** [Math.pow(2, n)] *)
Definition pow2 (n : nat) : Q := inject_Z (2 ^ Z.of_nat n).

(** [getRetryDelay] *)
Definition getRetryDelay (attempt : nat) : M Q :=
  let baseDelay := (INITIAL_RETRY_DELAY_MS * pow2 attempt)%Q in
  r <- Math_random ;;
  let jitter := (r * 500)%Q in
  ret (Math_min (baseDelay + jitter)%Q MAX_RETRY_DELAY_MS).

(** [isRetryableError] *)
Definition isRetryableError (x : Exn) : bool :=
  match x with
  | ExnTypeError _ => true
  | ExnAuth e =>
      AuthErrorCode_eqb (code e) NETWORK_ERROR || AuthErrorCode_eqb (code e) AUTH0_UNAVAILABLE
  | ExnError _ => false
  end.

(** [fetch(url, options)]: the call is logged and answered by the provider *)
Definition fetch {T} (answer : Network -> nat -> FetchResult T) (req : Request)
  : M (FetchResponse T) :=
  fun w =>
    let w' := log_fetch req w in
    match answer (network w) (List.length (fetchLog w)) with
    | NetworkFailure msg => (Throw (ExnTypeError msg), w')
    | Responded r => (Ok r, w')
    end.

(** [response.ok] *)
Definition response_ok {T} (r : FetchResponse T) : bool :=
  (200 <=? status r) && (status r <=? 299).

(** [await response.json()] read at the given type *)
Definition response_json {A} (body : option A) : M A :=
  match body with
  | Some v => ret v
  | None => throw (ExnError "SyntaxError")
  end.

(** The body of the [try] block of [fetchWithRetry] *)
Definition fetchOnce {T} (answer : Network -> nat -> FetchResult T) (req : Request) : M T :=
  response <- fetch answer req ;;
  if response_ok response then response_json (okBody response)
  else if (status response >=? 400) && (status response <? 500) then
    errorBody <- response_json (errBody response) ;;
    throw (ExnAuth (fromAuth0Error errorBody))
  else if status response >=? 500 then
    throw (ExnAuth (newAuthError AUTH0_UNAVAILABLE
             (Some ("Auth0 service error: " ++ Js.of_Z (status response)))))
  else
    throw (ExnAuth (newAuthError NETWORK_ERROR
             (Some ("Unexpected response: " ++ Js.of_Z (status response))))).

(** The wait before the next attempt: none after the last one *)
Definition backoff (attempt : nat) : M unit :=
  if (attempt <? MAX_RETRIES - 1)%nat
  then (delay <- getRetryDelay attempt ;; sleep delay)
  else ret tt.

(** The [for] loop of [fetchWithRetry], with [attempt + remaining = MAX_RETRIES] *)
Fixpoint fetchLoop {T} (answer : Network -> nat -> FetchResult T) (req : Request)
    (remaining attempt : nat) (lastError : option Exn) : M T :=
  match remaining with
  | O =>
      throw (nullish lastError
               (ExnAuth (newAuthError NETWORK_ERROR (Some "Request failed after retries"))))
  | S remaining' =>
      try_catch (fetchOnce answer req)
        (fun error =>
           if negb (isRetryableError error) then throw error
           else
             backoff attempt ;;;
             fetchLoop answer req remaining' (S attempt) (Some error))
  end.

(** [fetchWithRetry] *)
Definition fetchWithRetry {T} (answer : Network -> nat -> FetchResult T) (req : Request) : M T :=
  fetchLoop answer req MAX_RETRIES 0%nat None.

(** [initiatePasswordlessOTP] *)
Definition initiatePasswordlessOTP (email : string) : M PasswordlessStartResponse :=
  fetchWithRetry onStart (PasswordlessStart email).

(** [exchangeOTPForTokens] *)
Definition exchangeOTPForTokens (email otp : string) : M TokenResponse :=
  fetchWithRetry onToken (TokenExchange email otp).

(** [refreshTokens] *)
Definition refreshTokens (refreshToken : string) : M TokenResponse :=
  fetchWithRetry onToken (TokenRefresh refreshToken).

(* ===================================================================== *)
(** ** src/messages/types.ts *)
(* ===================================================================== *)

(** [AuthResponse<T>] *)
Inductive AuthResponse (T : Type) :=
| Success (data : T)
| Failure (code : AuthErrorCode) (message : string).
Arguments Success {T} data.
Arguments Failure {T} code message.

Definition successResponse {T} (data : T) : AuthResponse T := Success data.

Definition errorResponse {T} (c : AuthErrorCode) (msg : string) : AuthResponse T :=
  Failure c msg.

Record AuthStateResponseData := {
  rd_isAuthenticated : bool;
  rd_email : option string;
  rd_expiresAt : option Z;
  rd_sessionAge : option Z;
  rd_flowState : option AuthFlowState;
  rd_otpRequest : option OTPRequest
}.

Section Extension.

Context {host : Host}.

(* ===================================================================== *)
(** ** src/storage/index.ts *)
(* ===================================================================== *)

(** [{ ...sessionAuth, refreshToken }] *)
Definition join_auth (a : SessionAuth) (rt : string) : AuthState :=
  {| email := sa_email a; accessToken := sa_accessToken a; refreshToken := rt;
     expiresAt := sa_expiresAt a; idToken := sa_idToken a;
     sessionCreatedAt := sa_sessionCreatedAt a |}.

(** [const { refreshToken, ...sessionAuth } = auth] *)
Definition omit_refreshToken (a : AuthState) : SessionAuth :=
  {| sa_email := email a; sa_accessToken := accessToken a;
     sa_expiresAt := expiresAt a; sa_idToken := idToken a;
     sa_sessionCreatedAt := sessionCreatedAt a |}.

(** [getCompleteAuthState] *)
Definition getCompleteAuthState : M (option AuthState) :=
  p <- all2 getAuthState getRefreshToken ;;
  let (sessionAuth, refreshToken) := p in
  match sessionAuth, refreshToken with
  | Some a, Some rt => if Js.falsy rt then ret None else ret (Some (join_auth a rt))
  | _, _ => ret None
  end.

(** [storeAuthState] *)
Definition storeAuthState (a : AuthState) : M unit :=
  let sessionAuth := omit_refreshToken a in
  all_ [ setAuthState sessionAuth;
         setRefreshToken (refreshToken a);
         setSessionMeta (email a) ].

(** [clearAllAuthState] *)
Definition clearAllAuthState : M unit :=
  all_ [ clearAuthState;
         clearRefreshToken;
         clearSessionMeta;
         clearUserProfile;
         clearOTPRequest;
         setFlowState LOGGED_OUT ].

(** [isSessionValid] *)
Definition isSessionValid : M bool :=
  p <- all2 getAuthState (all2 getRefreshToken isSessionExpired) ;;
  let '(a, (rt, expired)) := p in
  ret (match a with Some _ => true | None => false end
       && negb (Js.falsy_opt rt) && negb expired).

(** [isAccessTokenExpired] *)
Definition isAccessTokenExpired : M bool :=
  a <- getAuthState ;;
  match a with
  | None => ret true
  | Some a =>
      let FIVE_MINUTES_MS := 5 * 60 * 1000 in
      now <- Date_now ;;
      ret (now >? sa_expiresAt a - FIVE_MINUTES_MS)
  end.

(* ===================================================================== *)
(** ** The state machine *)
(* ===================================================================== *)

Record StateMachineState := {
  sm_flowState : AuthFlowState;
  sm_email : option string;
  isAuthenticated : bool;
  sm_otpRequest : option OTPRequest;
  sm_userProfile : option UserProfile;
  sessionAge : option Z;
  sm_expiresAt : option Z
}.

(** [getCurrentState] *)
Definition getCurrentState : M StateMachineState :=
  p <- all2 getFlowState
         (all2 getCompleteAuthState
            (all2 getOTPRequest (all2 getUserProfile getSessionMeta))) ;;
  let '(fs, (a, (otp, (profile, meta)))) := p in
  now <- Date_now ;;
  let currentFlowState := nullish fs LOGGED_OUT in
  let authenticated :=
    AuthFlowState_eqb currentFlowState AUTHENTICATED
    && match a with Some _ => true | None => false end in
  ret {| sm_flowState := currentFlowState;
         sm_email := nullish_opt (option_map email a) (option_map otp_email otp);
         isAuthenticated := authenticated;
         sm_otpRequest := otp;
         sm_userProfile := profile;
         sessionAge :=
           option_map (fun m => Js.floor_div (now - createdAt m) 1000) meta;
         sm_expiresAt := option_map expiresAt a |}.

(** [initializeStateMachine] *)
Definition initializeStateMachine : M StateMachineState :=
  p <- all2 getCompleteAuthState (all2 getRefreshToken isSessionExpired) ;;
  let '(a, (rt, expired)) := p in
  let has_auth := match a with Some _ => true | None => false end in
  let has_rt := negb (Js.falsy_opt rt) in
  if has_auth && has_rt && negb expired then
    setFlowState AUTHENTICATED ;;;
    getCurrentState
  else if expired || (negb has_auth && has_rt) then
    clearAllAuthState ;;;
    getCurrentState
  else
    otp <- getOTPRequest ;;
    match otp with
    | Some r =>
        let OTP_EXPIRY_MS := 5 * 60 * 1000 in
        now <- Date_now ;;
        if now - requestedAt r <? OTP_EXPIRY_MS then
          setFlowState PENDING_OTP ;;;
          getCurrentState
        else
          clearOTPRequest ;;;
          setFlowState LOGGED_OUT ;;;
          getCurrentState
    | None =>
        setFlowState LOGGED_OUT ;;;
        getCurrentState
    end.

(** [existing?.email === email] *)
Definition same_email (existing : option OTPRequest) (e : string) : bool :=
  match existing with
  | Some r => String.eqb (otp_email r) e
  | None => false
  end.

(** [transitionToOTPPending] *)
Definition transitionToOTPPending (e : string) (verifier : option string)
  : M StateMachineState :=
  existingRequest <- getOTPRequest ;;
  now <- Date_now ;;
  let request :=
    {| otp_email := e;
       requestedAt := now;
       attemptCount :=
         (match existingRequest with
          | Some r => if String.eqb (otp_email r) e then attemptCount r else 0
          | None => 0
          end) + 1;
       windowStart :=
         match existingRequest with
         | Some r => if String.eqb (otp_email r) e then windowStart r else now
         | None => now
         end;
       codeVerifier := verifier |} in
  all_ [ setOTPRequest request; setFlowState PENDING_OTP ] ;;;
  getCurrentState.

(** [transitionToAuthenticated] *)
Definition transitionToAuthenticated (a : AuthState) : M StateMachineState :=
  all_ [ storeAuthState a; clearOTPRequest; setFlowState AUTHENTICATED ] ;;;
  getCurrentState.

(** [transitionToLoggedOut]; the reason is only logged *)
Definition transitionToLoggedOut : M StateMachineState :=
  clearAllAuthState ;;;
  getCurrentState.

(** [transitionToSessionExpired] *)
Definition transitionToSessionExpired : M StateMachineState :=
  all_ [ clearAllAuthState; setFlowState SESSION_EXPIRED ] ;;;
  getCurrentState.

(** [cancelOTP] *)
Definition cancelOTP : M StateMachineState :=
  all_ [ clearOTPRequest; setFlowState LOGGED_OUT ] ;;;
  getCurrentState.

(** [needsTokenRefresh] *)
Definition needsTokenRefresh : M bool :=
  st <- getCurrentState ;;
  if negb (isAuthenticated st) then ret false else isAccessTokenExpired.

Definition RATE_LIMIT_WINDOW_MS : Z := 15 * 60 * 1000.
Definition MAX_OTP_REQUESTS : Z := 5.

Record RateLimit := {
  limited : bool;
  remainingAttempts : Z;
  resetAt : option Z
}.

(** [isRateLimited] *)
Definition isRateLimited (e : string) : M RateLimit :=
  otp <- getOTPRequest ;;
  now <- Date_now ;;
  match otp with
  | None => ret {| limited := false; remainingAttempts := MAX_OTP_REQUESTS; resetAt := None |}
  | Some r =>
      if negb (String.eqb (otp_email r) e) then
        ret {| limited := false; remainingAttempts := MAX_OTP_REQUESTS; resetAt := None |}
      else if now - windowStart r >? RATE_LIMIT_WINDOW_MS then
        ret {| limited := false; remainingAttempts := MAX_OTP_REQUESTS; resetAt := None |}
      else
        let remaining := MAX_OTP_REQUESTS - attemptCount r in
        ret {| limited := remaining <=? 0;
               remainingAttempts := Z.max 0 remaining;
               resetAt := Some (windowStart r + RATE_LIMIT_WINDOW_MS) |}
  end.

(* ===================================================================== *)
(** ** The message handlers *)
(* ===================================================================== *)

(** The [RATE_LIMITED] answer of [handleInitiateOTP] and [handleResendOTP] *)
Definition rateLimitedResponse {T} (rateLimit : RateLimit) : M (AuthResponse T) :=
  now <- Date_now ;;
  let resetIn :=
    match resetAt rateLimit with
    | Some r => if r =? 0 then 15 else Js.ceil_div (r - now) 60000
    | None => 15
    end in
  ret (errorResponse RATE_LIMITED
         ("Too many requests. Please try again in " ++ Js.of_Z resetIn ++ " minutes.")).

(** [catch (error) { ... fromUnknown(error, defaultCode) ... errorResponse }] *)
Definition respond_error {T} (defaultCode : AuthErrorCode) (x : Exn) : M (AuthResponse T) :=
  let authError := fromUnknown x defaultCode in
  ret (errorResponse (code authError) (message authError)).

(** [handleInitiateOTP] *)
Definition handleInitiateOTP (e : string) : M (AuthResponse (string * Z)) :=
  try_catch
    (if negb (validateEmail e) then
       ret (errorResponse INVALID_EMAIL "Please enter a valid email address")
     else
       rateLimit <- isRateLimited e ;;
       if limited rateLimit then rateLimitedResponse rateLimit
       else
         initiatePasswordlessOTP e ;;;
         transitionToOTPPending e None ;;;
         now <- Date_now ;;
         let expiresAt := now + 5 * 60 * 1000 in
         ret (successResponse (e, expiresAt)))
    (respond_error NETWORK_ERROR).

(** [handleVerifyOTP] *)
Definition handleVerifyOTP (e otp : string) : M (AuthResponse (string * Z)) :=
  try_catch
    (if negb (validateEmail e) then
       ret (errorResponse INVALID_EMAIL "Please enter a valid email address")
     else if Js.falsy otp || (Js.len otp <? 4) then
       ret (errorResponse INVALID_OTP "Please enter a valid code")
     else
       tokenResponse <- exchangeOTPForTokens e otp ;;
       match refresh_token tokenResponse with
       | Some rt =>
           if Js.falsy rt then
             ret (errorResponse VALIDATION_ERROR
                    "Authentication failed: no refresh token received")
           else
             now <- Date_now ;;
             let expiresAt := now + expires_in tokenResponse * 1000 in
             let authState :=
               {| email := e;
                  accessToken := access_token tokenResponse;
                  refreshToken := rt;
                  expiresAt := expiresAt;
                  idToken := id_token tokenResponse;
                  sessionCreatedAt := now |} in
             transitionToAuthenticated authState ;;;
             ret (successResponse (e, expiresAt))
       | None =>
           ret (errorResponse VALIDATION_ERROR
                  "Authentication failed: no refresh token received")
       end)
    (fun x =>
       let authError := fromUnknown x NETWORK_ERROR in
       if Js.includes (message authError) "invalid" || Js.includes (message authError) "Wrong"
       then ret (errorResponse INVALID_OTP "The code you entered is incorrect")
       else if Js.includes (message authError) "expired"
       then ret (errorResponse OTP_EXPIRED "This code has expired. Please request a new one.")
       else ret (errorResponse (code authError) (message authError))).

(** [handleResendOTP] *)
Definition handleResendOTP (e : string) : M (AuthResponse (string * Z * Z)) :=
  try_catch
    (if negb (validateEmail e) then
       ret (errorResponse INVALID_EMAIL "Please enter a valid email address")
     else
       rateLimit <- isRateLimited e ;;
       if limited rateLimit then rateLimitedResponse rateLimit
       else
         initiatePasswordlessOTP e ;;;
         transitionToOTPPending e None ;;;
         now <- Date_now ;;
         let expiresAt := now + 5 * 60 * 1000 in
         updatedRateLimit <- isRateLimited e ;;
         ret (successResponse (e, expiresAt, remainingAttempts updatedRateLimit)))
    (respond_error NETWORK_ERROR).

(** [handleRefreshToken] *)
Definition handleRefreshToken : M (AuthResponse Z) :=
  try_catch
    (sessionExpired <- isSessionExpired ;;
     if sessionExpired then
       transitionToLoggedOut ;;;
       ret (errorResponse SESSION_EXPIRED_ERROR
              "Your session has expired. Please log in again.")
     else
       currentRefreshToken <- getRefreshToken ;;
       if Js.falsy_opt currentRefreshToken then
         ret (errorResponse NOT_AUTHENTICATED "No refresh token available")
       else
         currentAuth <- getAuthState ;;
         match currentAuth, currentRefreshToken with
         | Some currentAuth, Some currentRefreshToken =>
             tokenResponse <- refreshTokens currentRefreshToken ;;
             now <- Date_now ;;
             let expiresAt := now + expires_in tokenResponse * 1000 in
             let authState :=
               {| email := sa_email currentAuth;
                  accessToken := access_token tokenResponse;
                  refreshToken := nullish (refresh_token tokenResponse) currentRefreshToken;
                  expiresAt := expiresAt;
                  idToken := nullish_opt (id_token tokenResponse) (sa_idToken currentAuth);
                  sessionCreatedAt := sa_sessionCreatedAt currentAuth |} in
             transitionToAuthenticated authState ;;;
             ret (successResponse expiresAt)
         | _, _ =>
             ret (errorResponse NOT_AUTHENTICATED "No authentication state found")
         end)
    (fun x =>
       let authError := fromUnknown x REFRESH_FAILED in
       (if AuthErrorCode_eqb (code authError) REFRESH_FAILED
           || AuthErrorCode_eqb (code authError) VALIDATION_ERROR
        then transitionToLoggedOut ;;; ret tt
        else ret tt) ;;;
       ret (errorResponse (code authError) (message authError))).

(** [handleLogout] *)
Definition handleLogout : M (AuthResponse bool) :=
  try_catch
    (transitionToLoggedOut ;;; ret (successResponse true))
    (respond_error STORAGE_ERROR).

(** [handleGetAuthState] *)
Definition handleGetAuthState : M (AuthResponse AuthStateResponseData) :=
  try_catch
    (st <- getCurrentState ;;
     ret (successResponse
            {| rd_isAuthenticated := isAuthenticated st;
               rd_email := sm_email st;
               rd_expiresAt := sm_expiresAt st;
               rd_sessionAge := sessionAge st;
               rd_flowState := Some (sm_flowState st);
               rd_otpRequest := sm_otpRequest st |}))
    (respond_error STORAGE_ERROR).

(* ===================================================================== *)
(** ** src/entrypoints/background.ts *)
(* ===================================================================== *)

(** [AuthRequest], without [FETCH_USER_INFO] *)
Inductive AuthRequest :=
| INITIATE_OTP (email : string)
| VERIFY_OTP (email otp : string)
| RESEND_OTP (email : string)
| REFRESH_TOKEN
| LOGOUT
| GET_AUTH_STATE.

(** The payloads of the success responses *)
Inductive ResponseData :=
| InitiateOTPData (email : string) (expiresAt : Z)
| VerifyOTPData (email : string) (expiresAt : Z)
| ResendOTPData (email : string) (expiresAt : Z) (remainingAttempts : Z)
| RefreshData (expiresAt : Z)
| LogoutData (success : bool)
| AuthStateData (d : AuthStateResponseData).

Definition map_response {A B} (f : A -> B) (r : AuthResponse A) : AuthResponse B :=
  match r with
  | Success d => Success (f d)
  | Failure c m => Failure c m
  end.

Definition answer_with {A} (f : A -> ResponseData) (h : M (AuthResponse A))
  : M (AuthResponse ResponseData) :=
  r <- h ;; ret (map_response f r).

(** [processMessage] *)
Definition processMessage (request : AuthRequest) : M (AuthResponse ResponseData) :=
  match request with
  | INITIATE_OTP e =>
      answer_with (fun d => InitiateOTPData (fst d) (snd d)) (handleInitiateOTP e)
  | VERIFY_OTP e otp =>
      answer_with (fun d => VerifyOTPData (fst d) (snd d)) (handleVerifyOTP e otp)
  | RESEND_OTP e =>
      answer_with (fun d => ResendOTPData (fst (fst d)) (snd (fst d)) (snd d))
        (handleResendOTP e)
  | REFRESH_TOKEN => answer_with RefreshData handleRefreshToken
  | LOGOUT => answer_with LogoutData handleLogout
  | GET_AUTH_STATE => answer_with AuthStateData handleGetAuthState
  end.

(** [performTokenRefresh], the refresh the alarm triggers; the calls that
    arm and clear the alarm are left out. *)
Definition performTokenRefresh : M unit :=
  result <- handleRefreshToken ;;
  match result with
  | Success _ => st <- getCurrentState ;; ret tt
  | Failure _ _ => transitionToLoggedOut ;;; ret tt
  end.

(** The error code of a response, if it is an error. *)
Definition response_code {T} (r : AuthResponse T) : option AuthErrorCode :=
  match r with
  | Success _ => None
  | Failure c _ => Some c
  end.

End Extension.

(* ===================================================================== *)
(** ** Stored facts *)
(* ===================================================================== *)

(** What the storage of a world holds, as the reads of the code see it. *)

Section Views.

Context {host : Host}.

(** The key [getEncryptionKey] hands out in [w]. *)
Definition key_in (w : World) : list byte :=
  match encryptionKey w with
  | Some k => k
  | None =>
      pbkdf2 (list_byte_of_string extensionId)
        (list_byte_of_string "auth0-passwordless-extension") 100000
  end.

(** The plaintext [decrypt c i] resolves to in [w]; [None] when it rejects. *)
Definition decrypted (w : World) (c i : string) : option string :=
  match base64ToBuffer i with
  | None => None
  | Some ivBuffer =>
      match base64ToBuffer c with
      | None => None
      | Some cipherBuffer =>
          option_map string_of_list_byte (gcm_decrypt (key_in w) ivBuffer cipherBuffer)
      end
  end.

(** The refresh token stored in [w]: both entries are present and
    non-empty, and they decrypt. *)
Definition readable_token (w : World) : option string :=
  match encryptedRefreshToken (local w), refreshTokenIV (local w) with
  | Some c, Some i => if Js.falsy c || Js.falsy i then None else decrypted w c i
  | _, _ => None
  end.

(** The world a read of the refresh token leaves. *)
Definition heal (w : World) : World := snd (getRefreshToken w).

(** The refresh-token half of a session is present. *)
Definition has_refresh_token (w : World) : bool :=
  negb (Js.falsy_opt (readable_token w)).

(** The access-token half of a session is present. *)
Definition has_session_auth (w : World) : bool :=
  match auth (session w) with Some _ => true | None => false end.

(** The 7-day check of [isSessionExpired] at time [t]. *)
Definition session_expired_at (t : Z) (w : World) : bool :=
  match sessionMeta (local w) with
  | None => true
  | Some m => t - createdAt m >? SEVEN_DAYS_MS
  end.

(** A pending OTP request younger than five minutes at time [t]. *)
Definition otp_fresh_at (t : Z) (w : World) : bool :=
  match otpRequest (session w) with
  | Some r => t - requestedAt r <? 5 * 60 * 1000
  | None => false
  end.

(** The laws of an authenticated cipher that the round trip relies on:
    decryption undoes encryption, and a ciphertext is never empty (it
    carries the authentication tag). *)
Definition cipher_correct : Prop :=
  (forall key iv plain, gcm_decrypt key iv (gcm_encrypt key iv plain) = Some plain) /\
  (forall key iv plain, gcm_encrypt key iv plain <> []).

(** The nonce a write draws in [w]. *)
Definition next_iv (w : World) : list byte :=
  map (entropy w) (seq (entropyUsed w) IV_LENGTH).

(** The session [getCompleteAuthState] finds: both halves are present. *)
Definition complete_auth (w : World) : option AuthState :=
  match auth (session w), readable_token w with
  | Some a, Some rt => if Js.falsy rt then None else Some (join_auth a rt)
  | _, _ => None
  end.

(** The view [getCurrentState] derives from the storage of [w]. *)
Definition view (w : World) : StateMachineState :=
  let currentFlowState := nullish (flowState (session w)) LOGGED_OUT in
  {| sm_flowState := currentFlowState;
     sm_email :=
       nullish_opt (option_map email (complete_auth w))
         (option_map otp_email (otpRequest (session w)));
     isAuthenticated :=
       AuthFlowState_eqb currentFlowState AUTHENTICATED
       && match complete_auth w with Some _ => true | None => false end;
     sm_otpRequest := otpRequest (session w);
     sm_userProfile := userProfile (session w);
     sessionAge :=
       option_map (fun m => Js.floor_div (dateNow w - createdAt m) 1000)
         (sessionMeta (local w));
     sm_expiresAt := option_map expiresAt (complete_auth w) |}.

(** The stored facts the start-up reconciliation decides on. *)
Record Facts := {
  fact_auth : bool;                    (* the [auth] record is present *)
  fact_token : bool;                   (* a non-empty refresh token decrypts *)
  fact_meta : option SessionMeta;
  fact_otp : option OTPRequest
}.

Definition facts (w : World) : Facts :=
  {| fact_auth := has_session_auth w;
     fact_token := has_refresh_token w;
     fact_meta := sessionMeta (local w);
     fact_otp := otpRequest (session w) |}.

Definition meta_expired (t : Z) (f : Facts) : bool :=
  match fact_meta f with
  | None => true
  | Some m => t - createdAt m >? SEVEN_DAYS_MS
  end.

Definition otp_fresh (t : Z) (f : Facts) : bool :=
  match fact_otp f with
  | Some r => t - requestedAt r <? 5 * 60 * 1000
  | None => false
  end.

(** The branch [initializeStateMachine] takes at time [t], as a function
    of the stored facts... *)
Definition flow_of (t : Z) (f : Facts) : AuthFlowState :=
  let complete := fact_auth f && fact_token f in
  if complete && fact_token f && negb (meta_expired t f) then AUTHENTICATED
  else if meta_expired t f || (negb complete && fact_token f) then LOGGED_OUT
  else if otp_fresh t f then PENDING_OTP
  else LOGGED_OUT.

(** ... and the stored facts it leaves. *)
Definition facts_after (t : Z) (f : Facts) : Facts :=
  let complete := fact_auth f && fact_token f in
  if complete && fact_token f && negb (meta_expired t f) then f
  else if meta_expired t f || (negb complete && fact_token f) then
    {| fact_auth := false; fact_token := false; fact_meta := None; fact_otp := None |}
  else if otp_fresh t f then f
  else {| fact_auth := fact_auth f; fact_token := fact_token f;
          fact_meta := fact_meta f; fact_otp := None |}.

(** The storage [transitionToAuthenticated a] writes in [w]. *)
Definition stored (a : AuthState) (w : World) : World :=
  with_session (put_flowState (Some AUTHENTICATED))
    (with_session (put_otpRequest None)
       (with_local
          (put_sessionMeta (Some {| createdAt := dateNow w; meta_email := email a |}))
          (snd (setRefreshToken (refreshToken a)
                  (with_session (put_auth (Some (omit_refreshToken a))) w))))).

(** The answer of [isRateLimited e] on the pending request [otp] at time [now]. *)
Definition rate_limit (e : string) (now : Z) (otp : option OTPRequest) : RateLimit :=
  match otp with
  | None => {| limited := false; remainingAttempts := MAX_OTP_REQUESTS; resetAt := None |}
  | Some r =>
      if negb (String.eqb (otp_email r) e) then
        {| limited := false; remainingAttempts := MAX_OTP_REQUESTS; resetAt := None |}
      else if now - windowStart r >? RATE_LIMIT_WINDOW_MS then
        {| limited := false; remainingAttempts := MAX_OTP_REQUESTS; resetAt := None |}
      else
        {| limited := MAX_OTP_REQUESTS - attemptCount r <=? 0;
           remainingAttempts := Z.max 0 (MAX_OTP_REQUESTS - attemptCount r);
           resetAt := Some (windowStart r + RATE_LIMIT_WINDOW_MS) |}
  end.

(** The request [transitionToOTPPending e] stores at time [now] over [existing]. *)
Definition next_request (e : string) (now : Z) (existing : option OTPRequest) : OTPRequest :=
  {| otp_email := e;
     requestedAt := now;
     attemptCount :=
       (match existing with
        | Some r => if String.eqb (otp_email r) e then attemptCount r else 0
        | None => 0
        end) + 1;
     windowStart :=
       match existing with
       | Some r => if String.eqb (otp_email r) e then windowStart r else now
       | None => now
       end;
     codeVerifier := None |}.

(** The provider accepts a request: a 2xx response whose body parses. *)
Definition accepted {T} (r : FetchResult T) : bool :=
  match r with
  | Responded resp =>
      response_ok resp && match okBody resp with Some _ => true | None => false end
  | NetworkFailure _ => false
  end.

(** The two requests that ask the provider for a one-time code. *)
Inductive OtpKind := Initiate | Resend.

Definition otp_message (k : OtpKind) (e : string) : AuthRequest :=
  match k with
  | Initiate => INITIATE_OTP e
  | Resend => RESEND_OTP e
  end.

(** What a served request shows from outside: the error code of its
    response ([None] for a success) and the number of [fetch] calls made. *)
Record Served := {
  served_code : option AuthErrorCode;
  served_fetches : nat
}.

(** Serves the request [k] for [e] arriving at time [t]. *)
Definition serve (e : string) (k : OtpKind) (t : Z) (w : World) : option Served * World :=
  let (r, w') := processMessage (otp_message k e) (at_time t w) in
  (match r with
   | Ok resp =>
       Some {| served_code := response_code resp;
               served_fetches := (List.length (fetchLog w') - List.length (fetchLog w))%nat |}
   | Throw _ => None
   end, w').

(** Serves requests one after the other. *)
Fixpoint serve_all (e : string) (reqs : list (OtpKind * Z)) (w : World)
  : list (option Served) * World :=
  match reqs with
  | [] => ([], w)
  | (k, t) :: rest =>
      let (r, w1) := serve e k t w in
      let (rs, w2) := serve_all e rest w1 in
      (r :: rs, w2)
  end.

End Views.

(* ===================================================================== *)
(** ** A sample host and sample worlds, to run the code on *)
(* ===================================================================== *)

Module Sample.

(** A sixteen-byte tag made of the nonce followed by the key. *)
Definition tag (key iv : list byte) : list byte :=
  firstn 16 (iv ++ key ++ repeat x00 16).

Definition byte_list_eqb (a b : list byte) : bool :=
  String.eqb (string_of_list_byte a) (string_of_list_byte b).

(** A stand-in for the authenticated cipher: the reversed plaintext followed
    by the tag; decryption checks the tag. *)
Definition seal (key iv plain : list byte) : list byte := rev plain ++ tag key iv.

Definition unseal (key iv cipher : list byte) : option (list byte) :=
  let n := (List.length cipher - 16)%nat in
  if (16 <=? List.length cipher)%nat && byte_list_eqb (skipn n cipher) (tag key iv)
  then Some (rev (firstn n cipher))
  else None.

#[export] Instance host : Host := {|
  extensionId := "abcdefghijklmnopabcdefghijklmnop";
  pbkdf2 := fun password salt _ => firstn 32 (password ++ salt);
  gcm_encrypt := seal;
  gcm_decrypt := unseal
|}.

Definition emptySession : SessionStorageSchema :=
  {| auth := None; otpRequest := None; userProfile := None; flowState := None |}.

Definition emptyLocal : LocalStorageSchema :=
  {| encryptedRefreshToken := None; refreshTokenIV := None; sessionMeta := None |}.

Definition tokens (access : string) : TokenResponse :=
  {| access_token := access; refresh_token := Some "rt-1"; id_token := None;
     expires_in := 3600 |}.

Definition ok200 {T} (v : T) : FetchResult T :=
  Responded {| status := 200; okBody := Some v; errBody := None |}.

Definition failure {T} (st : Z) (err : string) (description : option string) : FetchResult T :=
  Responded {| status := st; okBody := None;
               errBody := Some {| error := err; error_description := description;
                                  error_message := None; statusCode := None |} |}.

Definition started : PasswordlessStartResponse :=
  {| ps_id := "id"; ps_email := "user@example.com"; ps_email_verified := false |}.

(** A provider that accepts every request. *)
Definition friendly : Network :=
  {| onStart := fun _ => ok200 started; onToken := fun _ => ok200 (tokens "at-1") |}.

(** A fresh installation at time [t] talking to the provider [net]. *)
Definition fresh (net : Network) (t : Z) : World :=
  {| session := emptySession; local := emptyLocal; encryptionKey := None;
     dateNow := t; network := net; fetchLog := []; sleepLog := [];
     random := fun _ => (1 # 2)%Q; randomUsed := 0;
     entropy := fun _ => x2a; entropyUsed := 0 |}.

Definition MINUTE : Z := 60 * 1000.
Definition DAY : Z := 24 * 60 * MINUTE.

(** Runs a computation and keeps the world it leaves. *)
Definition exec {A} (m : M A) (w : World) : World := snd (m w).

(** Runs a computation and keeps its outcome. *)
Definition eval {A} (m : M A) (w : World) : Result A := fst (m w).

(** A session created by a successful login at time 0. *)
Definition loggedIn (net : Network) : World :=
  exec (handleVerifyOTP "user@example.com" "123456") (fresh net 0).

(** The session of [loggedIn] after the stored nonce was overwritten with
    the empty string. *)
Definition blankNonce : World :=
  with_local (put_refreshTokenIV (Some "")) (loggedIn friendly).

(** Sample tokens.  A segment is given in base64url, as it stands in a
    token; [document] is the JSON text it carries. *)
Definition document (segment : string) : string :=
  match base64UrlDecode segment with
  | Some text => text
  | None => ""
  end.

(** The header [{"alg":"RS256","typ":"JWT"}] *)
Definition headerSegment : string := "eyJhbGciOiJSUzI1NiIsInR5cCI6IkpXVCJ9".

(** The payload [{"iss":"https://tenant.auth0.com/","sub":"auth0|1",
    "aud":["client-1","https://api"],"exp":2000,"iat":1000,
    "azp":"client-1","email":"user@example.com","email_verified":true}] *)
Definition claimsSegment : string :=
  "eyJpc3MiOiJodHRwczovL3RlbmFudC5hdXRoMC5jb20vIiwic3ViIjoiYXV0aDB8MSIsImF1ZCI6WyJjbGllbnQtMSIsImh0dHBzOi8vYXBpIl0sImV4cCI6MjAwMCwiaWF0IjoxMDAwLCJhenAiOiJjbGllbnQtMSIsImVtYWlsIjoidXNlckBleGFtcGxlLmNvbSIsImVtYWlsX3ZlcmlmaWVkIjp0cnVlfQ".

(** The payload [{"iss":"https://tenant.auth0.com/","sub":"auth0|1",
    "aud":"client-1","iat":1000}], without [exp] *)
Definition noExpSegment : string :=
  "eyJpc3MiOiJodHRwczovL3RlbmFudC5hdXRoMC5jb20vIiwic3ViIjoiYXV0aDB8MSIsImF1ZCI6ImNsaWVudC0xIiwiaWF0IjoxMDAwfQ".

(** The payload [null] *)
Definition nullSegment : string := "bnVsbA".

Definition sampleClaims : IDTokenClaims :=
  {| iss := Text "https://tenant.auth0.com/"; sub := Some "auth0|1";
     aud := AudArray [Some "client-1"; Some "https://api"];
     exp := Num 2000; iat := Some 1000;
     azp := Some "client-1"; auth_time := None; nonce := None;
     claim_email := Some "user@example.com"; claim_email_verified := Some true;
     claim_name := None; claim_picture := None |}.

Definition noExpClaims : IDTokenClaims :=
  {| iss := Text "https://tenant.auth0.com/"; sub := Some "auth0|1";
     aud := AudString (Some "client-1");
     exp := NaN; iat := Some 1000;
     azp := None; auth_time := None; nonce := None;
     claim_email := None; claim_email_verified := None;
     claim_name := None; claim_picture := None |}.

(** An object without any of the claims: every member is [undefined]. *)
Definition emptyClaims : IDTokenClaims :=
  {| iss := NotText "undefined"; sub := None; aud := AudString None;
     exp := NaN; iat := None;
     azp := None; auth_time := None; nonce := None;
     claim_email := None; claim_email_verified := None;
     claim_name := None; claim_picture := None |}.

(** [JSON.parse] on the documents above, on [{}] and on [null]; any other
    text is taken not to parse. *)
Definition parseSample (text : string) : option Payload :=
  if String.eqb text (document claimsSegment) then Some (PayloadObject sampleClaims)
  else if String.eqb text (document noExpSegment) then Some (PayloadObject noExpClaims)
  else if String.eqb text "null" then Some PayloadNull
  else if String.eqb text (document headerSegment) || String.eqb text "{}"
  then Some (PayloadObject emptyClaims)
  else None.

Definition sampleHeader (_ : Payload) : JWTHeader :=
  {| alg := "RS256"; typ := "JWT"; kid := None |}.

(** No string of the samples is read as a number. *)
Definition sampleToNumber (_ : string) : option Z := None.

(** A token with the sample header, the given payload and a signature. *)
Definition tokenOf (payloadSegment : string) : string :=
  headerSegment ++ "." ++ payloadSegment ++ ".c2ln".

Definition sampleConfig : Auth0Config :=
  {| domain := "tenant.auth0.com"; clientId := "client-1"; audience := None |}.

Definition noOptions : ValidationOptions :=
  {| opt_audience := None; opt_issuer := None; opt_clockTolerance := None;
     opt_nonce := None |}.

(** [validateIDToken] with the sample parser *)
Definition validateSample (now : Z) (token : string) (options : ValidationOptions)
  : Result ValidatedToken :=
  validateIDToken Payload parseSample sampleHeader (fun p => p) sampleToNumber
    sampleConfig now token options.

(** A provider that accepts the login and then answers every refresh with
    403 [invalid_grant], as for a revoked or rotated refresh token. *)
Definition revoking : Network :=
  {| onStart := fun _ => ok200 started;
     onToken := fun n =>
       match n with
       | O => ok200 (tokens "at-1")
       | _ => failure 403 "invalid_grant" (Some "Unknown or invalid refresh token.")
       end |}.

(** A provider that answers every request with 400 [server_error]. *)
Definition confused : Network :=
  {| onStart := fun _ => failure 400 "server_error" None;
     onToken := fun _ => failure 400 "server_error" None |}.

(** A first OTP request for [user@example.com] at time 0, nothing else stored. *)
Definition pendingOnly : World :=
  exec (handleInitiateOTP "user@example.com") (fresh friendly 0).

(** The session of [loggedIn] after the refresh-token entries were removed
    from the durable partition: only the access half is left. *)
Definition accessHalfOnly : World :=
  exec clearRefreshToken (loggedIn friendly).

(** The session of [loggedIn] after a successful refresh on day 6. *)
Definition refreshedOnDay6 : World :=
  exec handleRefreshToken (at_time (6 * DAY) (loggedIn friendly)).

End Sample.

(* ===================================================================== *)
(** ** More of the code: the rest of src/auth/validation.ts *)
(* ===================================================================== *)

(** [s.replace(/[^p]/g, '')]: keeps the characters that satisfy [p] *)
Fixpoint keep_chars (p : ascii -> bool) (s : string) : string :=
  match s with
  | EmptyString => EmptyString
  | String c s' => if p c then String c (keep_chars p s') else keep_chars p s'
  end.

(** The class [\d] *)
Definition is_digit (c : ascii) : bool :=
  let n := nat_of_ascii c in
  (Nat.leb 48 n && Nat.leb n 57)%bool.

(** [/^\d{6}$/] *)
Definition otpRegex : Regex.re :=
  Regex.Cat (Regex.Class is_digit)
    (Regex.Cat (Regex.Class is_digit)
       (Regex.Cat (Regex.Class is_digit)
          (Regex.Cat (Regex.Class is_digit)
             (Regex.Cat (Regex.Class is_digit) (Regex.Class is_digit))))).

(** [validateOTP] *)
Definition validateOTP (otp : string) : bool :=
  if Js.falsy otp then false
  else
    let trimmed := Js.trim otp in
    Regex.test otpRegex trimmed.

(** [normalizeEmail] *)
Definition normalizeEmail (email : string) : string :=
  Js.toLowerCase (Js.trim email).

(** [normalizeOTP] *)
Definition normalizeOTP (otp : string) : string :=
  keep_chars is_digit (Js.trim otp).

(** When a regular expression matches, as a relation: the reading of
    [Regex.test] the proofs use. *)
Inductive matches : Regex.re -> string -> Prop :=
| MEps : matches Regex.Eps EmptyString
| MClass (p : ascii -> bool) (c : ascii) :
    p c = true -> matches (Regex.Class p) (String c EmptyString)
| MCat (r1 r2 : Regex.re) (s1 s2 : string) :
    matches r1 s1 -> matches r2 s2 -> matches (Regex.Cat r1 r2) (s1 ++ s2)
| MAltL (r1 r2 : Regex.re) (s : string) :
    matches r1 s -> matches (Regex.Alt r1 r2) s
| MAltR (r1 r2 : Regex.re) (s : string) :
    matches r2 s -> matches (Regex.Alt r1 r2) s
| MStarNil (r : Regex.re) : matches (Regex.Star r) EmptyString
| MStarApp (r : Regex.re) (s1 s2 : string) :
    matches r s1 -> matches (Regex.Star r) s2 -> matches (Regex.Star r) (s1 ++ s2).

(** The character classes of [r] do not tell [c] from [f c]. *)
Fixpoint class_invariant (f : ascii -> ascii) (r : Regex.re) : Prop :=
  match r with
  | Regex.Void | Regex.Eps => True
  | Regex.Class p => forall c, p (f c) = p c
  | Regex.Cat r1 r2 | Regex.Alt r1 r2 => class_invariant f r1 /\ class_invariant f r2
  | Regex.Star r1 => class_invariant f r1
  end.

(** Every character of [s] satisfies [p]. *)
Definition all_chars (p : ascii -> bool) (s : string) : bool :=
  forallb p (list_ascii_of_string s).

(** The string is made of ASCII characters only.  On such a string [Js.len]
    is [s.length], [Js.trim] is [s.trim()], [Js.toLowerCase] is
    [s.toLowerCase()] and [Js.is_space] is the class [\s]; outside ASCII
    the host language counts UTF-16 code units, also trims and matches the
    Unicode white space, and lower-cases other letters. *)
Definition ascii_only (s : string) : bool :=
  all_chars (fun c => (nat_of_ascii c <? 128)%nat) s.

(* ===================================================================== *)
(** ** More of the code: PKCE helpers (src/auth/pkce.ts) *)
(* ===================================================================== *)

Module Pkce.

Definition CODE_VERIFIER_LENGTH : nat := 32.

(** [s.replace(/=+$/, '')]: drops the padding characters at the end *)
Fixpoint strip_padding (s : string) : string :=
  match s with
  | EmptyString => EmptyString
  | String c s' =>
      match strip_padding s' with
      | EmptyString => if Ascii.eqb c "=" then EmptyString else String c EmptyString
      | t => String c t
      end
  end.

(** [base64UrlEncode] *)
Definition base64UrlEncode (buffer : list byte) : string :=
  let base64 := Base64.btoa buffer in
  strip_padding (Js.replace_all "/" "_" (Js.replace_all "+" "-" base64)).

(** [base64UrlDecode]; [None] when [atob] throws *)
Definition base64UrlDecode (encoded : string) : option (list byte) :=
  let base64 := Js.replace_all "_" "/" (Js.replace_all "-" "+" encoded) in
  Base64.atob (pad4 base64).

(** [generateCodeVerifier] *)
Definition generateCodeVerifier : M string :=
  fun w =>
    match getRandomValues CODE_VERIFIER_LENGTH w with
    | (Ok array, w') => (Ok (base64UrlEncode array), w')
    | (Throw x, w') => (Throw x, w')
    end.

Section Challenge.

(** [crypto.subtle.digest('SHA-256', data)] of the host *)
Variable sha256 : list byte -> list byte.

(** [generateCodeChallenge] *)
Definition generateCodeChallenge (verifier : string) : M string :=
  fun w =>
    let data := list_byte_of_string verifier in
    let hash := sha256 data in
    (Ok (base64UrlEncode hash), w).

(** [generatePKCEPair] *)
Definition generatePKCEPair : M (string * string) :=
  fun w =>
    match generateCodeVerifier w with
    | (Ok codeVerifier, w1) =>
        match generateCodeChallenge codeVerifier w1 with
        | (Ok codeChallenge, w2) => (Ok (codeVerifier, codeChallenge), w2)
        | (Throw x, w2) => (Throw x, w2)
        end
    | (Throw x, w1) => (Throw x, w1)
    end.

End Challenge.

(** The characters RFC 7636 allows in a verifier that this encoding uses:
    letters, digits, [-] and [_]. *)
Definition url_safe (c : ascii) : bool :=
  let n := nat_of_ascii c in
  (Nat.leb 65 n && Nat.leb n 90)%bool || (Nat.leb 97 n && Nat.leb n 122)%bool
  || (Nat.leb 48 n && Nat.leb n 57)%bool || Ascii.eqb c "-" || Ascii.eqb c "_".

End Pkce.

(* ===================================================================== *)
(** ** More of the code: the rest of the ID-token module and of config.ts *)
(* ===================================================================== *)

Section IdTokenRest.

Variable JsonValue : Type.
Variable JSON_parse_value : string -> option JsonValue.
Variable header_of : JsonValue -> JWTHeader.
Variable claims_of : JsonValue -> Payload.
Variable ToNumber : string -> option Z.

(** [extractEmailFromToken]; the [TypeError] of a [null] payload is caught *)
Definition extractEmailFromToken (token : string) : option string :=
  match parseJWT JsonValue JSON_parse_value header_of claims_of token with
  | Ok parsed =>
      match payload parsed with
      | PayloadNull => None
      | PayloadObject claims => claim_email claims
      end
  | Throw _ => None
  end.

(** [isTokenExpired]; [dateNow] is what [Date.now()] returns.  The
    [TypeError] of a [null] payload is caught. *)
Definition isTokenExpired (dateNow : Z) (token : string) (clockTolerance : option Z) : bool :=
  let tolerance := nullish clockTolerance 60 in
  match parseJWT JsonValue JSON_parse_value header_of claims_of token with
  | Ok parsed =>
      match payload parsed with
      | PayloadNull => true
      | PayloadObject claims =>
          let now := Js.floor_div dateNow 1000 in
          exp_before ToNumber (exp claims) tolerance now
      end
  | Throw _ => true
  end.

End IdTokenRest.

(** [getPasswordlessStartUrl] *)
Definition getPasswordlessStartUrl (d : string) : string :=
  getAuth0BaseUrl d ++ "/passwordless/start".

(** [getTokenUrl] *)
Definition getTokenUrl (d : string) : string :=
  getAuth0BaseUrl d ++ "/oauth/token".

(** [getUserInfoUrl] *)
Definition getUserInfoUrl (d : string) : string :=
  getAuth0BaseUrl d ++ "/userinfo".

(* ===================================================================== *)
(** ** More of the code: the service worker with its refresh alarm
       (src/entrypoints/background.ts) *)
(* ===================================================================== *)

Module Background.

Definition TOKEN_REFRESH_ALARM : string := "token-refresh".
Definition REFRESH_MARGIN_MINUTES : Z := 5.

(** [Math.max] *)
Definition Math_max (a b : Q) : Q := if Qle_bool a b then b else a.

(** The [token-refresh] alarm of [chrome.alarms]: its [delayInMinutes] when
    one is armed.  Creating an alarm replaces the one of the same name. *)
Definition Alarm : Type := option Q.

(** [if (n)] for an optional number: [undefined] and [0] are falsy *)
Definition truthy (n : option Z) : bool :=
  match n with
  | Some z => negb (z =? 0)
  | None => false
  end.

Section Worker.

Context {host : Host}.

(** [handleMessage]: what is passed to [sendResponse] *)
Definition handleMessage (request : AuthRequest) : M (AuthResponse ResponseData) :=
  try_catch (processMessage request)
    (fun _ => ret (errorResponse NETWORK_ERROR "An unexpected error occurred")).

(** [scheduleTokenRefresh] *)
Definition scheduleTokenRefresh (expiresAt : Z) (alarm : Alarm) : M Alarm :=
  let refreshTime := expiresAt - REFRESH_MARGIN_MINUTES * 60 * 1000 in
  now <- Date_now ;;
  let delayMinutes := Math_max 1 (inject_Z (refreshTime - now) / 60000)%Q in
  ret (Some delayMinutes).

(** [performTokenRefresh], with the alarm calls *)
Definition performTokenRefresh (alarm : Alarm) : M Alarm :=
  result <- handleRefreshToken ;;
  match result with
  | Success _ =>
      state <- getCurrentState ;;
      match sm_expiresAt state with
      | Some e => if truthy (Some e) then scheduleTokenRefresh e alarm else ret alarm
      | None => ret alarm
      end
  | Failure _ _ =>
      transitionToLoggedOut ;;;
      ret None
  end.

(** [handleAlarm] *)
Definition handleAlarm (name : string) (alarm : Alarm) : M Alarm :=
  if String.eqb name TOKEN_REFRESH_ALARM then performTokenRefresh alarm
  else ret alarm.

(** [restoreSession] *)
Definition restoreSession (alarm : Alarm) : M Alarm :=
  state <- initializeStateMachine ;;
  if isAuthenticated state then
    needs <- needsTokenRefresh ;;
    if needs then performTokenRefresh alarm
    else
      match sm_expiresAt state with
      | Some e => if truthy (Some e) then scheduleTokenRefresh e alarm else ret alarm
      | None => ret alarm
      end
  else ret alarm.

(** The start of the service worker: the callback of [defineBackground] *)
Definition startup (alarm : Alarm) : M Alarm :=
  state <- initializeStateMachine ;;
  match sm_expiresAt state with
  | Some e =>
      if isAuthenticated state && truthy (Some e) then scheduleTokenRefresh e alarm
      else ret alarm
  | None => ret alarm
  end.

End Worker.

End Background.

(* ===================================================================== *)
(** * Part II: properties *)
(* ===================================================================== *)

(** ** The embedding on small inputs *)

Example includes_finds_a_substring :
  Js.includes "unknown or invalid refresh token." "invalid" = true /\
  Js.includes "unknown or invalid refresh token." "expired" = false.
Proof. split; reflexivity. Qed.

Example split_keeps_empty_parts :
  Js.split "." "a.b." = ["a"; "b"; ""] /\ Js.split "." "" = [""].
Proof. split; reflexivity. Qed.

Example btoa_atob_examples :
  Base64.btoa (list_byte_of_string "Man") = "TWFu" /\
  Base64.btoa (list_byte_of_string "Ma") = "TWE=" /\
  Base64.atob "TWE" = Some (list_byte_of_string "Ma") /\
  Base64.atob "TQ==" = Some (list_byte_of_string "M") /\
  Base64.atob "TQ=" = None /\
  Base64.atob "T" = None.
Proof. repeat split; reflexivity. Qed.

(** The cases of the repository's tests of [validateEmail]. *)
Example validateEmail_tests :
  validateEmail "user@example.com" = true /\
  validateEmail "user.name@example.com" = true /\
  validateEmail "user+tag@example.com" = true /\
  validateEmail "user@subdomain.example.com" = true /\
  validateEmail "notanemail" = false /\
  validateEmail "user@" = false /\
  validateEmail "@example.com" = false /\
  validateEmail "user@example" = false /\
  validateEmail "" = false /\
  validateEmail "  " = false /\
  validateEmail "  user@example.com  " = true.
Proof. repeat split; reflexivity. Qed.

Example mapAuth0ErrorToCode_examples :
  mapAuth0ErrorToCode "invalid_grant" (Some "Wrong email or verification code.") = INVALID_OTP /\
  mapAuth0ErrorToCode "invalid_request" None = INVALID_EMAIL /\
  mapAuth0ErrorToCode "too_many_requests" None = RATE_LIMITED /\
  mapAuth0ErrorToCode "server_error" (Some "") = AUTH0_UNAVAILABLE /\
  mapAuth0ErrorToCode "access_denied" (Some "Email domain is not allowed") = EMAIL_DOMAIN_NOT_ALLOWED /\
  mapAuth0ErrorToCode "something_else" None = VALIDATION_ERROR.
Proof. repeat split; reflexivity. Qed.

(** The cases of the repository's tests of [isSessionExpired]. *)
Example isSessionExpired_tests :
  Sample.eval isSessionExpired (Sample.fresh Sample.friendly 0) = Ok true /\
  Sample.eval isSessionExpired (Sample.loggedIn Sample.friendly) = Ok false /\
  Sample.eval isSessionExpired
    (at_time (8 * Sample.DAY) (Sample.loggedIn Sample.friendly)) = Ok true /\
  Sample.eval isSessionExpired
    (at_time (6 * Sample.DAY) (Sample.loggedIn Sample.friendly)) = Ok false /\
  Sample.eval isSessionExpired
    (at_time (7 * Sample.DAY) (Sample.loggedIn Sample.friendly)) = Ok false /\
  Sample.eval isSessionExpired
    (at_time (7 * Sample.DAY + 1) (Sample.loggedIn Sample.friendly)) = Ok true.
Proof. repeat split; reflexivity. Qed.

(** A token that validates at second 1500, and the ways it fails. *)
Example validateIDToken_examples :
  let token := Sample.tokenOf Sample.claimsSegment in
  let valid := Ok {| claims := Sample.sampleClaims; vt_email := Some "user@example.com";
                     vt_sub := Some "auth0|1" |} in
  Sample.validateSample 1500000 token Sample.noOptions = valid /\
  Sample.validateSample 2060000 token Sample.noOptions = valid /\
  Sample.validateSample 2061000 token Sample.noOptions
    = Throw (ExnAuth (newAuthError VALIDATION_ERROR (Some "Token has expired"))) /\
  Sample.validateSample 939000 token Sample.noOptions
    = Throw (ExnAuth (newAuthError VALIDATION_ERROR (Some "Token issued in the future"))) /\
  Sample.validateSample 1500000 (Sample.headerSegment ++ "." ++ Sample.claimsSegment)
    Sample.noOptions
    = Throw (ExnAuth (newAuthError VALIDATION_ERROR (Some "Invalid token format"))) /\
  Sample.validateSample 1500000 (Sample.headerSegment ++ "." ++ Sample.claimsSegment ++ ".")
    Sample.noOptions
    = Throw (ExnAuth (newAuthError VALIDATION_ERROR (Some "Invalid token format"))) /\
  Sample.validateSample 1500000 (Sample.tokenOf "e3") Sample.noOptions
    = Throw (ExnAuth (newAuthError VALIDATION_ERROR (Some "Failed to parse token"))) /\
  Sample.validateSample 1500000 (Sample.tokenOf "e30") Sample.noOptions
    = Throw (ExnAuth (newAuthError VALIDATION_ERROR
               (Some "Invalid issuer: expected https://tenant.auth0.com/, got undefined"))) /\
  Sample.validateSample 1500000 token
    {| opt_audience := Some "https://api"; opt_issuer := None;
       opt_clockTolerance := None; opt_nonce := None |}
    = Throw (ExnAuth (newAuthError VALIDATION_ERROR
                        (Some "Invalid authorized party: expected https://api"))) /\
  Sample.validateSample 1500000 token
    {| opt_audience := None; opt_issuer := None;
       opt_clockTolerance := None; opt_nonce := Some "n-1" |}
    = Throw (ExnAuth (newAuthError VALIDATION_ERROR (Some "Invalid nonce"))).
Proof. vm_compute. repeat split; reflexivity. Qed.

(** ** Base64 *)

Module Base64Facts.
Import Base64.

#[local] Open Scope N_scope.

Lemma sextet_listed (n : N) : n < 64 -> In n sextets.
Proof.
  intros H. unfold sextets.
  rewrite <- (N2Nat.id n). apply in_map. apply in_seq. lia.
Qed.

Lemma sound_index_all : forallb sound_index sextets = true.
Proof. vm_compute. reflexivity. Qed.

Lemma sound_index_lt (n : N) : n < 64 -> sound_index n = true.
Proof.
  intros H. pose proof sound_index_all as A.
  rewrite forallb_forall in A. apply A. now apply sextet_listed.
Qed.

Lemma index_of_char_of_index (n : N) :
  n < 64 -> index_of_char (char_of_index n) = Some n.
Proof.
  intros H. pose proof (sound_index_lt n H) as S. unfold sound_index in S.
  apply andb_prop in S. destruct S as [S _].
  apply andb_prop in S. destruct S as [S _].
  destruct (index_of_char (char_of_index n)); [|discriminate].
  apply N.eqb_eq in S. now subst.
Qed.

Lemma char_of_index_kept (n : N) : n < 64 -> is_skipped (char_of_index n) = false.
Proof.
  intros H. pose proof (sound_index_lt n H) as S. unfold sound_index in S.
  apply andb_prop in S. destruct S as [S _].
  apply andb_prop in S. destruct S as [_ S].
  now apply negb_true_iff in S.
Qed.

Lemma char_of_index_not_pad (n : N) : n < 64 -> Ascii.eqb (char_of_index n) pad = false.
Proof.
  intros H. pose proof (sound_index_lt n H) as S. unfold sound_index in S.
  apply andb_prop in S. destruct S as [_ S].
  now apply negb_true_iff in S.
Qed.

Lemma byte_of_N_to_N (b : byte) : byte_of_N (Byte.to_N b) = b.
Proof.
  unfold byte_of_N. pose proof (Byte.to_N_bounded b) as B.
  rewrite N.mod_small by lia. now rewrite Byte.of_to_N.
Qed.

Ltac Zify.zify_post_hook ::= Z.to_euclidean_division_equations.

(** Three bytes regrouped into four sextets, and back. *)
Lemma regroup (a b c : N) :
  a < 256 -> b < 256 -> c < 256 ->
  a / 4 < 64 /\ (a mod 4) * 16 + b / 16 < 64 /\
  (b mod 16) * 4 + c / 64 < 64 /\ c mod 64 < 64 /\
  (a / 4) * 4 + ((a mod 4) * 16 + b / 16) / 16 = a /\
  (((a mod 4) * 16 + b / 16) mod 16) * 16 + ((b mod 16) * 4 + c / 64) / 4 = b /\
  (((b mod 16) * 4 + c / 64) mod 4) * 64 + c mod 64 = c.
Proof. intros. repeat split; lia. Qed.

Lemma byte_lt (b : byte) : Byte.to_N b < 256.
Proof. pose proof (Byte.to_N_bounded b). lia. Qed.

Lemma dec4_enc (a b c : byte) :
  dec4 (char_of_index (Byte.to_N a / 4))
       (char_of_index ((Byte.to_N a mod 4) * 16 + Byte.to_N b / 16))
       (char_of_index ((Byte.to_N b mod 16) * 4 + Byte.to_N c / 64))
       (char_of_index (Byte.to_N c mod 64)) = Some [a; b; c].
Proof.
  destruct (regroup _ _ _ (byte_lt a) (byte_lt b) (byte_lt c))
    as (H1 & H2 & H3 & H4 & Ea & Eb & Ec).
  unfold dec4. rewrite !index_of_char_of_index by assumption.
  rewrite Ea, Eb, Ec, !byte_of_N_to_N. reflexivity.
Qed.

Lemma dec3_enc (a b : byte) :
  dec3 (char_of_index (Byte.to_N a / 4))
       (char_of_index ((Byte.to_N a mod 4) * 16 + Byte.to_N b / 16))
       (char_of_index ((Byte.to_N b mod 16) * 4)) = Some [a; b].
Proof.
  destruct (regroup _ _ 0 (byte_lt a) (byte_lt b) eq_refl)
    as (H1 & H2 & H3 & _ & Ea & Eb & _).
  change (0 / 64) with 0 in *. rewrite N.add_0_r in *.
  unfold dec3. rewrite !index_of_char_of_index by assumption.
  rewrite Ea, Eb, !byte_of_N_to_N. reflexivity.
Qed.

Lemma dec2_enc (a : byte) :
  dec2 (char_of_index (Byte.to_N a / 4))
       (char_of_index ((Byte.to_N a mod 4) * 16)) = Some [a].
Proof.
  destruct (regroup _ 0 0 (byte_lt a) eq_refl eq_refl)
    as (H1 & H2 & _ & _ & Ea & _ & _).
  change (0 / 16) with 0 in *. rewrite N.add_0_r in *.
  unfold dec2. rewrite !index_of_char_of_index by assumption.
  rewrite Ea, byte_of_N_to_N. reflexivity.
Qed.

(** Induction over a list three elements at a time. *)
Lemma list_ind3 {A} (P : list A -> Prop) :
  P [] -> (forall a, P [a]) -> (forall a b, P [a; b]) ->
  (forall a b c l, P l -> P (a :: b :: c :: l)) ->
  forall l, P l.
Proof.
  intros H0 H1 H2 H3.
  assert (G : forall l, P l /\ (forall a, P (a :: l)) /\ (forall a b, P (a :: b :: l))).
  { induction l as [|x l (IH0 & IH1 & IH2)].
    - repeat split; auto.
    - repeat split; auto. }
  intros l. apply G.
Qed.

Lemma encode_nil_inv (l : list byte) : encode l = [] -> l = [].
Proof. destruct l as [|a [|b [|c r]]]; simpl; congruence. Qed.

Lemma decode_encode (l : list byte) : decode (encode l) = Some l.
Proof.
  induction l as [|a|a b|a b c r IH] using list_ind3.
  - reflexivity.
  - cbn [encode decode]. rewrite Ascii.eqb_refl. apply dec2_enc.
  - cbn [encode decode]. rewrite Ascii.eqb_refl.
    destruct (regroup _ _ 0 (byte_lt a) (byte_lt b) eq_refl) as (_ & _ & H3 & _).
    change (0 / 64) with 0 in H3. rewrite N.add_0_r in H3.
    rewrite (char_of_index_not_pad _ H3). apply dec3_enc.
  - cbn [encode decode]. rewrite dec4_enc.
    destruct (encode r) as [|x xs] eqn:E.
    + apply encode_nil_inv in E. subst r.
      destruct (regroup _ _ _ (byte_lt a) (byte_lt b) (byte_lt c)) as (_ & _ & _ & H4 & _).
      rewrite (char_of_index_not_pad _ H4). reflexivity.
    + rewrite IH. reflexivity.
Qed.

Lemma encode_kept (l : list byte) :
  Forall (fun ch => is_skipped ch = false) (encode l).
Proof.
  induction l as [|a|a b|a b c r IH] using list_ind3; cbn [encode].
  - constructor.
  - destruct (regroup _ 0 0 (byte_lt a) eq_refl eq_refl) as (H1 & H2 & _).
    change (0 / 16) with 0 in *. rewrite N.add_0_r in *.
    repeat constructor; auto using char_of_index_kept.
  - destruct (regroup _ _ 0 (byte_lt a) (byte_lt b) eq_refl) as (H1 & H2 & H3 & _).
    change (0 / 64) with 0 in *. rewrite N.add_0_r in *.
    repeat constructor; auto using char_of_index_kept.
  - destruct (regroup _ _ _ (byte_lt a) (byte_lt b) (byte_lt c)) as (H1 & H2 & H3 & H4 & _).
    repeat constructor; auto using char_of_index_kept.
Qed.

Lemma filter_all {A} (f : A -> bool) (l : list A) :
  Forall (fun x => f x = true) l -> filter f l = l.
Proof.
  induction 1 as [|x l Hx _ IH]; simpl; [reflexivity|].
  now rewrite Hx, IH.
Qed.

(** [atob(btoa(b)) = b] on byte buffers *)
Lemma atob_btoa (l : list byte) : atob (btoa l) = Some l.
Proof.
  unfold atob, btoa. rewrite list_ascii_of_string_of_list_ascii.
  rewrite filter_all.
  - apply decode_encode.
  - eapply Forall_impl; [|apply encode_kept].
    intros ch H. simpl in H. now rewrite H.
Qed.

(** The encoding of a non-empty buffer is a non-empty (truthy) string. *)
Lemma btoa_truthy (l : list byte) : l <> [] -> Js.falsy (btoa l) = false.
Proof.
  intros H. unfold btoa.
  destruct l as [|a [|b [|c r]]]; [congruence| | |]; reflexivity.
Qed.

End Base64Facts.

(** ** ID token validation (claim C6) *)

Section SplitFacts.

Variable sep : ascii.

Lemma split_not_nil (s : string) : Js.split sep s <> [].
Proof.
  destruct s as [|c s]; simpl; [discriminate|].
  destruct (Ascii.eqb c sep); [discriminate|].
  destruct (Js.split sep s); discriminate.
Qed.

Lemma split_single (a : string) :
  ~ In sep (list_ascii_of_string a) -> Js.split sep a = [a].
Proof.
  induction a as [|c a IH]; simpl; intros H; [reflexivity|].
  destruct (Ascii.eqb_spec c sep) as [E|N]; [exfalso; apply H; now left|].
  rewrite IH by (intros I; apply H; now right). reflexivity.
Qed.

Lemma split_app (a b : string) :
  ~ In sep (list_ascii_of_string a) ->
  Js.split sep (a ++ String sep b) = a :: Js.split sep b.
Proof.
  induction a as [|c a IH]; simpl; intros H.
  - now rewrite Ascii.eqb_refl.
  - destruct (Ascii.eqb_spec c sep) as [E|N]; [exfalso; apply H; now left|].
    rewrite IH by (intros I; apply H; now right). reflexivity.
Qed.

Lemma join_split (s : string) : Js.join sep (Js.split sep s) = s.
Proof.
  induction s as [|c s IH]; simpl; [reflexivity|].
  destruct (Ascii.eqb_spec c sep) as [E|N].
  - subst c. pose proof (split_not_nil s) as NN.
    destruct (Js.split sep s) as [|q qs]; [congruence|].
    cbn [Js.join]. simpl. now rewrite <- IH.
  - pose proof (split_not_nil s) as NN.
    destruct (Js.split sep s) as [|q qs]; [congruence|].
    rewrite <- IH. destruct qs; reflexivity.
Qed.

Lemma split_parts_free (s : string) :
  Forall (fun q => ~ In sep (list_ascii_of_string q)) (Js.split sep s).
Proof.
  induction s as [|c s IH]; simpl.
  - constructor; [simpl; tauto | constructor].
  - destruct (Ascii.eqb_spec c sep) as [E|N].
    + constructor; [simpl; tauto | exact IH].
    + pose proof (split_not_nil s) as NN.
      destruct (Js.split sep s) as [|q qs]; [congruence|].
      inversion IH as [|? ? Hq Hqs]; subst.
      constructor; [|exact Hqs].
      simpl. intros [E|I]; [congruence | now apply Hq].
Qed.

End SplitFacts.

Lemma falsy_false_iff (s : string) : Js.falsy s = false <-> s <> "".
Proof. destruct s; simpl; split; congruence. Qed.

(** [split('.')] yields three non-empty parts exactly for the tokens of
    three non-empty dot-separated segments. *)
Lemma split_three_segments (token h p sg : string) :
  three_segments token h p sg <->
  Js.split "." token = [h; p; sg] /\
  Js.falsy h = false /\ Js.falsy p = false /\ Js.falsy sg = false.
Proof.
  unfold three_segments, dotless. rewrite !falsy_false_iff. split.
  - intros (E & Dh & Dp & Ds & Nh & Np & Ns). subst token.
    split; [|tauto]. cbn [append].
    rewrite (split_app _ h _ Dh), (split_app _ p _ Dp), (split_single _ sg Ds).
    reflexivity.
  - intros (E & Nh & Np & Ns).
    pose proof (join_split "." token) as J. rewrite E in J. cbn [Js.join] in J.
    pose proof (split_parts_free "." token) as F. rewrite E in F.
    inversion F as [|? ? Dh F1]; subst. inversion F1 as [|? ? Dp F2]; subst.
    inversion F2 as [|? ? Ds _]; subst.
    repeat split; try assumption; now rewrite <- J.
Qed.

Section IdTokenFacts.

Variable JsonValue : Type.
Variable JSON_parse_value : string -> option JsonValue.
Variable header_of : JsonValue -> JWTHeader.
Variable claims_of : JsonValue -> Payload.
Variable ToNumber : string -> option Z.

#[local] Abbreviation parse := (parseJWT JsonValue JSON_parse_value header_of claims_of).
#[local] Abbreviation parses := (parses_to JsonValue JSON_parse_value claims_of).
#[local] Abbreviation bad := (malformed JsonValue JSON_parse_value claims_of).
#[local] Abbreviation segment := (decode_segment JsonValue JSON_parse_value).

Lemma new_validation_error (msg : option string) :
  is_validation_error (ExnAuth (newAuthError VALIDATION_ERROR msg)).
Proof. eexists. reflexivity. Qed.

(** [parseJWT] returns the payload of a well-formed token and throws
    VALIDATION_ERROR on every other token. *)
Lemma parseJWT_spec (token : string) :
  match parse token with
  | Ok parsed => parses token (payload parsed)
  | Throw x => is_validation_error x /\ bad token
  end.
Proof.
  unfold parseJWT.
  destruct (Js.split "." token) as [|h [|p [|sg [|extra more]]]] eqn:E;
    try (split; [apply new_validation_error|];
         intros (c & h' & p' & s' & hv & pv & T & _);
         apply split_three_segments in T; destruct T as (T & _); congruence).
  destruct (Js.falsy h || Js.falsy p || Js.falsy sg) eqn:F.
  - split; [apply new_validation_error|].
    intros (c & h' & p' & s' & hv & pv & T & _).
    apply split_three_segments in T. destruct T as (T & Fh & Fp & Fs).
    rewrite E in T. injection T as -> -> ->. now rewrite Fh, Fp, Fs in F.
  - apply orb_false_elim in F. destruct F as [F Fs].
    apply orb_false_elim in F. destruct F as [Fh Fp].
    assert (T : three_segments token h p sg) by (apply split_three_segments; auto).
    destruct (segment h) as [hv|] eqn:Dh.
    + destruct (segment p) as [pv|] eqn:Dp.
      * exists h, p, sg, hv, pv. auto.
      * split; [apply new_validation_error|].
        intros (c & h' & p' & s' & hv' & pv' & T' & _ & Dp' & _).
        apply split_three_segments in T'. destruct T' as (T' & _).
        rewrite E in T'. injection T' as -> -> ->. congruence.
    + split; [apply new_validation_error|].
      intros (c & h' & p' & s' & hv' & pv' & T' & Dh' & _).
      apply split_three_segments in T'. destruct T' as (T' & _).
      rewrite E in T'. injection T' as -> -> ->. congruence.
Qed.

(** A token has at most one reading. *)
Lemma parses_unique (token : string) (p p' : Payload) :
  parses token p -> parses token p' -> p = p'.
Proof.
  intros (h & pl & sg & hv & pv & T & _ & Dp & ->)
         (h' & pl' & sg' & hv' & pv' & T' & _ & Dp' & ->).
  apply split_three_segments in T, T'. destruct T as (T & _), T' as (T' & _).
  rewrite T in T'. injection T' as <- <- <-. congruence.
Qed.

#[local] Abbreviation validate :=
  (validateIDToken JsonValue JSON_parse_value header_of claims_of ToNumber).

(** The outcomes of [validateIDToken]: the token's claims, a
    VALIDATION_ERROR, or, on a [null] payload and on no other token, a
    [TypeError]. *)
Lemma validateIDToken_outcomes (config : Auth0Config) (dateNow : Z) (token : string)
    (options : ValidationOptions) :
  match validate config dateNow token options with
  | Ok v =>
      exists c, parses token (PayloadObject c) /\
                v = {| claims := c; vt_email := claim_email c; vt_sub := sub c |}
  | Throw x =>
      (is_validation_error x /\ ~ parses token PayloadNull) \/
      (parses token PayloadNull /\
       x = ExnTypeError "Cannot read properties of null (reading 'iss')")
  end.
Proof.
  unfold validateIDToken. cbv zeta.
  pose proof (parseJWT_spec token) as P.
  destruct (parse token) as [parsed|x].
  - destruct (payload parsed) as [|c] eqn:Pl; [right; split; [exact P | reflexivity]|].
    assert (N : ~ parses token PayloadNull)
      by (intros Q; pose proof (parses_unique token _ _ P Q); discriminate).
    repeat match goal with
           | |- match (if ?b then _ else _) with _ => _ end =>
               destruct b; [left; split; [apply new_validation_error | exact N]|]
           end.
    exists c. split; [exact P | reflexivity].
  - destruct P as [E M]. left. split; [exact E|].
    intros Q. apply M. now exists PayloadNull.
Qed.

(** On a token whose payload is [null], validation throws the [TypeError]
    at every time and under every configuration and options. *)
Lemma validateIDToken_null_payload (config : Auth0Config) (dateNow : Z) (token : string)
    (options : ValidationOptions) :
  parses token PayloadNull ->
  validate config dateNow token options
  = Throw (ExnTypeError "Cannot read properties of null (reading 'iss')").
Proof.
  intros Q. unfold validateIDToken. cbv zeta.
  pose proof (parseJWT_spec token) as P.
  destruct (parse token) as [parsed|x].
  - rewrite (parses_unique token _ _ P Q). reflexivity.
  - destruct P as [_ M]. exfalso. apply M. now exists PayloadNull.
Qed.

End IdTokenFacts.

(** C6.  The claim fails on a token whose payload is the JSON document
    [null]: [parseJWT] accepts it (three non-empty segments that decode and
    parse), and [validateIDToken] then throws the [TypeError] of the first
    property access, [claims.iss]: neither a VALIDATION_ERROR nor the
    token's claims, at every time and under every options. *)
Theorem validateIDToken_null_payload_throws_type_error :
  let token := Sample.tokenOf Sample.nullSegment in
  let parsed := parseJWT Payload Sample.parseSample Sample.sampleHeader (fun p => p) token in
  Sample.document Sample.nullSegment = "null" /\
  option_map payload (match parsed with Ok r => Some r | Throw _ => None end)
  = Some PayloadNull /\
  (forall (now : Z) (options : ValidationOptions),
      Sample.validateSample now token options
      = Throw (ExnTypeError "Cannot read properties of null (reading 'iss')")) /\
  ~ is_validation_error
      (ExnTypeError "Cannot read properties of null (reading 'iss')").
Proof.
  cbv zeta. split; [reflexivity|]. split; [reflexivity|]. split.
  - intros now options. unfold Sample.validateSample.
    apply validateIDToken_null_payload.
    exists Sample.headerSegment, Sample.nullSegment, "c2ln",
      (PayloadObject Sample.emptyClaims), PayloadNull.
    split; [|repeat split; reflexivity].
    unfold three_segments, dotless.
    split; [reflexivity|].
    repeat split; try discriminate; vm_compute; intuition discriminate.
  - intros (msg & H). discriminate H.
Qed.

(** A token without [exp] is never rejected as expired: the sum
    [undefined + clockTolerance] is [NaN], which is not less than any
    time. *)
Example token_without_exp_never_expires :
  let token := Sample.tokenOf Sample.noExpSegment in
  let valid := Ok {| claims := Sample.noExpClaims; vt_email := None;
                     vt_sub := Some "auth0|1" |} in
  Sample.validateSample 1500000 token Sample.noOptions = valid /\
  Sample.validateSample 32503680000000 token Sample.noOptions = valid /\
  isTokenExpired Payload Sample.parseSample Sample.sampleHeader (fun p => p)
    Sample.sampleToNumber 32503680000000 token None = false.
Proof. vm_compute. repeat split; reflexivity. Qed.

(** The JSON texts carried by the sample segments, spelled out; [q] is
    the double quote. *)
Example sample_documents :
  let q := String (ascii_of_nat 34) EmptyString in
  let field name value := q ++ name ++ q ++ ":" ++ value in
  let text s := q ++ s ++ q in
  Sample.document Sample.headerSegment
  = "{" ++ field "alg" (text "RS256") ++ "," ++ field "typ" (text "JWT") ++ "}" /\
  Sample.document Sample.claimsSegment
  = "{" ++ field "iss" (text "https://tenant.auth0.com/") ++ ","
        ++ field "sub" (text "auth0|1") ++ ","
        ++ field "aud" ("[" ++ text "client-1" ++ "," ++ text "https://api" ++ "]") ++ ","
        ++ field "exp" "2000" ++ ","
        ++ field "iat" "1000" ++ ","
        ++ field "azp" (text "client-1") ++ ","
        ++ field "email" (text "user@example.com") ++ ","
        ++ field "email_verified" "true" ++ "}" /\
  Sample.document Sample.noExpSegment
  = "{" ++ field "iss" (text "https://tenant.auth0.com/") ++ ","
        ++ field "sub" (text "auth0|1") ++ ","
        ++ field "aud" (text "client-1") ++ ","
        ++ field "iat" "1000" ++ "}" /\
  Sample.document "e30" = "{}".
Proof. vm_compute. repeat split; reflexivity. Qed.

(** ** Error mapping and the retry loop (claims C2 and C7) *)

(** No error body of the provider is mapped to REFRESH_FAILED. *)
Lemma mapAuth0ErrorToCode_not_refresh_failed (auth0Error : string)
    (errorDetail : option string) :
  mapAuth0ErrorToCode auth0Error errorDetail <> REFRESH_FAILED.
Proof.
  unfold mapAuth0ErrorToCode.
  repeat match goal with
         | |- context [if ?b then _ else _] => destruct b
         end; discriminate.
Qed.

Lemma fromAuth0Error_not_refresh_failed (body : Auth0ErrorResponse) :
  code (fromAuth0Error body) <> REFRESH_FAILED.
Proof. apply mapAuth0ErrorToCode_not_refresh_failed. Qed.

Lemma fromAuth0Error_message (body : Auth0ErrorResponse) :
  message (fromAuth0Error body) = ERROR_MESSAGES (code (fromAuth0Error body)).
Proof. reflexivity. Qed.

Section RetryFacts.

Context {T : Type}.
Variable answer : Network -> nat -> FetchResult T.
Variable req : Request.

(** Every pass through the [try] block makes exactly one [fetch]. *)
Lemma fetchOnce_world (w : World) :
  snd (fetchOnce answer req w) = log_fetch req w.
Proof.
  unfold fetchOnce, bind, fetch.
  destruct (answer (network w) (List.length (fetchLog w))) as [msg|resp];
    [reflexivity|].
  destruct (response_ok resp).
  - destruct (okBody resp); reflexivity.
  - destruct ((status resp >=? 400) && (status resp <? 500)).
    + destruct (errBody resp); reflexivity.
    + destruct (status resp >=? 500); reflexivity.
Qed.

(** The back-off between two attempts makes no [fetch]. *)
Lemma backoff_frame (attempt : nat) (w : World) :
  fst (backoff attempt w) = Ok tt /\
  fetchLog (snd (backoff attempt w)) = fetchLog w /\
  network (snd (backoff attempt w)) = network w.
Proof. unfold backoff. destruct (attempt <? MAX_RETRIES - 1)%nat; repeat split. Qed.

(** The loop makes at least one and at most [remaining] attempts. *)
Lemma fetchLoop_attempts (remaining attempt : nat) (lastError : option Exn) (w : World) :
  let w' := snd (fetchLoop answer req remaining attempt lastError w) in
  (List.length (fetchLog w') <= List.length (fetchLog w) + remaining)%nat /\
  (List.length (fetchLog w) + Nat.min 1 remaining <= List.length (fetchLog w'))%nat.
Proof.
  revert attempt lastError w.
  induction remaining as [|n IH]; intros attempt lastError w; cbn zeta.
  - simpl. split; lia.
  - cbn [fetchLoop]. unfold try_catch.
    pose proof (fetchOnce_world w) as W.
    assert (L : List.length (fetchLog (log_fetch req w)) = (List.length (fetchLog w) + 1)%nat)
      by (cbn [fetchLog log_fetch]; rewrite length_app; reflexivity).
    destruct (fetchOnce answer req w) as [[v|x] w1]; cbn [snd] in W; subst w1.
    + cbn [snd]. rewrite L. simpl. split; lia.
    + destruct (isRetryableError x); cbn [negb].
      * unfold bind.
        destruct (backoff_frame attempt (log_fetch req w)) as (R & FL & _).
        destruct (backoff attempt (log_fetch req w)) as [r w2].
        cbn [fst snd] in R, FL. subst r.
        specialize (IH (S attempt) (Some x) w2). cbn zeta in IH.
        destruct IH as [IH1 IH2]. rewrite FL, L in IH1, IH2.
        simpl Nat.min. split; lia.
      * cbn [snd throw]. rewrite L. simpl. split; lia.
Qed.

(** A request takes between one and three attempts. *)
Lemma fetchWithRetry_attempts (w : World) :
  let w' := snd (fetchWithRetry answer req w) in
  (List.length (fetchLog w) + 1 <= List.length (fetchLog w')
   <= List.length (fetchLog w) + 3)%nat.
Proof.
  cbn zeta. unfold fetchWithRetry.
  destruct (fetchLoop_attempts MAX_RETRIES 0 None w) as [H1 H2].
  unfold MAX_RETRIES in *. simpl Nat.min in H2. split; assumption.
Qed.

(** A 4xx response whose body maps to a code other than NETWORK_ERROR and
    AUTH0_UNAVAILABLE surfaces after one attempt, without back-off. *)
Lemma client_error_surfaces_at_once (w : World) (resp : FetchResponse T)
    (body : Auth0ErrorResponse) :
  answer (network w) (List.length (fetchLog w)) = Responded resp ->
  400 <= status resp < 500 ->
  errBody resp = Some body ->
  isRetryableError (ExnAuth (fromAuth0Error body)) = false ->
  fetchWithRetry answer req w = (Throw (ExnAuth (fromAuth0Error body)), log_fetch req w).
Proof.
  intros A [S1 S2] B NR.
  unfold fetchWithRetry, MAX_RETRIES, fetchLoop, try_catch, fetchOnce, bind, fetch.
  rewrite A. unfold response_ok.
  replace (status resp <=? 299) with false by (symmetry; apply Z.leb_gt; lia).
  rewrite andb_false_r.
  replace (status resp >=? 400) with true by (symmetry; rewrite Z.geb_leb; apply Z.leb_le; lia).
  replace (status resp <? 500) with true by (symmetry; apply Z.ltb_lt; lia).
  cbn [andb]. rewrite B. cbn [response_json ret throw]. rewrite NR. reflexivity.
Qed.

End RetryFacts.

(** The delay of [getRetryDelay]: the doubled base delay plus a jitter of
    at most 500 ms, never above 5 seconds. *)
Lemma getRetryDelay_bounds (attempt : nat) (w : World) :
  (0 <= random w (randomUsed w))%Q ->
  (random w (randomUsed w) < 1)%Q ->
  exists d,
    getRetryDelay attempt w = (Ok d, use_random w) /\
    (d <= 5000)%Q /\
    (d <= 1000 * pow2 attempt + 500)%Q /\
    (5000 <= 1000 * pow2 attempt \/ 1000 * pow2 attempt <= d)%Q.
Proof.
  intros R0 R1. unfold getRetryDelay, bind, Math_random.
  eexists. split; [reflexivity|].
  unfold Math_min, INITIAL_RETRY_DELAY_MS, MAX_RETRY_DELAY_MS.
  set (r := random w (randomUsed w)) in *. set (b := pow2 attempt).
  destruct (Qle_bool (1000 * b + r * 500) 5000) eqn:E.
  - apply Qle_bool_iff in E. repeat split; [lra | lra | right; lra].
  - assert (~ (1000 * b + r * 500 <= 5000)%Q) as N
      by (intros H; apply Qle_bool_iff in H; congruence).
    repeat split; [lra | lra | ].
    destruct (Qlt_le_dec (1000 * b) 5000) as [L|G]; [right; lra | left; lra].
Qed.

(** ** The storage wrappers *)

Section StorageFacts.

Context {host : Host}.

Lemma getEncryptionKey_run (w : World) :
  getEncryptionKey w = (Ok (key_in w), snd (getEncryptionKey w)).
Proof. unfold getEncryptionKey, key_in. destruct (encryptionKey w); reflexivity. Qed.

Lemma getEncryptionKey_key (w : World) : key_in (snd (getEncryptionKey w)) = key_in w.
Proof. unfold getEncryptionKey, key_in. destruct (encryptionKey w) eqn:E; simpl; now rewrite ?E. Qed.

(** What a run of [getEncryptionKey] leaves untouched. *)
Lemma getEncryptionKey_frame (w : World) :
  let w' := snd (getEncryptionKey w) in
  session w' = session w /\ local w' = local w /\ dateNow w' = dateNow w /\
  network w' = network w /\ fetchLog w' = fetchLog w /\ sleepLog w' = sleepLog w.
Proof. unfold getEncryptionKey. destruct (encryptionKey w); simpl; repeat split. Qed.

Lemma decrypt_run (w : World) (c i : string) :
  decrypt c i w =
  (match decrypted w c i with
   | Some t => Ok t
   | None => Throw (match base64ToBuffer i, base64ToBuffer c with
                    | Some _, Some _ => ExnError "OperationError"
                    | _, _ => ExnError "InvalidCharacterError"
                    end)
   end, snd (getEncryptionKey w)).
Proof.
  unfold decrypt, decrypted, bind. rewrite getEncryptionKey_run.
  destruct (base64ToBuffer i); [|reflexivity].
  destruct (base64ToBuffer c); [|reflexivity].
  destruct (gcm_decrypt (key_in w) l l0); reflexivity.
Qed.

Lemma getRefreshToken_run (w : World) :
  getRefreshToken w = (Ok (readable_token w), heal w).
Proof.
  unfold heal, getRefreshToken, readable_token, bind, all2, getLocalValue. simpl.
  destruct (encryptedRefreshToken (local w)) as [c|]; [|reflexivity].
  destruct (refreshTokenIV (local w)) as [i|]; simpl;
    [|destruct (Js.falsy c); reflexivity].
  destruct (Js.falsy c || Js.falsy i); [reflexivity|].
  unfold try_catch, bind. rewrite decrypt_run.
  destruct (decrypted w c i); reflexivity.
Qed.

Lemma clearRefreshToken_run (w : World) :
  clearRefreshToken w =
  (Ok tt, with_local (put_refreshTokenIV None)
            (with_local (put_encryptedRefreshToken None) w)).
Proof. reflexivity. Qed.

(** The three ways a read of the refresh token can go. *)
Lemma heal_cases (w : World) :
  (readable_token w = None /\ heal w = w) \/
  (exists t, readable_token w = Some t /\ heal w = snd (getEncryptionKey w)) \/
  (readable_token w = None /\
   heal w = with_local (put_refreshTokenIV None)
              (with_local (put_encryptedRefreshToken None) (snd (getEncryptionKey w)))).
Proof.
  unfold heal, getRefreshToken, readable_token, bind, all2, getLocalValue. simpl.
  destruct (encryptedRefreshToken (local w)) as [c|]; [|left; split; reflexivity].
  destruct (refreshTokenIV (local w)) as [i|]; simpl;
    [|left; destruct (Js.falsy c); split; reflexivity].
  destruct (Js.falsy c || Js.falsy i); [left; split; reflexivity|].
  unfold try_catch, bind. rewrite decrypt_run.
  destruct (decrypted w c i) as [t|].
  - right; left. exists t. split; reflexivity.
  - right; right. split; reflexivity.
Qed.

Lemma decrypted_key (w w' : World) (c i : string) :
  key_in w' = key_in w -> decrypted w' c i = decrypted w c i.
Proof. intros H. unfold decrypted. now rewrite H. Qed.

Lemma readable_token_ext (w w' : World) :
  key_in w' = key_in w -> local w' = local w ->
  readable_token w' = readable_token w.
Proof.
  intros K L. unfold readable_token. rewrite L.
  destruct (encryptedRefreshToken (local w)); [|reflexivity].
  destruct (refreshTokenIV (local w)); [|reflexivity].
  now rewrite (decrypted_key _ _ _ _ K).
Qed.

(** A read of the refresh token changes neither the session partition, nor
    the session metadata, nor the clock, nor the network and its logs, nor
    the token a later read finds. *)
Lemma heal_frame (w : World) :
  session (heal w) = session w /\
  sessionMeta (local (heal w)) = sessionMeta (local w) /\
  dateNow (heal w) = dateNow w /\
  network (heal w) = network w /\
  fetchLog (heal w) = fetchLog w /\
  sleepLog (heal w) = sleepLog w /\
  key_in (heal w) = key_in w /\
  readable_token (heal w) = readable_token w.
Proof.
  pose proof (getEncryptionKey_frame w) as (F1 & F2 & F3 & F4 & F5 & F6).
  pose proof (getEncryptionKey_key w) as K.
  destruct (heal_cases w) as [[R E] | [(t & R & E) | [R E]]]; rewrite E.
  - repeat split.
  - repeat split; try assumption.
    + now rewrite F2.
    + now apply readable_token_ext.
  - simpl. repeat split; try assumption.
    + now rewrite F2.
    + now rewrite R.
Qed.

Lemma setRefreshToken_run (token : string) (w : World) :
  setRefreshToken token w =
  (Ok tt,
   with_local (put_refreshTokenIV (Some (bufferToBase64 (next_iv w))))
     (with_local
        (put_encryptedRefreshToken
           (Some (bufferToBase64
                    (gcm_encrypt (key_in w) (next_iv w) (list_byte_of_string token)))))
        (use_entropy IV_LENGTH (snd (getEncryptionKey w))))).
Proof.
  unfold setRefreshToken, encrypt, bind. rewrite getEncryptionKey_run.
  pose proof (getEncryptionKey_frame w) as F.
  unfold getEncryptionKey, next_iv in *.
  destruct (encryptionKey w); reflexivity.
Qed.

Lemma next_iv_not_nil (w : World) : next_iv w <> [].
Proof. unfold next_iv, IV_LENGTH. simpl. discriminate. Qed.

Lemma written_token_readable (token : string) (w : World) :
  cipher_correct ->
  readable_token (snd (setRefreshToken token w)) = Some token.
Proof.
  intros [Hdec Hne]. rewrite setRefreshToken_run. unfold readable_token.
  cbn [snd local with_local put_refreshTokenIV put_encryptedRefreshToken
       encryptedRefreshToken refreshTokenIV].
  unfold bufferToBase64.
  rewrite (Base64Facts.btoa_truthy _ (Hne _ _ _)).
  rewrite (Base64Facts.btoa_truthy _ (next_iv_not_nil w)). cbn [orb].
  unfold decrypted, base64ToBuffer. rewrite !Base64Facts.atob_btoa.
  replace (key_in _) with (key_in w).
  - rewrite Hdec. simpl. now rewrite string_of_list_byte_of_string.
  - symmetry. etransitivity; [|apply (getEncryptionKey_key w)]. reflexivity.
Qed.

End StorageFacts.

(** ** The sample cipher *)

Lemma sample_tag_length (key iv : list byte) : List.length (Sample.tag key iv) = 16%nat.
Proof.
  unfold Sample.tag. rewrite length_firstn, !length_app, repeat_length. lia.
Qed.

Lemma sample_cipher_correct : @cipher_correct Sample.host.
Proof.
  split; intros key iv plain; simpl; unfold Sample.unseal, Sample.seal.
  - pose proof (sample_tag_length key iv) as L.
    rewrite length_app, length_rev, L.
    replace (List.length plain + 16 - 16)%nat with (List.length plain) by lia.
    replace (16 <=? List.length plain + 16)%nat with true
      by (symmetry; apply Nat.leb_le; lia).
    rewrite skipn_app, length_rev, Nat.sub_diag.
    rewrite skipn_all2 by (rewrite length_rev; lia). simpl skipn. simpl app.
    unfold Sample.byte_list_eqb. rewrite String.eqb_refl. simpl andb.
    rewrite firstn_app, length_rev, Nat.sub_diag. simpl firstn at 2.
    rewrite app_nil_r, firstn_all2 by (rewrite length_rev; lia).
    now rewrite rev_involutive.
  - intros E. apply (f_equal (@List.length byte)) in E.
    rewrite length_app, sample_tag_length in E. simpl in E. lia.
Qed.

(** ** The encrypted refresh token (claim C5) *)




(** ** The derived view (claim C10) *)

Section ViewFacts.

Context {host : Host}.

Lemma getCompleteAuthState_run (w : World) :
  getCompleteAuthState w = (Ok (complete_auth w), heal w).
Proof.
  unfold getCompleteAuthState, complete_auth, bind, all2, getAuthState, getSessionValue.
  rewrite getRefreshToken_run.
  destruct (auth (session w)); destruct (readable_token w) as [rt|];
    try reflexivity.
  destruct (Js.falsy rt); reflexivity.
Qed.

Lemma getCurrentState_run (w : World) :
  getCurrentState w = (Ok (view w), heal w).
Proof.
  unfold getCurrentState, view, bind, all2, getFlowState, getOTPRequest,
    getUserProfile, getSessionMeta, getSessionValue, getLocalValue, Date_now.
  rewrite getCompleteAuthState_run.
  destruct (heal_frame w) as (S & Me & D & _).
  rewrite S, Me, D. reflexivity.
Qed.

Lemma handleGetAuthState_run (w : World) :
  handleGetAuthState w =
  (Ok (Success {| rd_isAuthenticated := isAuthenticated (view w);
                  rd_email := sm_email (view w);
                  rd_expiresAt := sm_expiresAt (view w);
                  rd_sessionAge := sessionAge (view w);
                  rd_flowState := Some (sm_flowState (view w));
                  rd_otpRequest := sm_otpRequest (view w) |}), heal w).
Proof.
  unfold handleGetAuthState, try_catch, bind. rewrite getCurrentState_run. reflexivity.
Qed.

Lemma complete_auth_present (w : World) :
  match complete_auth w with Some _ => true | None => false end
  = has_session_auth w && has_refresh_token w.
Proof.
  unfold complete_auth, has_session_auth, has_refresh_token.
  destruct (auth (session w)); destruct (readable_token w) as [rt|]; simpl;
    try reflexivity.
  destruct (Js.falsy rt); reflexivity.
Qed.

(** C10.  [getCurrentState] always returns, and so does the GetAuthState
    handler, which reports the same flag; the view is authenticated exactly
    when the stored flow state is AUTHENTICATED and both halves of the
    session are present: the [auth] record of the session partition and a
    refresh token that decrypts to a non-empty string.  In particular a
    stale AUTHENTICATED flag with a half missing gives an unauthenticated
    view. *)
Theorem authenticated_view_needs_flag_and_both_halves (w : World) :
  exists st d w',
    getCurrentState w = (Ok st, w') /\
    handleGetAuthState w = (Ok (Success d), w') /\
    rd_isAuthenticated d = isAuthenticated st /\
    (isAuthenticated st = true <->
     flowState (session w) = Some AUTHENTICATED /\
     has_session_auth w = true /\
     has_refresh_token w = true).
Proof.
  eexists _, _, _. split; [apply getCurrentState_run|].
  split; [apply handleGetAuthState_run|]. split; [reflexivity|].
  unfold view. cbn [isAuthenticated]. rewrite complete_auth_present.
  destruct (flowState (session w)) as [[]|]; simpl;
    destruct (has_session_auth w); destruct (has_refresh_token w); simpl;
    intuition congruence.
Qed.

End ViewFacts.

(** ** Start-up reconciliation (claim C9) *)

Section StartupFacts.

Context {host : Host}.

Lemma facts_heal (w : World) : facts (heal w) = facts w.
Proof.
  destruct (heal_frame w) as (S & Me & _ & _ & _ & _ & _ & R).
  unfold facts, has_session_auth, has_refresh_token. now rewrite S, Me, R.
Qed.

Lemma facts_at_time (t : Z) (w : World) : facts (at_time t w) = facts w.
Proof. reflexivity. Qed.

Lemma facts_put_flowState (v : option AuthFlowState) (w : World) :
  facts (with_session (put_flowState v) w) = facts w.
Proof. reflexivity. Qed.

Lemma facts_clear_otp (w : World) :
  facts (with_session (put_otpRequest None) w) =
  {| fact_auth := fact_auth (facts w); fact_token := fact_token (facts w);
     fact_meta := fact_meta (facts w); fact_otp := None |}.
Proof. reflexivity. Qed.

Lemma clearAllAuthState_run (w : World) :
  clearAllAuthState w = (Ok tt, snd (clearAllAuthState w)).
Proof. reflexivity. Qed.

Lemma facts_cleared (w : World) :
  facts (snd (clearAllAuthState w)) =
  {| fact_auth := false; fact_token := false; fact_meta := None; fact_otp := None |}.
Proof. reflexivity. Qed.

Lemma flowState_cleared (w : World) :
  flowState (session (snd (clearAllAuthState w))) = Some LOGGED_OUT.
Proof. reflexivity. Qed.

Lemma session_expired_facts (t : Z) (w : World) :
  session_expired_at t w = meta_expired t (facts w).
Proof. reflexivity. Qed.

Lemma otp_fresh_facts (t : Z) (w : World) :
  otp_fresh_at t w = otp_fresh t (facts w).
Proof. reflexivity. Qed.

(** [initializeStateMachine] always returns; the flow state it returns and
    the stored facts it leaves are those of [flow_of] and [facts_after]. *)
Lemma initializeStateMachine_spec (w : World) :
  exists st w',
    initializeStateMachine w = (Ok st, w') /\
    sm_flowState st = flow_of (dateNow w) (facts w) /\
    flowState (session w') = Some (flow_of (dateNow w) (facts w)) /\
    facts w' = facts_after (dateNow w) (facts w) /\
    dateNow w' = dateNow w.
Proof.
  unfold initializeStateMachine, bind, all2.
  rewrite getCompleteAuthState_run, getRefreshToken_run.
  set (w2 := heal (heal w)).
  assert (F2 : facts w2 = facts w) by (unfold w2; now rewrite !facts_heal).
  assert (D2 : dateNow w2 = dateNow w).
  { unfold w2. destruct (heal_frame (heal w)) as (_ & _ & D & _).
    destruct (heal_frame w) as (_ & _ & D' & _). congruence. }
  assert (R1 : negb (Js.falsy_opt (readable_token (heal w))) = fact_token (facts w)).
  { destruct (heal_frame w) as (_ & _ & _ & _ & _ & _ & _ & R). now rewrite R. }
  assert (X : isSessionExpired w2 = (Ok (meta_expired (dateNow w) (facts w)), w2)).
  { unfold isSessionExpired, bind, getSessionMeta, getLocalValue, Date_now.
    rewrite <- F2, <- D2. unfold meta_expired, facts. cbn [fact_meta].
    destruct (sessionMeta (local w2)); reflexivity. }
  rewrite X. cbn iota. rewrite R1.
  pose proof (complete_auth_present w) as C.
  change (has_session_auth w) with (fact_auth (facts w)) in C.
  change (has_refresh_token w) with (fact_token (facts w)) in C.
  rewrite C. unfold flow_of, facts_after.
  set (f := facts w) in *. set (t := dateNow w) in *.
  destruct (fact_auth f && fact_token f && fact_token f && negb (meta_expired t f)) eqn:A.
  - (* a valid session *)
    unfold setFlowState, setSessionValue. rewrite getCurrentState_run.
    eexists _, _. split; [reflexivity|].
    destruct (heal_frame (with_session (put_flowState (Some AUTHENTICATED)) w2))
      as (S & _ & D & _).
    split; [reflexivity|]. split; [rewrite S; reflexivity|].
    split; [|rewrite D; exact D2].
    rewrite facts_heal, facts_put_flowState. exact F2.
  - destruct (meta_expired t f || negb (fact_auth f && fact_token f) && fact_token f) eqn:B.
    + (* expired or incomplete *)
      rewrite clearAllAuthState_run, getCurrentState_run.
      eexists _, _. split; [reflexivity|].
      destruct (heal_frame (snd (clearAllAuthState w2))) as (S & _ & D & _).
      split; [reflexivity|]. split; [rewrite S; reflexivity|].
      split; [|rewrite D; exact D2].
      rewrite facts_heal. apply facts_cleared.
    + (* a pending request, or nothing *)
      unfold getOTPRequest, getSessionValue, Date_now.
      assert (O2 : otpRequest (session w2) = fact_otp f)
        by (rewrite <- F2; reflexivity).
      rewrite O2.
      unfold otp_fresh. destruct (fact_otp f) as [r|] eqn:O.
      * rewrite D2.
        destruct (t - requestedAt r <? 5 * 60 * 1000) eqn:Fr.
        -- unfold setFlowState, setSessionValue. rewrite getCurrentState_run.
           eexists _, _. split; [reflexivity|].
           destruct (heal_frame (with_session (put_flowState (Some PENDING_OTP)) w2))
             as (S & _ & D & _).
           split; [reflexivity|]. split; [rewrite S; reflexivity|].
           split; [|rewrite D; exact D2].
           rewrite facts_heal, facts_put_flowState. exact F2.
        -- unfold clearOTPRequest, removeSessionValue, setFlowState, setSessionValue.
           rewrite getCurrentState_run.
           eexists _, _. split; [reflexivity|].
           match goal with |- context [heal ?x] =>
             destruct (heal_frame x) as (S & _ & D & _) end.
           split; [reflexivity|]. split; [rewrite S; reflexivity|].
           split; [|rewrite D; exact D2].
           rewrite facts_heal, facts_put_flowState, facts_clear_otp, F2. reflexivity.
      * unfold setFlowState, setSessionValue. rewrite getCurrentState_run.
        eexists _, _. split; [reflexivity|].
        destruct (heal_frame (with_session (put_flowState (Some LOGGED_OUT)) w2))
          as (S & _ & D & _).
        split; [reflexivity|]. split; [rewrite S; reflexivity|].
        split; [|rewrite D; exact D2].
        rewrite facts_heal, facts_put_flowState, F2.
        unfold f in O |- *. destruct (facts w); simpl in *; now subst.
Qed.

(** Deciding again on the facts a reconciliation leaves gives the same
    flow state, as long as no deadline passed in between. *)
Lemma flow_of_facts_after (t1 t2 : Z) (f : Facts) :
  meta_expired t2 f = meta_expired t1 f ->
  otp_fresh t2 f = otp_fresh t1 f ->
  flow_of t2 (facts_after t1 f) = flow_of t1 f.
Proof.
  intros Hm Ho. unfold flow_of, facts_after.
  destruct (fact_auth f) eqn:A; destruct (fact_token f) eqn:T;
    destruct (meta_expired t1 f) eqn:M; destruct (otp_fresh t1 f) eqn:O;
    cbn [andb orb negb fact_auth fact_token];
    rewrite ?A, ?T, ?Hm, ?Ho; cbn [andb orb negb];
    try reflexivity;
    unfold meta_expired, otp_fresh in *; cbn [fact_meta fact_otp];
    rewrite ?Hm; reflexivity.
Qed.

(** C9.  Running the start-up reconciliation at time [t1] and again at time
    [t2] on the storage the first run left returns the same flow state,
    provided no deadline lies between the two runs: the 7-day check and the
    5-minute check of the pending request give at [t2] what they gave at
    [t1].  Both runs return. *)
Theorem startup_reconciliation_idempotent (w : World) (t1 t2 : Z) :
  session_expired_at t2 w = session_expired_at t1 w ->
  otp_fresh_at t2 w = otp_fresh_at t1 w ->
  exists st1 w1 st2 w2,
    initializeStateMachine (at_time t1 w) = (Ok st1, w1) /\
    initializeStateMachine (at_time t2 w1) = (Ok st2, w2) /\
    sm_flowState st2 = sm_flowState st1.
Proof.
  intros Hm Ho.
  destruct (initializeStateMachine_spec (at_time t1 w))
    as (st1 & w1 & R1 & F1 & _ & A1 & _).
  destruct (initializeStateMachine_spec (at_time t2 w1))
    as (st2 & w2 & R2 & F2 & _).
  exists st1, w1, st2, w2. split; [exact R1|]. split; [exact R2|].
  rewrite F1, F2. cbn [dateNow at_time].
  rewrite facts_at_time, A1. cbn [dateNow at_time]. rewrite facts_at_time.
  apply flow_of_facts_after.
  - now rewrite <- !session_expired_facts.
  - now rewrite <- !otp_fresh_facts.
Qed.

(** Without session metadata the 7-day check counts as failed: the
    reconciliation answers LOGGED_OUT and erases a pending request, however
    young. *)
Lemma startup_without_metadata (w : World) :
  sessionMeta (local w) = None ->
  exists st w',
    initializeStateMachine w = (Ok st, w') /\
    sm_flowState st = LOGGED_OUT /\
    otpRequest (session w') = None.
Proof.
  intros Me.
  destruct (initializeStateMachine_spec w) as (st & w' & R & F & _ & A & _).
  exists st, w'. split; [exact R|].
  assert (X : meta_expired (dateNow w) (facts w) = true)
    by (unfold meta_expired, facts; cbn [fact_meta]; now rewrite Me).
  unfold flow_of in F. unfold facts_after in A. rewrite X in F, A.
  rewrite andb_false_r in F, A. cbn [negb orb] in F, A.
  split; [exact F|].
  change (otpRequest (session w')) with (fact_otp (facts w')). now rewrite A.
Qed.

(** With both halves present and the session younger than seven days the
    reconciliation answers AUTHENTICATED. *)
Lemma startup_with_valid_session (w : World) :
  has_session_auth w = true ->
  has_refresh_token w = true ->
  session_expired_at (dateNow w) w = false ->
  exists st w',
    initializeStateMachine w = (Ok st, w') /\ sm_flowState st = AUTHENTICATED.
Proof.
  intros Ha Ht Hx.
  destruct (initializeStateMachine_spec w) as (st & w' & R & F & _).
  exists st, w'. split; [exact R|].
  rewrite F. unfold flow_of. rewrite <- session_expired_facts, Hx.
  unfold facts. cbn [fact_auth fact_token]. now rewrite Ha, Ht.
Qed.

End StartupFacts.

Lemma startup_reconciliation_idempotent_witness :
  let w := Sample.loggedIn Sample.friendly in
  (@session_expired_at 2000 w = @session_expired_at 1000 w) /\
  (otp_fresh_at 2000 w = otp_fresh_at 1000 w) /\
  exists st1 w1 st2 w2,
    @initializeStateMachine Sample.host (at_time 1000 w) = (Ok st1, w1) /\
    @initializeStateMachine Sample.host (at_time 2000 w1) = (Ok st2, w2) /\
    sm_flowState st2 = sm_flowState st1.
Proof.
  split; [reflexivity|]. split; [reflexivity|].
  exact (@startup_reconciliation_idempotent Sample.host
           (Sample.loggedIn Sample.friendly) 1000 2000 eq_refl eq_refl).
Defined.

(** ** Rate limiting (claim C1) *)

Section RateLimitFacts.

Context {host : Host}.

Lemma isRateLimited_run (e : string) (w : World) :
  isRateLimited e w = (Ok (rate_limit e (dateNow w) (otpRequest (session w))), w).
Proof.
  unfold isRateLimited, rate_limit, bind, getOTPRequest, getSessionValue, Date_now.
  destruct (otpRequest (session w)) as [r|]; [|reflexivity].
  destruct (negb (otp_email r =? e)%string); [reflexivity|].
  destruct (dateNow w - windowStart r >? RATE_LIMIT_WINDOW_MS); reflexivity.
Qed.

(** A request the provider accepts takes one [fetch] and no retry. *)
Lemma fetchWithRetry_accepted {T} (answer : Network -> nat -> FetchResult T)
    (req : Request) (w : World) :
  accepted (answer (network w) (List.length (fetchLog w))) = true ->
  exists v, fetchWithRetry answer req w = (Ok v, log_fetch req w).
Proof.
  intros A. unfold fetchWithRetry, MAX_RETRIES, fetchLoop, try_catch, fetchOnce, bind, fetch.
  destruct (answer (network w) (List.length (fetchLog w))) as [msg|resp];
    [discriminate|].
  simpl in A. apply andb_prop in A. destruct A as [A1 A2]. rewrite A1.
  destruct (okBody resp) as [v|]; [|discriminate].
  exists v. reflexivity.
Qed.

Lemma transitionToOTPPending_run (e : string) (w : World) :
  transitionToOTPPending e None w =
  let w1 := with_session (put_flowState (Some PENDING_OTP))
              (with_session
                 (put_otpRequest
                    (Some (next_request e (dateNow w) (otpRequest (session w))))) w) in
  (Ok (view w1), heal w1).
Proof.
  unfold transitionToOTPPending, bind, getOTPRequest, getSessionValue, Date_now.
  cbn [all_ all2 bind ret setOTPRequest setFlowState setSessionValue fst snd].
  rewrite getCurrentState_run. reflexivity.
Qed.

(** A request that is not rate limited and that the provider accepts:
    one [fetch], a success, and the pending request is replaced. *)
Lemma otp_request_served (e : string) (k : OtpKind) (t : Z) (w : World) :
  validateEmail e = true ->
  limited (rate_limit e t (otpRequest (session w))) = false ->
  accepted (onStart (network w) (List.length (fetchLog w))) = true ->
  exists w',
    serve e k t w = (Some {| served_code := None; served_fetches := 1 |}, w') /\
    otpRequest (session w') = Some (next_request e t (otpRequest (session w))) /\
    fetchLog w' = (fetchLog w ++ [PasswordlessStart e])%list /\
    network w' = network w.
Proof.
  intros V L A.
  destruct (fetchWithRetry_accepted onStart (PasswordlessStart e) (at_time t w) A)
    as (v & F).
  set (w0 := log_fetch (PasswordlessStart e) (at_time t w)) in *.
  set (w1 := with_session (put_flowState (Some PENDING_OTP))
               (with_session
                  (put_otpRequest
                     (Some (next_request e (dateNow w0) (otpRequest (session w0))))) w0)).
  destruct (heal_frame w1) as (S & _ & D & N & FL & _).
  exists (heal w1).
  assert (Len : (List.length (fetchLog (heal w1)) - List.length (fetchLog w) = 1)%nat).
  { rewrite FL. unfold w1, w0. cbn [fetchLog with_session log_fetch at_time].
    rewrite length_app. simpl. lia. }
  split; [|split; [rewrite S; reflexivity | split; [rewrite FL; reflexivity | rewrite N; reflexivity]]].
  unfold serve, processMessage, otp_message.
  destruct k; unfold answer_with, bind.
  - unfold handleInitiateOTP, try_catch, bind. rewrite V. cbn [negb].
    rewrite isRateLimited_run. cbn [dateNow session at_time]. rewrite L.
    unfold initiatePasswordlessOTP. rewrite F. fold w0.
    rewrite transitionToOTPPending_run. fold w1.
    unfold Date_now, ret, successResponse, map_response, response_code.
    cbn [fst snd]. rewrite Len. reflexivity.
  - unfold handleResendOTP, try_catch, bind. rewrite V. cbn [negb].
    rewrite isRateLimited_run. cbn [dateNow session at_time]. rewrite L.
    unfold initiatePasswordlessOTP. rewrite F. fold w0.
    rewrite transitionToOTPPending_run. fold w1.
    unfold Date_now. rewrite isRateLimited_run.
    unfold ret, successResponse, map_response, response_code.
    cbn [fst snd]. rewrite Len. reflexivity.
Qed.

(** A rate-limited request: the RATE_LIMITED answer, no [fetch], and
    nothing stored. *)
Lemma otp_request_limited (e : string) (k : OtpKind) (t : Z) (w : World) :
  validateEmail e = true ->
  limited (rate_limit e t (otpRequest (session w))) = true ->
  serve e k t w =
  (Some {| served_code := Some RATE_LIMITED; served_fetches := 0 |}, at_time t w).
Proof.
  intros V L. unfold serve, processMessage, otp_message.
  destruct k; unfold answer_with, bind.
  - unfold handleInitiateOTP, try_catch, bind. rewrite V. cbn [negb].
    rewrite isRateLimited_run. cbn [dateNow session at_time]. rewrite L.
    unfold rateLimitedResponse, bind, Date_now, ret, errorResponse, map_response,
      response_code.
    cbn [fetchLog at_time]. rewrite Nat.sub_diag. reflexivity.
  - unfold handleResendOTP, try_catch, bind. rewrite V. cbn [negb].
    rewrite isRateLimited_run. cbn [dateNow session at_time]. rewrite L.
    unfold rateLimitedResponse, bind, Date_now, ret, errorResponse, map_response,
      response_code.
    cbn [fetchLog at_time]. rewrite Nat.sub_diag. reflexivity.
Qed.

Lemma serve_all_app (e : string) (a b : list (OtpKind * Z)) (w : World) :
  serve_all e (a ++ b) w =
  let (ra, wa) := serve_all e a w in
  let (rb, wb) := serve_all e b wa in
  ((ra ++ rb)%list, wb).
Proof.
  revert w. induction a as [|[k t] a IH]; intros w; simpl.
  - destruct (serve_all e b w); reflexivity.
  - destruct (serve e k t w) as [r w1]. rewrite IH.
    destruct (serve_all e a w1) as [ra wa].
    destruct (serve_all e b wa) as [rb wb]. reflexivity.
Qed.

(** While the count of the pending request stays within the limit, every
    request the provider accepts is served with exactly one [fetch], and
    the count goes up by one; the start of the window does not move. *)
Lemma serve_counted (e : string) (reqs : list (OtpKind * Z)) :
  validateEmail e = true ->
  forall (w : World) (r0 : OTPRequest),
    otpRequest (session w) = Some r0 ->
    otp_email r0 = e ->
    attemptCount r0 + Z.of_nat (List.length reqs) <= MAX_OTP_REQUESTS ->
    (forall i, (i < List.length reqs)%nat ->
               accepted (onStart (network w) (List.length (fetchLog w) + i)) = true) ->
    exists w' r',
      serve_all e reqs w =
        (repeat (Some {| served_code := None; served_fetches := 1 |}) (List.length reqs), w') /\
      otpRequest (session w') = Some r' /\
      otp_email r' = e /\
      attemptCount r' = attemptCount r0 + Z.of_nat (List.length reqs) /\
      windowStart r' = windowStart r0 /\
      fetchLog w' = (fetchLog w ++ repeat (PasswordlessStart e) (List.length reqs))%list /\
      network w' = network w.
Proof.
  intros V. induction reqs as [|[k t] rest IH]; intros w r0 O E C A.
  - exists w, r0. simpl. rewrite app_nil_r, Z.add_0_r. repeat split; assumption.
  - cbn [List.length] in C, A.
    assert (L : limited (rate_limit e t (otpRequest (session w))) = false).
    { rewrite O. unfold rate_limit. rewrite E, String.eqb_refl. cbn [negb].
      destruct (t - windowStart r0 >? RATE_LIMIT_WINDOW_MS); [reflexivity|].
      cbn [limited]. apply Z.leb_gt. unfold MAX_OTP_REQUESTS in *. lia. }
    assert (A0 : accepted (onStart (network w) (List.length (fetchLog w))) = true).
    { specialize (A 0%nat). rewrite Nat.add_0_r in A. apply A. lia. }
    destruct (otp_request_served e k t w V L A0) as (w1 & S1 & O1 & F1 & N1).
    rewrite O in O1.
    set (r1 := next_request e t (Some r0)) in *.
    assert (E1 : otp_email r1 = e) by reflexivity.
    assert (C1 : attemptCount r1 = attemptCount r0 + 1).
    { unfold r1, next_request. cbn [attemptCount]. now rewrite E, String.eqb_refl. }
    assert (W1 : windowStart r1 = windowStart r0).
    { unfold r1, next_request. cbn [windowStart]. now rewrite E, String.eqb_refl. }
    destruct (IH w1 r1 O1 E1) as (w' & r' & S' & O' & E' & C' & W' & F' & N').
    + rewrite C1. lia.
    + intros i Hi. rewrite N1, F1, length_app. simpl.
      replace (List.length (fetchLog w) + 1 + i)%nat
        with (List.length (fetchLog w) + S i)%nat by lia.
      apply A. lia.
    + exists w', r'. cbn [serve_all List.length repeat]. rewrite S1, S'.
      split; [reflexivity|]. split; [exact O'|]. split; [exact E'|].
      split; [rewrite C', C1; lia|]. split; [congruence|].
      split; [|congruence].
      rewrite F', F1, <- app_assoc. reflexivity.
Qed.


(** What [transitionToOTPPending] does when the window of the pending
    request for the same email has elapsed: the count goes on and the
    window keeps its start. *)
Lemma elapsed_window_keeps_counting (e : string) (k : OtpKind) (t : Z) (w : World)
    (r : OTPRequest) :
  validateEmail e = true ->
  otpRequest (session w) = Some r ->
  otp_email r = e ->
  t - windowStart r > RATE_LIMIT_WINDOW_MS ->
  accepted (onStart (network w) (List.length (fetchLog w))) = true ->
  exists w' r',
    serve e k t w = (Some {| served_code := None; served_fetches := 1 |}, w') /\
    otpRequest (session w') = Some r' /\
    attemptCount r' = attemptCount r + 1 /\
    windowStart r' = windowStart r.
Proof.
  intros V O E W A.
  assert (L : limited (rate_limit e t (otpRequest (session w))) = false).
  { rewrite O. unfold rate_limit. rewrite E, String.eqb_refl. cbn [negb].
    replace (t - windowStart r >? RATE_LIMIT_WINDOW_MS) with true
      by (symmetry; rewrite Z.gtb_ltb; apply Z.ltb_lt; lia).
    reflexivity. }
  destruct (otp_request_served e k t w V L A) as (w' & S & O' & _).
  exists w', (next_request e t (otpRequest (session w))).
  split; [exact S|]. split; [exact O'|].
  rewrite O. unfold next_request. cbn [attemptCount windowStart].
  rewrite E, String.eqb_refl. split; reflexivity.
Qed.

(** A request for an email without a pending request opens a window:
    the count is 1 and the window starts now. *)
Lemma other_email_opens_window (e : string) (k : OtpKind) (t : Z) (w : World) :
  validateEmail e = true ->
  same_email (otpRequest (session w)) e = false ->
  accepted (onStart (network w) (List.length (fetchLog w))) = true ->
  exists w' r',
    serve e k t w = (Some {| served_code := None; served_fetches := 1 |}, w') /\
    otpRequest (session w') = Some r' /\
    attemptCount r' = 1 /\
    windowStart r' = t.
Proof.
  intros V N A.
  assert (L : limited (rate_limit e t (otpRequest (session w))) = false).
  { unfold rate_limit, same_email in *.
    destruct (otpRequest (session w)) as [r|]; [|reflexivity].
    now rewrite N. }
  destruct (otp_request_served e k t w V L A) as (w' & S & O' & _).
  exists w', (next_request e t (otpRequest (session w))).
  split; [exact S|]. split; [exact O'|].
  unfold next_request, same_email in *. cbn [attemptCount windowStart].
  destruct (otpRequest (session w)) as [r|]; [|split; reflexivity].
  rewrite N. split; reflexivity.
Qed.

End RateLimitFacts.



(** ** Token refresh (claims C2 and C3) *)

Section RefreshFacts.

Context {host : Host}.

Lemma isSessionExpired_run (w : World) :
  isSessionExpired w = (Ok (session_expired_at (dateNow w) w), w).
Proof.
  unfold isSessionExpired, session_expired_at, bind, getSessionMeta, getLocalValue, Date_now.
  destruct (sessionMeta (local w)); reflexivity.
Qed.

Lemma fetchWithRetry_ok {T} (answer : Network -> nat -> FetchResult T)
    (req : Request) (w : World) (resp : FetchResponse T) (v : T) :
  answer (network w) (List.length (fetchLog w)) = Responded resp ->
  response_ok resp = true ->
  okBody resp = Some v ->
  fetchWithRetry answer req w = (Ok v, log_fetch req w).
Proof.
  intros A R B.
  unfold fetchWithRetry, MAX_RETRIES, fetchLoop, try_catch, fetchOnce, bind, fetch.
  rewrite A, R, B. reflexivity.
Qed.

Lemma transitionToAuthenticated_run (a : AuthState) (w : World) :
  transitionToAuthenticated a w = (Ok (view (stored a w)), heal (stored a w)).
Proof.
  unfold transitionToAuthenticated, storeAuthState, bind.
  cbn [all_]. unfold bind, all2.
  cbn [setAuthState clearOTPRequest setFlowState setSessionValue removeSessionValue
       ret fst snd].
  rewrite setRefreshToken_run.
  cbn [setSessionMeta bind Date_now setLocalValue fst snd].
  unfold setSessionMeta, bind, Date_now, setLocalValue.
  cbn [dateNow with_local with_session use_entropy fst snd].
  unfold ret. cbv beta iota.
  rewrite getCurrentState_run. unfold stored. rewrite setRefreshToken_run.
  pose proof (getEncryptionKey_frame (with_session (put_auth (Some (omit_refreshToken a))) w))
    as (_ & _ & D & _).
  cbn [snd dateNow with_local with_session use_entropy] in *. rewrite D.
  reflexivity.
Qed.

Lemma stored_halves (a : AuthState) (w : World) :
  auth (session (stored a w)) = Some (omit_refreshToken a) /\
  sessionMeta (local (stored a w))
  = Some {| createdAt := dateNow w; meta_email := email a |}.
Proof.
  unfold stored. rewrite setRefreshToken_run.
  pose proof (getEncryptionKey_frame (with_session (put_auth (Some (omit_refreshToken a))) w))
    as (S & _).
  cbn [snd session local with_local with_session use_entropy put_flowState
       put_otpRequest put_sessionMeta auth sessionMeta] in *.
  rewrite S. split; reflexivity.
Qed.

(** A successful refresh keeps [sessionCreatedAt] in the session partition
    and stamps the durable [sessionMeta.createdAt] with the current time. *)
Lemma refresh_success (w : World) (a : SessionAuth) (rt : string)
    (resp : FetchResponse TokenResponse) (tr : TokenResponse) :
  session_expired_at (dateNow w) w = false ->
  readable_token w = Some rt ->
  Js.falsy rt = false ->
  auth (session w) = Some a ->
  onToken (network w) (List.length (fetchLog w)) = Responded resp ->
  response_ok resp = true ->
  okBody resp = Some tr ->
  exists w',
    handleRefreshToken w = (Ok (Success (dateNow w + expires_in tr * 1000)), w') /\
    option_map sa_sessionCreatedAt (auth (session w')) = Some (sa_sessionCreatedAt a) /\
    option_map createdAt (sessionMeta (local w')) = Some (dateNow w).
Proof.
  intros X R F A N K B.
  destruct (heal_frame w) as (S & _ & D & Nw & FL & _).
  unfold handleRefreshToken, try_catch, bind.
  rewrite isSessionExpired_run, X, getRefreshToken_run, R.
  cbn [Js.falsy_opt]. rewrite F.
  unfold getAuthState, getSessionValue. rewrite S, A.
  unfold refreshTokens.
  rewrite (fetchWithRetry_ok onToken (TokenRefresh rt) (heal w) resp tr)
    by (rewrite ?Nw, ?FL; assumption).
  unfold Date_now. rewrite transitionToAuthenticated_run.
  unfold ret, successResponse. cbv beta iota.
  match goal with |- context [heal (stored ?x ?y)] =>
    destruct (heal_frame (stored x y)) as (S' & Me' & _);
    set (w' := heal (stored x y)) in *
  end.
  exists w'. split.
  - cbn [dateNow log_fetch]. now rewrite D.
  - rewrite S', Me'.
    match goal with |- context [stored ?x ?y] =>
      destruct (stored_halves x y) as (Ha & Hm) end.
    rewrite Ha, Hm. cbn [dateNow log_fetch option_map createdAt
                         sa_sessionCreatedAt omit_refreshToken sessionCreatedAt].
    rewrite D. split; reflexivity.
Qed.

(** A refresh that the provider answers with a 4xx and an error body that
    is not retried is answered with the code the body is mapped to, which
    is never REFRESH_FAILED; unless that code is VALIDATION_ERROR, nothing
    is erased: the session and the stored refresh token stay. *)
Lemma refresh_client_error (w : World) (a : SessionAuth) (rt : string)
    (resp : FetchResponse TokenResponse) (body : Auth0ErrorResponse) :
  session_expired_at (dateNow w) w = false ->
  readable_token w = Some rt ->
  Js.falsy rt = false ->
  auth (session w) = Some a ->
  onToken (network w) (List.length (fetchLog w)) = Responded resp ->
  400 <= status resp < 500 ->
  errBody resp = Some body ->
  isRetryableError (ExnAuth (fromAuth0Error body)) = false ->
  exists w',
    handleRefreshToken w
    = (Ok (Failure (code (fromAuth0Error body))
             (ERROR_MESSAGES (code (fromAuth0Error body)))), w') /\
    code (fromAuth0Error body) <> REFRESH_FAILED /\
    (code (fromAuth0Error body) <> VALIDATION_ERROR ->
     session w' = session w /\
     readable_token w' = Some rt /\
     sessionMeta (local w') = sessionMeta (local w)).
Proof.
  intros X R F A N St B NR.
  destruct (heal_frame w) as (S & Me & D & Nw & FL & _ & _ & R').
  unfold handleRefreshToken, try_catch, bind.
  rewrite isSessionExpired_run, X, getRefreshToken_run, R.
  cbn [Js.falsy_opt]. rewrite F.
  unfold getAuthState, getSessionValue. rewrite S, A.
  unfold refreshTokens.
  rewrite (client_error_surfaces_at_once onToken (TokenRefresh rt) (heal w) resp body)
    by (rewrite ?Nw, ?FL; assumption).
  cbn [fromUnknown]. rewrite (fromAuth0Error_message body).
  pose proof (fromAuth0Error_not_refresh_failed body) as NF.
  destruct (code (fromAuth0Error body)) eqn:C; try congruence;
    cbn [AuthErrorCode_eqb orb];
    try (eexists; split; [reflexivity|]; split; [discriminate|]; intros _;
         cbn [session local log_fetch]; rewrite S, Me; split; [reflexivity|];
         split; [|reflexivity];
         rewrite <- R, <- R'; apply readable_token_ext; reflexivity).
  cbv beta iota. unfold transitionToLoggedOut, bind.
  rewrite clearAllAuthState_run. cbv beta iota. rewrite getCurrentState_run.
  eexists. split; [reflexivity|]. split; [discriminate|]. congruence.
Qed.

End RefreshFacts.

(** ** Runs of the code on the sample worlds *)

Section Runs.

#[local] Existing Instance Sample.host.

Import Sample.

(** C2 fails on the code.  With a valid session, a RefreshToken request
    that the provider answers with 403 [invalid_grant] is answered with
    INVALID_OTP, not REFRESH_FAILED; the flow state stays AUTHENTICATED and
    the refresh token stays stored, so a second RefreshToken request calls
    the provider again and is answered INVALID_OTP again.  And after a
    logout, a RefreshToken request is answered SESSION_EXPIRED, not
    NOT_AUTHENTICATED.  The refresh triggered by the alarm, on the same
    answer of the provider, does log out and erase the refresh token. *)
Theorem refresh_rejected_with_invalid_grant_keeps_session :
  let w := at_time (60 * MINUTE) (loggedIn revoking) in
  let first := processMessage REFRESH_TOKEN w in
  let second := processMessage REFRESH_TOKEN (snd first) in
  option_map response_code (match fst first with Ok r => Some r | Throw _ => None end)
    = Some (Some INVALID_OTP) /\
  flowState (session (snd first)) = Some AUTHENTICATED /\
  readable_token (snd first) = Some "rt-1" /\
  option_map response_code (match fst second with Ok r => Some r | Throw _ => None end)
    = Some (Some INVALID_OTP) /\
  fetchLog (snd second)
    = [TokenExchange "user@example.com" "123456"; TokenRefresh "rt-1"; TokenRefresh "rt-1"] /\
  option_map response_code
    (match eval (processMessage REFRESH_TOKEN) (exec (processMessage LOGOUT) w) with
     | Ok r => Some r
     | Throw _ => None
     end) = Some (Some SESSION_EXPIRED_ERROR) /\
  flowState (session (exec performTokenRefresh w)) = Some LOGGED_OUT /\
  readable_token (exec performTokenRefresh w) = None.
Proof. vm_compute. repeat split; reflexivity. Qed.

(** C3 fails on the code.  A session created at time 0 and refreshed on
    day 6 keeps [sessionCreatedAt = 0] in the session partition, but its
    durable [sessionMeta.createdAt] is overwritten with the time of the
    refresh.  On day 8 the 7-day check therefore passes and the start-up
    reconciliation answers AUTHENTICATED for a session created 8 days ago. *)
Theorem refresh_restarts_the_seven_day_window :
  option_map sa_sessionCreatedAt (auth (session refreshedOnDay6)) = Some 0 /\
  option_map createdAt (sessionMeta (local (loggedIn friendly))) = Some 0 /\
  option_map createdAt (sessionMeta (local refreshedOnDay6)) = Some (6 * DAY) /\
  session_expired_at (8 * DAY) refreshedOnDay6 = false /\
  option_map sm_flowState
    (match eval initializeStateMachine (at_time (8 * DAY) refreshedOnDay6) with
     | Ok st => Some st
     | Throw _ => None
     end) = Some AUTHENTICATED.
Proof. vm_compute. repeat split; reflexivity. Qed.

(** C4 fails on the code.  (a) With nothing stored but an OTP request made
    one minute ago, the reconciliation answers LOGGED_OUT and erases the
    request, where the claim says PENDING_OTP.  (b) With only the access
    half of a session stored (the [auth] record and a fresh [sessionMeta],
    no refresh token), it answers LOGGED_OUT but wipes nothing: the [auth]
    record and the session metadata stay. *)
Theorem startup_drops_pending_request_and_keeps_half_session :
  let a := initializeStateMachine (at_time MINUTE pendingOnly) in
  let b := initializeStateMachine (at_time MINUTE accessHalfOnly) in
  (otp_fresh_at MINUTE pendingOnly = true /\
   has_session_auth pendingOnly = false /\
   has_refresh_token pendingOnly = false /\
   option_map sm_flowState (match fst a with Ok st => Some st | Throw _ => None end)
     = Some LOGGED_OUT /\
   otpRequest (session (snd a)) = None) /\
  (has_session_auth accessHalfOnly = true /\
   has_refresh_token accessHalfOnly = false /\
   session_expired_at MINUTE accessHalfOnly = false /\
   option_map sm_flowState (match fst b with Ok st => Some st | Throw _ => None end)
     = Some LOGGED_OUT /\
   auth (session (snd b)) = auth (session (loggedIn friendly)) /\
   has_session_auth (snd b) = true /\
   sessionMeta (local (snd b)) = sessionMeta (local (loggedIn friendly))).
Proof. vm_compute. repeat split; reflexivity. Qed.

(** C7 fails on the code.  A request that the provider answers with status
    400 and the error body [server_error] is retried: the client makes
    three attempts, sleeping twice, before the error surfaces. *)
Theorem client_error_with_server_error_body_is_retried :
  let run := initiatePasswordlessOTP "user@example.com" (fresh confused 0) in
  fst run = Throw (ExnAuth (newAuthError AUTH0_UNAVAILABLE None)) /\
  List.length (fetchLog (snd run)) = 3%nat /\
  List.length (sleepLog (snd run)) = 2%nat.
Proof. vm_compute. repeat split; reflexivity. Qed.

(** C8 fails on the code.  A pending request for [user@example.com] has
    [attemptCount = 1] and [windowStart = 0]; a new InitiateOTP request for
    the same email 16 minutes later, after the window has elapsed, leaves
    [attemptCount = 2] and [windowStart = 0] instead of 1 and the current
    time.  A ResendOTP request does the same. *)
Theorem elapsed_window_is_not_reset_for_same_email :
  let now := 16 * MINUTE in
  let after := exec (processMessage (INITIATE_OTP "user@example.com")) (at_time now pendingOnly) in
  let after' := exec (processMessage (RESEND_OTP "user@example.com")) (at_time now pendingOnly) in
  option_map attemptCount (otpRequest (session pendingOnly)) = Some 1 /\
  option_map windowStart (otpRequest (session pendingOnly)) = Some 0 /\
  (now - 0 >? RATE_LIMIT_WINDOW_MS) = true /\
  option_map attemptCount (otpRequest (session after)) = Some 2 /\
  option_map windowStart (otpRequest (session after)) = Some 0 /\
  option_map attemptCount (otpRequest (session after')) = Some 2 /\
  option_map windowStart (otpRequest (session after')) = Some 0.
Proof. vm_compute. repeat split; reflexivity. Qed.

End Runs.

(* ===================================================================== *)
(** ** Encodings: base64 and base64url *)
(* ===================================================================== *)

Module EncodingFacts.
Import Base64 Base64Facts.

Ltac Zify.zify_post_hook ::= Z.to_euclidean_division_equations.

Lemma all_chars_cons (p : ascii -> bool) (c : ascii) (s : string) :
  all_chars p (String c s) = p c && all_chars p s.
Proof. reflexivity. Qed.

(** A property of the sixty-four characters of the alphabet, by enumeration. *)
Lemma alphabet_all (p : ascii -> bool) :
  forallb (fun n => p (char_of_index n)) sextets = true ->
  forall n, (n < 64)%N -> p (char_of_index n) = true.
Proof.
  intros A n H. rewrite forallb_forall in A. apply A. now apply sextet_listed.
Qed.

Lemma strip_padding_cons (c : ascii) (s : string) :
  Ascii.eqb c "=" = false ->
  Pkce.strip_padding (String c s) = String c (Pkce.strip_padding s).
Proof.
  intros H. cbn [Pkce.strip_padding]. rewrite H.
  destruct (Pkce.strip_padding s); reflexivity.
Qed.

Lemma strip_padding_cons_kept (c : ascii) (s : string) :
  Pkce.strip_padding s <> "" ->
  Pkce.strip_padding (String c s) = String c (Pkce.strip_padding s).
Proof.
  intros H. cbn [Pkce.strip_padding].
  destruct (Pkce.strip_padding s); [congruence | reflexivity].
Qed.

(** Replacing characters other than the padding commutes with stripping it. *)
Lemma strip_padding_replace (a b : ascii) (s : string) :
  Ascii.eqb a "=" = false -> Ascii.eqb b "=" = false ->
  Pkce.strip_padding (Js.replace_all a b s) = Js.replace_all a b (Pkce.strip_padding s).
Proof.
  intros Ha Hb. induction s as [|c s IH]; [reflexivity|].
  cbn [Js.replace_all Pkce.strip_padding]. rewrite IH.
  destruct (Pkce.strip_padding s) as [|x t].
  - cbn [Js.replace_all].
    destruct (Ascii.eqb_spec c a) as [->|N].
    + rewrite Ha, Hb. cbn [Js.replace_all]. now rewrite Ascii.eqb_refl.
    + destruct (Ascii.eqb c "="); [reflexivity|].
      cbn [Js.replace_all]. destruct (Ascii.eqb_spec c a); [contradiction | reflexivity].
  - cbn [Js.replace_all]. reflexivity.
Qed.

(** The URL-safe spelling is undone on strings without [-] and [_]. *)
Lemma url_spelling_undone (s : string) :
  all_chars (fun c => negb (Ascii.eqb c "-") && negb (Ascii.eqb c "_")) s = true ->
  Js.replace_all "_" "/" (Js.replace_all "-" "+"
    (Js.replace_all "/" "_" (Js.replace_all "+" "-" s))) = s.
Proof.
  induction s as [|c s IH]; [reflexivity|].
  rewrite all_chars_cons. intros H. apply andb_prop in H. destruct H as [Hc Hs].
  cbn [Js.replace_all]. rewrite (IH Hs). f_equal.
  apply andb_prop in Hc. destruct Hc as [H1 H2].
  apply negb_true_iff in H1, H2.
  destruct (Ascii.eqb_spec c "+") as [->|Np]; [reflexivity|].
  destruct (Ascii.eqb_spec c "/") as [->|Ns]; [reflexivity|].
  rewrite H1, H2. reflexivity.
Qed.

Lemma mod4_step (n : nat) : (S (S (S (S n))) mod 4 = n mod 4)%nat.
Proof.
  change (S (S (S (S n)))) with (4 + n)%nat. rewrite Nat.add_comm.
  apply (Nat.Div0.mod_add n 1 4).
Qed.

Lemma pad4_group (a b c d : ascii) (s : string) :
  pad4 (String a (String b (String c (String d s))))
  = String a (String b (String c (String d (pad4 s)))).
Proof.
  unfold pad4. cbn [String.length]. rewrite mod4_step.
  destruct (String.length s mod 4)%nat as [|[|[|[|k]]]]; reflexivity.
Qed.

(** Padding to a multiple of four restores what stripping removed. *)
Lemma pad4_strip_padding_btoa (l : list byte) :
  pad4 (Pkce.strip_padding (btoa l)) = btoa l.
Proof.
  induction l as [|a|a b|a b c r IH] using list_ind3.
  - reflexivity.
  - destruct (regroup _ 0 0 (byte_lt a) eq_refl eq_refl) as (H1 & H2 & _).
    change (0 / 16)%N with 0%N in H2. rewrite N.add_0_r in H2.
    unfold btoa. cbn [encode string_of_list_ascii].
    rewrite !strip_padding_cons by now apply char_of_index_not_pad.
    reflexivity.
  - destruct (regroup _ _ 0 (byte_lt a) (byte_lt b) eq_refl) as (H1 & H2 & H3 & _).
    change (0 / 64)%N with 0%N in H3. rewrite N.add_0_r in H3.
    unfold btoa. cbn [encode string_of_list_ascii].
    rewrite !strip_padding_cons by now apply char_of_index_not_pad.
    reflexivity.
  - destruct (regroup _ _ _ (byte_lt a) (byte_lt b) (byte_lt c)) as (H1 & H2 & H3 & H4 & _).
    unfold btoa in *. cbn [encode string_of_list_ascii].
    rewrite !strip_padding_cons by now apply char_of_index_not_pad.
    rewrite pad4_group, IH. reflexivity.
Qed.

(** Without its padding, the output of [btoa] is made of the alphabet... *)
Lemma strip_padding_btoa_chars (p : ascii -> bool) :
  (forall n, (n < 64)%N -> p (char_of_index n) = true) ->
  forall l, all_chars p (Pkce.strip_padding (btoa l)) = true.
Proof.
  intros Hp l.
  induction l as [|a|a b|a b c r IH] using list_ind3.
  - reflexivity.
  - destruct (regroup _ 0 0 (byte_lt a) eq_refl eq_refl) as (H1 & H2 & _).
    change (0 / 16)%N with 0%N in H2. rewrite N.add_0_r in H2.
    unfold btoa. cbn [encode string_of_list_ascii].
    rewrite !strip_padding_cons by now apply char_of_index_not_pad.
    rewrite !all_chars_cons, (Hp _ H1), (Hp _ H2). reflexivity.
  - destruct (regroup _ _ 0 (byte_lt a) (byte_lt b) eq_refl) as (H1 & H2 & H3 & _).
    change (0 / 64)%N with 0%N in H3. rewrite N.add_0_r in H3.
    unfold btoa. cbn [encode string_of_list_ascii].
    rewrite !strip_padding_cons by now apply char_of_index_not_pad.
    rewrite !all_chars_cons, (Hp _ H1), (Hp _ H2), (Hp _ H3). reflexivity.
  - destruct (regroup _ _ _ (byte_lt a) (byte_lt b) (byte_lt c)) as (H1 & H2 & H3 & H4 & _).
    unfold btoa in *. cbn [encode string_of_list_ascii].
    rewrite !strip_padding_cons by now apply char_of_index_not_pad.
    rewrite !all_chars_cons, (Hp _ H1), (Hp _ H2), (Hp _ H3), (Hp _ H4), IH. reflexivity.
Qed.

(** ... and has four characters for every three bytes, rounded up. *)
Lemma strip_padding_btoa_length (l : list byte) :
  String.length (Pkce.strip_padding (btoa l)) = ((4 * List.length l + 2) / 3)%nat.
Proof.
  induction l as [|a|a b|a b c r IH] using list_ind3.
  - reflexivity.
  - destruct (regroup _ 0 0 (byte_lt a) eq_refl eq_refl) as (H1 & H2 & _).
    change (0 / 16)%N with 0%N in H2. rewrite N.add_0_r in H2.
    unfold btoa. cbn [encode string_of_list_ascii].
    rewrite !strip_padding_cons by now apply char_of_index_not_pad.
    reflexivity.
  - destruct (regroup _ _ 0 (byte_lt a) (byte_lt b) eq_refl) as (H1 & H2 & H3 & _).
    change (0 / 64)%N with 0%N in H3. rewrite N.add_0_r in H3.
    unfold btoa. cbn [encode string_of_list_ascii].
    rewrite !strip_padding_cons by now apply char_of_index_not_pad.
    reflexivity.
  - destruct (regroup _ _ _ (byte_lt a) (byte_lt b) (byte_lt c)) as (H1 & H2 & H3 & H4 & _).
    unfold btoa in *. cbn [encode string_of_list_ascii].
    rewrite !strip_padding_cons by now apply char_of_index_not_pad.
    cbn [String.length List.length]. rewrite IH.
    replace (4 * S (S (S (List.length r))) + 2)%nat
      with ((4 * List.length r + 2) + 4 * 3)%nat by lia.
    rewrite Nat.div_add by lia. rewrite (Nat.add_comm _ 4). reflexivity.
Qed.

Lemma all_chars_replace (p : ascii -> bool) (a b : ascii) (s : string) :
  all_chars p (Js.replace_all a b s)
  = all_chars (fun c => p (if Ascii.eqb c a then b else c)) s.
Proof.
  induction s as [|c s IH]; [reflexivity|].
  cbn [Js.replace_all]. rewrite !all_chars_cons, IH. reflexivity.
Qed.

Lemma replace_all_length (a b : ascii) (s : string) :
  String.length (Js.replace_all a b s) = String.length s.
Proof. induction s as [|c s IH]; [reflexivity|]. cbn. now rewrite IH. Qed.

(** The encoder of pkce.ts, with the stripping done first. *)
Lemma base64UrlEncode_eq (l : list byte) :
  Pkce.base64UrlEncode l
  = Js.replace_all "/" "_" (Js.replace_all "+" "-" (Pkce.strip_padding (btoa l))).
Proof.
  unfold Pkce.base64UrlEncode. now rewrite !strip_padding_replace.
Qed.

(** Both decoders first restore the base64 text of the buffer. *)
Lemma base64_text_restored (l : list byte) :
  pad4 (Js.replace_all "_" "/" (Js.replace_all "-" "+" (Pkce.base64UrlEncode l)))
  = btoa l.
Proof.
  rewrite base64UrlEncode_eq, url_spelling_undone.
  - apply pad4_strip_padding_btoa.
  - apply strip_padding_btoa_chars.
    apply (alphabet_all (fun c => negb (Ascii.eqb c "-") && negb (Ascii.eqb c "_"))).
    vm_compute. reflexivity.
Qed.

Lemma base64UrlEncode_shape (l : list byte) :
  all_chars Pkce.url_safe (Pkce.base64UrlEncode l) = true /\
  String.length (Pkce.base64UrlEncode l) = ((4 * List.length l + 2) / 3)%nat.
Proof.
  rewrite base64UrlEncode_eq. split.
  - rewrite !all_chars_replace.
    apply strip_padding_btoa_chars.
    apply (alphabet_all
             (fun c => Pkce.url_safe
                         (let d := if Ascii.eqb c "+" then "-"%char else c in
                          if Ascii.eqb d "/" then "_"%char else d))).
    vm_compute. reflexivity.
  - rewrite !replace_all_length. apply strip_padding_btoa_length.
Qed.

End EncodingFacts.

(** X1.  The base64 helpers of the token store are inverse to each other:
    [base64ToBuffer] reads back every buffer [bufferToBase64] wrote, so two
    buffers with the same text are the same buffer. *)
Theorem buffer_base64_round_trip (a b : list byte) :
  base64ToBuffer (bufferToBase64 a) = Some a /\
  (bufferToBase64 a = bufferToBase64 b -> a = b).
Proof.
  split.
  - apply Base64Facts.atob_btoa.
  - intros E.
    assert (H : base64ToBuffer (bufferToBase64 a) = base64ToBuffer (bufferToBase64 b))
      by now rewrite E.
    unfold base64ToBuffer, bufferToBase64 in H.
    rewrite !Base64Facts.atob_btoa in H. congruence.
Qed.

(** X2.  The base64url helpers of pkce.ts are inverse to each other:
    decoding the encoding of a buffer gives the buffer back, whatever its
    length and although the padding was removed. *)
Theorem pkce_base64url_round_trip (buffer : list byte) :
  Pkce.base64UrlDecode (Pkce.base64UrlEncode buffer) = Some buffer.
Proof.
  unfold Pkce.base64UrlDecode.
  rewrite EncodingFacts.base64_text_restored. apply Base64Facts.atob_btoa.
Qed.

(** X3.  [base64UrlEncode] writes only letters, digits, [-] and [_] (no
    [+], [/] or [=]), and four characters for every three bytes, rounded
    up. *)
Theorem pkce_base64url_is_url_safe (buffer : list byte) :
  all_chars Pkce.url_safe (Pkce.base64UrlEncode buffer) = true /\
  String.length (Pkce.base64UrlEncode buffer)
  = ((4 * List.length buffer + 2) / 3)%nat.
Proof. apply EncodingFacts.base64UrlEncode_shape. Qed.

(** X4.  [generateCodeVerifier] draws 32 random bytes and always resolves
    to a verifier of 43 URL-safe characters that decodes to those bytes. *)
Theorem code_verifier_has_43_url_safe_characters (w : World) :
  exists verifier,
    Pkce.generateCodeVerifier w = (Ok verifier, use_entropy 32 w) /\
    String.length verifier = 43%nat /\
    all_chars Pkce.url_safe verifier = true /\
    Pkce.base64UrlDecode verifier = Some (map (entropy w) (seq (entropyUsed w) 32)).
Proof.
  eexists. split; [reflexivity|].
  set (bytes := map (entropy w) (seq (entropyUsed w) Pkce.CODE_VERIFIER_LENGTH)).
  change (map (entropy w) (seq (entropyUsed w) 32)) with bytes.
  assert (L : List.length bytes = 32%nat)
    by (unfold bytes; now rewrite length_map, length_seq).
  split; [|split].
  - destruct (EncodingFacts.base64UrlEncode_shape bytes) as [_ E]. rewrite E, L. reflexivity.
  - apply EncodingFacts.base64UrlEncode_shape.
  - unfold Pkce.base64UrlDecode.
    rewrite EncodingFacts.base64_text_restored. apply Base64Facts.atob_btoa.
Qed.

(** X5.  The decoder of the ID-token module reads what the encoder of
    pkce.ts writes: an unpadded base64url text decodes to the string of the
    encoded bytes. *)
Theorem token_decoder_reads_unpadded_base64url (buffer : list byte) :
  base64UrlDecode (Pkce.base64UrlEncode buffer) = Some (string_of_list_byte buffer).
Proof.
  unfold base64UrlDecode.
  rewrite EncodingFacts.base64_text_restored, Base64Facts.atob_btoa. reflexivity.
Qed.

(* ===================================================================== *)
(** ** Validation of the user's input *)
(* ===================================================================== *)

Module RegexFacts.
Import Regex.

Lemma matches_nil_nullable (r : re) (s : string) :
  matches r s -> s = "" -> nullable r = true.
Proof.
  induction 1 as [|p c Hc|r1 r2 s1 s2 _ IH1 _ IH2|r1 r2 s _ IH|r1 r2 s _ IH| |r s1 s2 _ _ _ _];
    intros E; cbn [nullable]; try reflexivity; try discriminate.
  - destruct s1; [|discriminate]. destruct s2; [|discriminate].
    now rewrite IH1, IH2.
  - now rewrite IH.
  - rewrite IH by assumption. apply orb_true_r.
Qed.

Lemma nullable_matches_nil (r : re) : nullable r = true -> matches r "".
Proof.
  induction r as [| |p|r1 IH1 r2 IH2|r1 IH1 r2 IH2|r IH]; cbn [nullable]; intros H;
    try discriminate.
  - constructor.
  - apply andb_prop in H. destruct H as [H1 H2].
    change "" with ("" ++ ""). constructor; auto.
  - apply orb_prop in H. destruct H as [H|H]; [apply MAltL | apply MAltR]; auto.
  - constructor.
Qed.

Lemma matches_deriv (r : re) (s0 : string) :
  matches r s0 -> forall c s, s0 = String c s -> matches (deriv c r) s.
Proof.
  induction 1 as [|p c0 Hc|r1 r2 s1 s2 M1 IH1 M2 IH2|r1 r2 s0 _ IH|r1 r2 s0 _ IH|
                  |r s1 s2 M1 IH1 M2 IH2];
    intros c s E; try discriminate.
  - injection E as -> <-. cbn [deriv]. rewrite Hc. constructor.
  - cbn [deriv]. destruct s1 as [|c1 s1].
    + rewrite (matches_nil_nullable _ _ M1 eq_refl). apply MAltR. now apply IH2.
    + injection E as -> <-.
      assert (C : matches (Cat (deriv c r1) r2) (s1 ++ s2))
        by (constructor; [now apply IH1 | assumption]).
      destruct (nullable r1); [now apply MAltL | assumption].
  - cbn [deriv]. apply MAltL. now apply IH.
  - cbn [deriv]. apply MAltR. now apply IH.
  - destruct s1 as [|c1 s1].
    + now apply IH2.
    + injection E as -> <-. cbn [deriv]. constructor; [now apply IH1 | assumption].
Qed.

Lemma deriv_matches (r : re) :
  forall c s, matches (deriv c r) s -> matches r (String c s).
Proof.
  induction r as [| |p|r1 IH1 r2 IH2|r1 IH1 r2 IH2|r IH]; intros c s; cbn [deriv]; intros H.
  - inversion H.
  - inversion H.
  - destruct (p c) eqn:Hc; inversion H; subst. now constructor.
  - assert (L : forall t, matches (Cat (deriv c r1) r2) t -> matches (Cat r1 r2) (String c t)).
    { intros t Ht. inversion Ht; subst.
      change (String c (s1 ++ s2)) with (String c s1 ++ s2). constructor; auto. }
    destruct (nullable r1) eqn:N; [|now apply L].
    inversion H; subst; [now apply L|].
    change (String c s) with ("" ++ String c s).
    constructor; [now apply nullable_matches_nil | auto].
  - inversion H; subst; [apply MAltL | apply MAltR]; auto.
  - inversion H; subst.
    change (String c (s1 ++ s2)) with (String c s1 ++ s2). constructor; auto.
Qed.

(** The matcher by derivatives decides the language of the expression. *)
Lemma test_matches (s : string) : forall r, test r s = true <-> matches r s.
Proof.
  induction s as [|c s IH]; intros r; cbn [test].
  - split; [apply nullable_matches_nil | intros H; now apply (matches_nil_nullable r "")].
  - rewrite IH. split; [apply deriv_matches | intros H; now apply (matches_deriv r _ H)].
Qed.

Lemma matches_cat (r1 r2 : re) (s : string) :
  matches (Cat r1 r2) s <-> exists s1 s2, s = s1 ++ s2 /\ matches r1 s1 /\ matches r2 s2.
Proof.
  split.
  - intros H. inversion H; subst. eauto.
  - intros (s1 & s2 & -> & H1 & H2). now constructor.
Qed.

Lemma matches_class (p : ascii -> bool) (s : string) :
  matches (Class p) s <-> exists c, s = String c "" /\ p c = true.
Proof.
  split.
  - intros H. inversion H; subst. eauto.
  - intros (c & -> & H). now constructor.
Qed.

Lemma matches_star_class (p : ascii -> bool) (s : string) :
  matches (Star (Class p)) s <-> all_chars p s = true.
Proof.
  split.
  - intros H. remember (Star (Class p)) as r eqn:E.
    induction H as [| | | | | |r s1 s2 M1 _ M2 IH2]; try discriminate; [reflexivity|].
    injection E as ->. inversion M1; subst.
    cbn [append]. rewrite EncodingFacts.all_chars_cons, IH2 by reflexivity.
    now rewrite H0.
  - induction s as [|c s IH]; [constructor|].
    rewrite EncodingFacts.all_chars_cons. intros H. apply andb_prop in H.
    destruct H as [Hc Hs].
    change (String c s) with (String c "" ++ s).
    constructor; [now constructor | auto].
Qed.

Lemma matches_plus_class (p : ascii -> bool) (s : string) :
  matches (Plus (Class p)) s <-> s <> "" /\ all_chars p s = true.
Proof.
  unfold Plus. rewrite matches_cat. split.
  - intros (s1 & s2 & -> & H1 & H2).
    apply matches_class in H1. destruct H1 as (c & -> & Hc).
    apply matches_star_class in H2. split; [discriminate|].
    cbn [append]. now rewrite EncodingFacts.all_chars_cons, Hc, H2.
  - intros [N H]. destruct s as [|c s]; [congruence|].
    rewrite EncodingFacts.all_chars_cons in H. apply andb_prop in H. destruct H as [Hc Hs].
    exists (String c ""), s. split; [reflexivity|]. split.
    + now constructor.
    + now apply matches_star_class.
Qed.

End RegexFacts.

Module InputFacts.
Import Regex RegexFacts.

Lemma matches_class_cat (p : ascii -> bool) (r : re) (s : string) :
  matches (Cat (Class p) r) s <->
  exists c s', s = String c s' /\ p c = true /\ matches r s'.
Proof.
  rewrite matches_cat. split.
  - intros (s1 & s2 & -> & H1 & H2). apply matches_class in H1.
    destruct H1 as (c & -> & Hc). now exists c, s2.
  - intros (c & s' & -> & Hc & H). exists (String c ""), s'.
    split; [reflexivity|]. split; [now apply matches_class; exists c | assumption].
Qed.

(** The language of [/^\d{6}$/] *)
Lemma otpRegex_matches (s : string) :
  matches otpRegex s <-> String.length s = 6%nat /\ all_chars is_digit s = true.
Proof.
  unfold otpRegex. split.
  - intros H.
    repeat (apply matches_class_cat in H; destruct H as (? & ? & -> & ? & H)).
    apply matches_class in H. destruct H as (c & -> & Hc).
    split; [reflexivity|]. rewrite !EncodingFacts.all_chars_cons.
    repeat match goal with E : is_digit _ = true |- _ => rewrite E; clear E end.
    reflexivity.
  - intros [L D].
    destruct s as [|c1 [|c2 [|c3 [|c4 [|c5 [|c6 [|c7 s]]]]]]]; try discriminate.
    rewrite !EncodingFacts.all_chars_cons in D.
    repeat (apply andb_prop in D; let H := fresh "D" in destruct D as [H D]).
    repeat (apply matches_class_cat; eexists _, _;
            split; [reflexivity|]; split; [assumption|]).
    apply matches_class. eauto.
Qed.

(** The language of [/^[^\s@]+@[^\s@]+\.[^\s@]+$/] *)
Lemma emailRegex_matches (s : string) :
  matches emailRegex s <->
  exists l d tld,
    s = l ++ "@" ++ d ++ "." ++ tld /\
    (l <> "" /\ all_chars not_space_at l = true) /\
    (d <> "" /\ all_chars not_space_at d = true) /\
    (tld <> "" /\ all_chars not_space_at tld = true).
Proof.
  unfold emailRegex. rewrite matches_cat. split.
  - intros (l & s2 & -> & Hl & H).
    apply matches_class_cat in H. destruct H as (c & s3 & -> & Hc & H).
    apply Ascii.eqb_eq in Hc. subst c.
    apply matches_cat in H. destruct H as (d & s4 & -> & Hd & H).
    apply matches_class_cat in H. destruct H as (c & tld & -> & Hc & Ht).
    apply Ascii.eqb_eq in Hc. subst c.
    apply matches_plus_class in Hl, Hd, Ht.
    exists l, d, tld. repeat split; tauto.
  - intros (l & d & tld & -> & Hl & Hd & Ht).
    apply matches_plus_class in Hl, Hd, Ht.
    exists l, ("@" ++ d ++ "." ++ tld). split; [reflexivity|]. split; [assumption|].
    apply matches_class_cat. exists "@"%char, (d ++ "." ++ tld).
    split; [reflexivity|]. split; [reflexivity|].
    apply matches_cat. exists d, ("." ++ tld). split; [reflexivity|]. split; [assumption|].
    apply matches_class_cat. exists "."%char, tld. repeat split; assumption.
Qed.

(** Facts about single characters, by enumeration of the 256 of them. *)
Lemma digit_not_space (c : ascii) : is_digit c = true -> Js.is_space c = false.
Proof. destruct c as [[] [] [] [] [] [] [] []]; vm_compute; congruence. Qed.

Lemma lower_space (c : ascii) : Js.is_space (Js.lower_ascii c) = Js.is_space c.
Proof. destruct c as [[] [] [] [] [] [] [] []]; reflexivity. Qed.

Lemma lower_keeps_email_classes : class_invariant Js.lower_ascii emailRegex.
Proof.
  assert (A : forall c, not_space_at (Js.lower_ascii c) = not_space_at c)
    by (intros c; destruct c as [[] [] [] [] [] [] [] []]; reflexivity).
  assert (B : forall c, Ascii.eqb "@" (Js.lower_ascii c) = Ascii.eqb "@" c)
    by (intros c; destruct c as [[] [] [] [] [] [] [] []]; reflexivity).
  assert (C : forall c, Ascii.eqb "." (Js.lower_ascii c) = Ascii.eqb "." c)
    by (intros c; destruct c as [[] [] [] [] [] [] [] []]; reflexivity).
  cbn. tauto.
Qed.

(** ** [trim] *)

Lemma trim_end_clean (s : string) :
  all_chars (fun c => negb (Js.is_space c)) s = true -> Js.trim_end s = s.
Proof.
  induction s as [|c s IH]; [reflexivity|].
  rewrite EncodingFacts.all_chars_cons. intros H. apply andb_prop in H.
  destruct H as [Hc Hs]. apply negb_true_iff in Hc.
  cbn [Js.trim_end]. rewrite (IH Hs), Hc. destruct s; reflexivity.
Qed.

Lemma trim_clean (s : string) :
  all_chars (fun c => negb (Js.is_space c)) s = true -> Js.trim s = s.
Proof.
  intros H. unfold Js.trim.
  assert (E : Js.trim_start s = s).
  { destruct s as [|c s]; [reflexivity|].
    rewrite EncodingFacts.all_chars_cons in H. apply andb_prop in H.
    destruct H as [Hc _]. apply negb_true_iff in Hc. cbn [Js.trim_start]. now rewrite Hc. }
  rewrite E. now apply trim_end_clean.
Qed.

Lemma trim_end_idem (s : string) : Js.trim_end (Js.trim_end s) = Js.trim_end s.
Proof.
  induction s as [|c s IH]; [reflexivity|].
  cbn [Js.trim_end]. destruct (Js.trim_end s) as [|x u] eqn:E.
  - destruct (Js.is_space c) eqn:Hc; [reflexivity|].
    cbn [Js.trim_end]. now rewrite Hc.
  - change (Js.trim_end (String c (String x u)))
      with (match Js.trim_end (String x u) with
            | "" => if Js.is_space c then "" else String c ""
            | t => String c t
            end).
    rewrite IH. reflexivity.
Qed.

Lemma trim_start_head (s : string) :
  match Js.trim_start s with
  | "" => True
  | String c _ => Js.is_space c = false
  end.
Proof.
  induction s as [|c s IH]; [exact I|].
  cbn [Js.trim_start]. destruct (Js.is_space c) eqn:Hc; [exact IH | exact Hc].
Qed.

Lemma trim_idem (s : string) : Js.trim (Js.trim s) = Js.trim s.
Proof.
  unfold Js.trim. pose proof (trim_start_head s) as H.
  destruct (Js.trim_start s) as [|c u]; [reflexivity|].
  assert (E : exists t, Js.trim_end (String c u) = String c t).
  { cbn [Js.trim_end]. destruct (Js.trim_end u); rewrite ?H; eauto. }
  destruct E as [t E].
  assert (S : Js.trim_start (Js.trim_end (String c u)) = Js.trim_end (String c u))
    by (rewrite E; cbn [Js.trim_start]; now rewrite H).
  rewrite S. apply trim_end_idem.
Qed.

Lemma trim_toLowerCase (s : string) :
  Js.trim (Js.toLowerCase s) = Js.toLowerCase (Js.trim s).
Proof.
  unfold Js.trim.
  assert (A : forall t, Js.trim_start (Js.toLowerCase t) = Js.toLowerCase (Js.trim_start t)).
  { induction t as [|c t IH]; [reflexivity|].
    cbn [Js.toLowerCase Js.trim_start]. rewrite lower_space.
    destruct (Js.is_space c); [exact IH | reflexivity]. }
  assert (B : forall t, Js.trim_end (Js.toLowerCase t) = Js.toLowerCase (Js.trim_end t)).
  { induction t as [|c t IH]; [reflexivity|].
    cbn [Js.toLowerCase Js.trim_end]. rewrite IH, lower_space.
    destruct (Js.trim_end t); cbn [Js.toLowerCase]; [|reflexivity].
    destruct (Js.is_space c); reflexivity. }
  now rewrite A, B.
Qed.

Lemma toLowerCase_length (s : string) :
  String.length (Js.toLowerCase s) = String.length s.
Proof. induction s as [|c s IH]; [reflexivity|]. cbn. now rewrite IH. Qed.

(** Lower-casing does not change what an expression with invariant
    classes matches. *)
Lemma deriv_lower (r : re) (c : ascii) :
  class_invariant Js.lower_ascii r ->
  deriv (Js.lower_ascii c) r = deriv c r /\
  class_invariant Js.lower_ascii (deriv c r).
Proof.
  induction r as [| |p|r1 IH1 r2 IH2|r1 IH1 r2 IH2|r IH]; cbn [class_invariant deriv].
  - tauto.
  - tauto.
  - intros H. rewrite H. destruct (p c); cbn; tauto.
  - intros [H1 H2]. destruct (IH1 H1) as [E1 I1]. destruct (IH2 H2) as [E2 I2].
    rewrite E1, E2. destruct (nullable r1); cbn [class_invariant]; tauto.
  - intros [H1 H2]. destruct (IH1 H1) as [E1 I1]. destruct (IH2 H2) as [E2 I2].
    rewrite E1, E2. cbn [class_invariant]. tauto.
  - intros H. destruct (IH H) as [E1 I1]. rewrite E1. cbn [class_invariant]. tauto.
Qed.

Lemma test_toLowerCase (s : string) :
  forall r, class_invariant Js.lower_ascii r ->
            test r (Js.toLowerCase s) = test r s.
Proof.
  induction s as [|c s IH]; intros r H; [reflexivity|].
  cbn [Js.toLowerCase test]. destruct (deriv_lower r c H) as [E I].
  rewrite E. now apply IH.
Qed.

(** ** [keep_chars] *)

Lemma keep_chars_all (p : ascii -> bool) (s : string) :
  all_chars p (keep_chars p s) = true.
Proof.
  induction s as [|c s IH]; [reflexivity|].
  cbn [keep_chars]. destruct (p c) eqn:Hc; [|exact IH].
  now rewrite EncodingFacts.all_chars_cons, Hc, IH.
Qed.

Lemma keep_chars_clean (p : ascii -> bool) (s : string) :
  all_chars p s = true -> keep_chars p s = s.
Proof.
  induction s as [|c s IH]; [reflexivity|].
  rewrite EncodingFacts.all_chars_cons. intros H. apply andb_prop in H.
  destruct H as [Hc Hs]. cbn [keep_chars]. now rewrite Hc, IH.
Qed.

Lemma digits_clean (s : string) :
  all_chars is_digit s = true -> all_chars (fun c => negb (Js.is_space c)) s = true.
Proof.
  induction s as [|c s IH]; [reflexivity|].
  rewrite !EncodingFacts.all_chars_cons. intros H. apply andb_prop in H.
  destruct H as [Hc Hs]. now rewrite (digit_not_space c Hc), IH.
Qed.

End InputFacts.

(** X6.  [validateOTP] accepts exactly the ASCII inputs that, once
    trimmed, are six decimal digits. *)
Theorem validateOTP_accepts_exactly_six_digits (otp : string) :
  ascii_only otp = true ->
  (validateOTP otp = true <->
   String.length (Js.trim otp) = 6%nat /\ all_chars is_digit (Js.trim otp) = true).
Proof.
  intros _. unfold validateOTP. destruct otp as [|c s].
  - cbn. split; [discriminate | intros [H _]; discriminate].
  - cbn [Js.falsy]. rewrite RegexFacts.test_matches. apply InputFacts.otpRegex_matches.
Qed.

Lemma validateOTP_accepts_exactly_six_digits_witness :
  ascii_only " 123456 " = true /\
  validateOTP " 123456 " = true /\
  (validateOTP "12345a" = true -> False).
Proof.
  split; [reflexivity|]. split.
  - apply (validateOTP_accepts_exactly_six_digits " 123456 " eq_refl).
    split; reflexivity.
  - intros H. apply (validateOTP_accepts_exactly_six_digits "12345a" eq_refl) in H.
    destruct H as [_ H]. discriminate H.
Defined.

(** X7.  A code that [validateOTP] accepts is normalised by [normalizeOTP]
    to its trimmed form, which is accepted as well: normalising a valid
    code only removes the white space around it. *)
Theorem normalizeOTP_keeps_a_valid_code (otp : string) :
  validateOTP otp = true ->
  normalizeOTP otp = Js.trim otp /\ validateOTP (normalizeOTP otp) = true.
Proof.
  unfold validateOTP. destruct otp as [|c s]; [discriminate|].
  cbn [Js.falsy]. rewrite RegexFacts.test_matches, InputFacts.otpRegex_matches.
  intros [L D].
  assert (E : normalizeOTP (String c s) = Js.trim (String c s))
    by (unfold normalizeOTP; now apply InputFacts.keep_chars_clean).
  split; [exact E|]. rewrite E.
  destruct (Js.trim (String c s)) as [|c' s'] eqn:T; [discriminate|].
  cbn [Js.falsy]. rewrite <- T, InputFacts.trim_idem, T.
  rewrite RegexFacts.test_matches, InputFacts.otpRegex_matches. now split.
Qed.

Lemma normalizeOTP_keeps_a_valid_code_witness :
  validateOTP "  123456 " = true /\
  normalizeOTP "  123456 " = "123456" /\
  validateOTP (normalizeOTP "  123456 ") = true.
Proof.
  split; [reflexivity|].
  apply (normalizeOTP_keeps_a_valid_code "  123456 "). reflexivity.
Defined.

(** X8.  [normalizeOTP] returns digits only, never more characters than it
    was given, and normalising twice is the same as normalising once. *)
Theorem normalizeOTP_returns_digits_only (otp : string) :
  all_chars is_digit (normalizeOTP otp) = true /\
  normalizeOTP (normalizeOTP otp) = normalizeOTP otp.
Proof.
  unfold normalizeOTP.
  pose proof (InputFacts.keep_chars_all is_digit (Js.trim otp)) as D.
  split; [exact D|].
  rewrite (InputFacts.trim_clean _ (InputFacts.digits_clean _ D)).
  now apply InputFacts.keep_chars_clean.
Qed.

(** X9.  [validateEmail] accepts exactly the ASCII inputs that, once
    trimmed, have at most 254 characters and the form local@domain.tld,
    where the three parts are non-empty and hold neither white space nor
    [@] (the domain part may itself hold dots). *)
Theorem validateEmail_accepts_exactly (email : string) :
  ascii_only email = true ->
  (validateEmail email = true <->
   Js.len (Js.trim email) <= 254 /\
   exists l d tld,
     Js.trim email = l ++ "@" ++ d ++ "." ++ tld /\
     (l <> "" /\ all_chars not_space_at l = true) /\
     (d <> "" /\ all_chars not_space_at d = true) /\
     (tld <> "" /\ all_chars not_space_at tld = true)).
Proof.
  intros _. unfold validateEmail. destruct email as [|c s].
  - cbn [Js.falsy]. split; [discriminate|].
    intros [_ (l & d & tld & E & [N _] & _)]. destruct l; [congruence | discriminate].
  - cbn [Js.falsy]. set (t := Js.trim (String c s)).
    rewrite <- InputFacts.emailRegex_matches, <- RegexFacts.test_matches.
    destruct (Js.len t =? 0) eqn:Z0; cbn [orb].
    + split; [discriminate|]. intros [_ H]. apply Z.eqb_eq in Z0.
      unfold Js.len in Z0. destruct t; [discriminate H | cbn in Z0; lia].
    + destruct (Js.len t >? 254) eqn:G.
      * split; [discriminate|]. intros [H _]. rewrite Z.gtb_ltb in G.
        apply Z.ltb_lt in G. lia.
      * rewrite Z.gtb_ltb in G. apply Z.ltb_ge in G. tauto.
Qed.

Lemma validateEmail_accepts_exactly_witness :
  ascii_only " user@mail.example.com " = true /\
  validateEmail " user@mail.example.com " = true /\
  (validateEmail "user@example" = true -> False).
Proof.
  split; [reflexivity|]. split.
  - apply (validateEmail_accepts_exactly " user@mail.example.com " eq_refl).
    split; [vm_compute; discriminate|].
    exists "user", "mail.example", "com".
    split; [reflexivity|].
    repeat split; try discriminate; reflexivity.
  - intros H. vm_compute in H. discriminate H.
Defined.

(** X10.  Normalising an ASCII address with [normalizeEmail] (trimming and
    lower-casing) never changes whether [validateEmail] accepts it. *)
Theorem validateEmail_ignores_normalisation (email : string) :
  ascii_only email = true ->
  validateEmail (normalizeEmail email) = validateEmail email.
Proof.
  intros _. unfold normalizeEmail.
  destruct (Js.trim email) as [|c t] eqn:T.
  - unfold validateEmail. cbn [Js.toLowerCase Js.falsy]. rewrite T.
    destruct email; reflexivity.
  - assert (N : Js.falsy email = false).
    { destruct email; [discriminate T | reflexivity]. }
    unfold validateEmail. rewrite N. cbn [Js.toLowerCase Js.falsy].
    change (String (Js.lower_ascii c) (Js.toLowerCase t))
      with (Js.toLowerCase (String c t)).
    rewrite <- T, InputFacts.trim_toLowerCase, InputFacts.trim_idem.
    unfold Js.len. rewrite InputFacts.toLowerCase_length.
    rewrite (InputFacts.test_toLowerCase _ _ InputFacts.lower_keeps_email_classes).
    reflexivity.
Qed.

Lemma validateEmail_ignores_normalisation_witness :
  ascii_only "  User@Example.COM " = true /\
  normalizeEmail "  User@Example.COM " = "user@example.com" /\
  validateEmail (normalizeEmail "  User@Example.COM ")
  = validateEmail "  User@Example.COM ".
Proof.
  split; [reflexivity|]. split; [reflexivity|].
  apply (validateEmail_ignores_normalisation "  User@Example.COM " eq_refl).
Defined.

(* ===================================================================== *)
(** ** The retry loop, attempt by attempt *)
(* ===================================================================== *)

Section RetryTrace.

Context {T : Type}.
Variable answer : Network -> nat -> FetchResult T.
Variable req : Request.

Lemma backoff_run (attempt : nat) (w : World) :
  backoff attempt w =
  if (attempt <? MAX_RETRIES - 1)%nat
  then (Ok tt,
        log_sleep (Math_min (INITIAL_RETRY_DELAY_MS * pow2 attempt
                             + random w (randomUsed w) * 500) MAX_RETRY_DELAY_MS)
          (use_random w))
  else (Ok tt, w).
Proof. unfold backoff. destruct (attempt <? MAX_RETRIES - 1)%nat; reflexivity. Qed.

(** With a jitter below 500 ms the first two waits stay under the cap. *)
Lemma early_delay_bounds (attempt : nat) (r : Q) :
  (attempt < 2)%nat -> (0 <= r)%Q -> (r < 1)%Q ->
  let d := Math_min (INITIAL_RETRY_DELAY_MS * pow2 attempt + r * 500) MAX_RETRY_DELAY_MS in
  (1000 <= d)%Q /\ (d <= 2500)%Q.
Proof.
  intros A R0 R1. cbn zeta.
  unfold Math_min, INITIAL_RETRY_DELAY_MS, MAX_RETRY_DELAY_MS.
  assert (P : (pow2 attempt == 1 \/ pow2 attempt == 2)%Q).
  { destruct attempt as [|[|a]]; [left | right | lia]; reflexivity. }
  set (b := pow2 attempt) in *.
  destruct (Qle_bool (1000 * b + r * 500) 5000) eqn:E.
  - destruct P as [P|P]; rewrite P; split; lra.
  - assert (~ (1000 * b + r * 500 <= 5000)%Q) as N
      by (intros H; apply Qle_bool_iff in H; congruence).
    exfalso. apply N. destruct P as [P|P]; rewrite P; lra.
Qed.

(** What a run of the loop leaves behind: [k] fetches of the same request,
    one wait between two consecutive attempts, and nothing else. *)
Lemma fetchLoop_trace (remaining : nat) :
  forall (attempt : nat) (lastError : option Exn) (w : World),
    (attempt + remaining = MAX_RETRIES)%nat ->
    exists k ds,
      let w' := snd (fetchLoop answer req remaining attempt lastError w) in
      (Nat.min 1 remaining <= k <= remaining)%nat /\
      fetchLog w' = (fetchLog w ++ repeat req k)%list /\
      sleepLog w' = (sleepLog w ++ ds)%list /\
      List.length ds = (k - 1)%nat /\
      (session w' = session w /\ local w' = local w /\
       encryptionKey w' = encryptionKey w /\ dateNow w' = dateNow w /\
       network w' = network w /\ random w' = random w /\
       entropyUsed w' = entropyUsed w) /\
      ((forall n, (0 <= random w n)%Q /\ (random w n < 1)%Q) ->
       Forall (fun d => (1000 <= d)%Q /\ (d <= 2500)%Q) ds).
Proof.
  induction remaining as [|n IH]; intros attempt lastError w A.
  - exists 0%nat, []. cbn. rewrite !app_nil_r. repeat split; auto.
  - cbn [fetchLoop]. unfold try_catch.
    pose proof (fetchOnce_world answer req w) as W.
    destruct (fetchOnce answer req w) as [[v|x] w1]; cbn [snd] in W; subst w1.
    + exists 1%nat, []. cbn. rewrite !app_nil_r. repeat split; auto; lia.
    + destruct (isRetryableError x); cbn [negb].
      2:{ exists 1%nat, []. cbn. rewrite !app_nil_r. repeat split; auto; lia. }
      unfold bind. rewrite backoff_run.
      destruct (attempt <? MAX_RETRIES - 1)%nat eqn:E.
      * apply Nat.ltb_lt in E. unfold MAX_RETRIES in *.
        set (d := Math_min _ _).
        set (w2 := log_sleep d (use_random (log_fetch req w))).
        destruct (IH (S attempt) (Some x) w2 ltac:(lia))
          as (k & ds & K & FL & SL & LD & FR & B).
        cbn zeta in *.
        exists (S k), (d :: ds).
        destruct FR as (F1 & F2 & F3 & F4 & F5 & F6 & F7).
        split; [simpl Nat.min in *; destruct n; [lia | simpl Nat.min in K; lia]|].
        split; [rewrite FL; cbn; now rewrite <- app_assoc|].
        split; [rewrite SL; cbn; now rewrite <- app_assoc|].
        split; [cbn [List.length]; rewrite LD; destruct n; simpl Nat.min in K; lia|].
        split; [repeat split; assumption|].
        intros R. constructor.
        -- apply (early_delay_bounds attempt _ ltac:(lia)); apply R.
        -- apply B. exact R.
      * apply Nat.ltb_ge in E. unfold MAX_RETRIES in *.
        assert (n = 0)%nat by lia. subst n.
        exists 1%nat, []. cbn. rewrite !app_nil_r. repeat split; auto.
Qed.

End RetryTrace.

(** [fetchWithRetry] touches neither storage partition. *)
Lemma fetchWithRetry_storage_frame {T : Type}
    (answer : Network -> nat -> FetchResult T) (req : Request) (w : World) :
  session (snd (fetchWithRetry answer req w)) = session w /\
  local (snd (fetchWithRetry answer req w)) = local w.
Proof.
  unfold fetchWithRetry.
  destruct (fetchLoop_trace answer req MAX_RETRIES 0 None w eq_refl)
    as (k & ds & _ & _ & _ & _ & FR & _).
  cbn zeta in FR. split; apply FR.
Qed.

(** X11.  A request sent through [fetchWithRetry] makes between one and
    three fetches of the same request, waits exactly once between two
    consecutive attempts (never after the last one), and touches neither
    storage partition. *)
Theorem fetchWithRetry_waits_between_attempts {T : Type}
    (answer : Network -> nat -> FetchResult T) (req : Request) (w : World) :
  exists k,
    let w' := snd (fetchWithRetry answer req w) in
    (1 <= k <= 3)%nat /\
    fetchLog w' = (fetchLog w ++ repeat req k)%list /\
    List.length (sleepLog w') = (List.length (sleepLog w) + (k - 1))%nat /\
    session w' = session w /\
    local w' = local w.
Proof.
  unfold fetchWithRetry.
  destruct (fetchLoop_trace answer req MAX_RETRIES 0 None w eq_refl)
    as (k & ds & K & FL & SL & LD & FR & _).
  cbn zeta in *. exists k.
  split; [exact K|]. split; [exact FL|].
  split; [rewrite SL, length_app, LD; reflexivity|].
  split; apply FR.
Qed.

(** X12.  When [Math.random] answers in [0, 1), every wait of the retry
    loop lasts between 1 and 2.5 seconds: the cap of 5 seconds is never
    reached within three attempts. *)
Theorem retry_waits_stay_below_the_cap {T : Type}
    (answer : Network -> nat -> FetchResult T) (req : Request) (w : World) :
  (forall n, (0 <= random w n)%Q /\ (random w n < 1)%Q) ->
  exists ds,
    sleepLog (snd (fetchWithRetry answer req w)) = (sleepLog w ++ ds)%list /\
    Forall (fun d => (1000 <= d)%Q /\ (d <= 2500)%Q) ds.
Proof.
  intros R. unfold fetchWithRetry.
  destruct (fetchLoop_trace answer req MAX_RETRIES 0 None w eq_refl)
    as (k & ds & _ & _ & SL & _ & _ & B).
  exists ds. split; [exact SL | exact (B R)].
Qed.

Lemma retry_waits_stay_below_the_cap_witness :
  let w := Sample.fresh Sample.confused 0 in
  (forall n, (0 <= random w n)%Q /\ (random w n < 1)%Q) /\
  exists ds,
    sleepLog (snd (fetchWithRetry onStart (PasswordlessStart "user@example.com") w))
    = (sleepLog w ++ ds)%list /\
    Forall (fun d => (1000 <= d)%Q /\ (d <= 2500)%Q) ds.
Proof.
  assert (R : forall n, (0 <= random (Sample.fresh Sample.confused 0) n)%Q /\
                        (random (Sample.fresh Sample.confused 0) n < 1)%Q).
  { intros n. cbn. split; [discriminate | reflexivity]. }
  split; [exact R|].
  apply (retry_waits_stay_below_the_cap onStart (PasswordlessStart "user@example.com")
           (Sample.fresh Sample.confused 0) R).
Defined.

(* ===================================================================== *)
(** ** The handlers, case by case *)
(* ===================================================================== *)

Section HandlerFacts.

Context {host : Host}.

(** What [clearAllAuthState] leaves: both partitions empty, the flow state
    reset, and the rest of the world as it was. *)
Lemma cleared_storage (w : World) :
  let w1 := snd (clearAllAuthState w) in
  session w1 = {| auth := None; otpRequest := None; userProfile := None;
                  flowState := Some LOGGED_OUT |} /\
  local w1 = {| encryptedRefreshToken := None; refreshTokenIV := None;
                sessionMeta := None |} /\
  fetchLog w1 = fetchLog w /\ sleepLog w1 = sleepLog w /\
  dateNow w1 = dateNow w /\ network w1 = network w.
Proof. cbn. repeat split; reflexivity. Qed.

(** Reading the refresh token of a world that stores none changes nothing. *)
Lemma heal_without_ciphertext (w : World) :
  encryptedRefreshToken (local w) = None ->
  heal w = w /\ readable_token w = None.
Proof.
  intros E. unfold heal, readable_token, getRefreshToken, bind, all2, getLocalValue.
  rewrite E. split; reflexivity.
Qed.

Lemma transitionToLoggedOut_run (w : World) :
  transitionToLoggedOut w
  = (Ok (view (snd (clearAllAuthState w))), snd (clearAllAuthState w)).
Proof.
  unfold transitionToLoggedOut, bind.
  rewrite clearAllAuthState_run. cbv beta iota. rewrite getCurrentState_run.
  destruct (cleared_storage w) as (_ & L & _).
  destruct (heal_without_ciphertext (snd (clearAllAuthState w))) as [H _].
  - cbn zeta in L. now rewrite L.
  - now rewrite H.
Qed.

(** A [try] block whose handler resolves always resolves. *)
Lemma try_catch_resolves {A} (body : M A) (handler : Exn -> M A) :
  (forall x w, exists r w', handler x w = (Ok r, w')) ->
  forall w, exists r w', try_catch body handler w = (Ok r, w').
Proof.
  intros H w. unfold try_catch.
  destruct (body w) as [[a|x] w1]; [eauto | apply H].
Qed.

Lemma respond_error_resolves {A} (c : AuthErrorCode) (x : Exn) (w : World) :
  exists r w', @respond_error A c x w = (Ok r, w').
Proof. unfold respond_error, ret. eauto. Qed.

Lemma answer_with_resolves {A} (f : A -> ResponseData) (h : M (AuthResponse A)) :
  (forall w, exists r w', h w = (Ok r, w')) ->
  forall w, exists r w', answer_with f h w = (Ok r, w').
Proof.
  intros H w. unfold answer_with, bind, ret.
  destruct (H w) as (r & w' & E). rewrite E. eauto.
Qed.

Lemma processMessage_resolves (request : AuthRequest) (w : World) :
  exists r w', processMessage request w = (Ok r, w').
Proof.
  destruct request as [e|e otp|e| | |]; cbn [processMessage];
    apply answer_with_resolves; intros w0.
  - apply try_catch_resolves. intros; apply respond_error_resolves.
  - apply try_catch_resolves. intros x w1. cbv zeta.
    destruct (_ || _); [unfold ret; eauto|].
    destruct (Js.includes _ _); unfold ret; eauto.
  - apply try_catch_resolves. intros; apply respond_error_resolves.
  - apply try_catch_resolves. intros x w1. cbv zeta. unfold bind.
    destruct (_ || _).
    + rewrite transitionToLoggedOut_run. unfold ret. eauto.
    + unfold ret. eauto.
  - apply try_catch_resolves. intros; apply respond_error_resolves.
  - apply try_catch_resolves. intros; apply respond_error_resolves.
Qed.

(** X13.  Each of the six requests other than FETCH_USER_INFO (INITIATE_OTP,
    VERIFY_OTP, RESEND_OTP, REFRESH_TOKEN, LOGOUT, GET_AUTH_STATE: the
    constructors of [AuthRequest]) is answered in every world:
    [processMessage] resolves, because the handler of each of them catches
    what its body throws, so [handleMessage] passes that response on and its
    own fallback answer is not needed for them. *)
Theorem requests_other_than_user_info_are_answered (request : AuthRequest) (w : World) :
  exists r w',
    processMessage request w = (Ok r, w') /\
    Background.handleMessage request w = (Ok r, w').
Proof.
  destruct (processMessage_resolves request w) as (r & w' & E).
  exists r, w'. split; [exact E|].
  unfold Background.handleMessage, try_catch. now rewrite E.
Qed.

(** X14.  Logging out always succeeds, makes no request to the provider,
    and leaves nothing behind: both storage partitions are empty, the flow
    state is LOGGED_OUT, and the state reported next is not authenticated. *)
Theorem logout_erases_everything (w : World) :
  exists w',
    handleLogout w = (Ok (Success true), w') /\
    session w' = {| auth := None; otpRequest := None; userProfile := None;
                    flowState := Some LOGGED_OUT |} /\
    local w' = {| encryptedRefreshToken := None; refreshTokenIV := None;
                  sessionMeta := None |} /\
    fetchLog w' = fetchLog w /\
    forall t, fst (getCurrentState (at_time t w'))
              = Ok {| sm_flowState := LOGGED_OUT; sm_email := None;
                      isAuthenticated := false; sm_otpRequest := None;
                      sm_userProfile := None; sessionAge := None;
                      sm_expiresAt := None |}.
Proof.
  exists (snd (clearAllAuthState w)).
  destruct (cleared_storage w) as (S & L & F & _). cbn zeta in *.
  split; [|split; [exact S|split; [exact L|split; [exact F|]]]].
  - unfold handleLogout, try_catch, bind.
    rewrite transitionToLoggedOut_run. reflexivity.
  - intros t. rewrite getCurrentState_run. reflexivity.
Qed.

(** X15.  A refresh requested when the seven days are over, or when no
    session metadata is stored, is answered with SESSION_EXPIRED without
    any request to the provider, and the stored state is erased. *)
Theorem refresh_of_an_expired_session_logs_out (w : World) :
  session_expired_at (dateNow w) w = true ->
  exists w',
    handleRefreshToken w
    = (Ok (Failure SESSION_EXPIRED_ERROR
             "Your session has expired. Please log in again."), w') /\
    fetchLog w' = fetchLog w /\
    session w' = {| auth := None; otpRequest := None; userProfile := None;
                    flowState := Some LOGGED_OUT |} /\
    local w' = {| encryptedRefreshToken := None; refreshTokenIV := None;
                  sessionMeta := None |}.
Proof.
  intros X. exists (snd (clearAllAuthState w)).
  destruct (cleared_storage w) as (S & L & F & _). cbn zeta in *.
  split; [|split; [exact F|split; [exact S|exact L]]].
  unfold handleRefreshToken, try_catch, bind.
  rewrite isSessionExpired_run, X, transitionToLoggedOut_run. reflexivity.
Qed.

End HandlerFacts.

Lemma refresh_of_an_expired_session_logs_out_witness :
  let w := at_time (8 * Sample.DAY) (Sample.loggedIn Sample.friendly) in
  @session_expired_at (dateNow w) w = true /\
  exists w',
    @handleRefreshToken Sample.host w
    = (Ok (Failure SESSION_EXPIRED_ERROR
             "Your session has expired. Please log in again."), w') /\
    fetchLog w' = fetchLog w /\
    session w' = {| auth := None; otpRequest := None; userProfile := None;
                    flowState := Some LOGGED_OUT |} /\
    local w' = {| encryptedRefreshToken := None; refreshTokenIV := None;
                  sessionMeta := None |}.
Proof.
  split; [vm_compute; reflexivity|].
  apply (refresh_of_an_expired_session_logs_out
           (at_time (8 * Sample.DAY) (Sample.loggedIn Sample.friendly))).
  vm_compute. reflexivity.
Defined.

(* ===================================================================== *)
(** ** Storing a session and logging in *)
(* ===================================================================== *)

Section LoginFacts.

Context {host : Host}.

Lemma readable_token_with_session (f : SessionStorageSchema -> SessionStorageSchema)
    (w : World) :
  readable_token (with_session f w) = readable_token w.
Proof. reflexivity. Qed.

Lemma readable_token_put_sessionMeta (m : option SessionMeta) (w : World) :
  readable_token (with_local (put_sessionMeta m) w) = readable_token w.
Proof. reflexivity. Qed.

Lemma join_omit (a : AuthState) : join_auth (omit_refreshToken a) (refreshToken a) = a.
Proof. destruct a; reflexivity. Qed.

(** The world [storeAuthState a] leaves. *)
Lemma storeAuthState_run (a : AuthState) (w : World) :
  storeAuthState a w =
  (Ok tt,
   with_local (put_sessionMeta (Some {| createdAt := dateNow w; meta_email := email a |}))
     (snd (setRefreshToken (refreshToken a)
             (with_session (put_auth (Some (omit_refreshToken a))) w)))).
Proof.
  unfold storeAuthState. cbn [all_]. unfold bind, all2.
  cbn [setAuthState setSessionValue ret fst snd].
  rewrite setRefreshToken_run.
  unfold setSessionMeta, bind, Date_now, setLocalValue, ret.
  pose proof (getEncryptionKey_frame (with_session (put_auth (Some (omit_refreshToken a))) w))
    as (_ & _ & D & _).
  cbn [snd dateNow with_local with_session use_entropy] in *. rewrite D.
  reflexivity.
Qed.

(** The refresh token of a stored session is readable. *)
Lemma stored_token (a : AuthState) (w : World) :
  cipher_correct -> readable_token (stored a w) = Some (refreshToken a).
Proof.
  intros C. unfold stored.
  rewrite !readable_token_with_session, readable_token_put_sessionMeta.
  now apply written_token_readable.
Qed.

Lemma stored_complete (a : AuthState) (w : World) :
  cipher_correct -> Js.falsy (refreshToken a) = false ->
  complete_auth (stored a w) = Some a.
Proof.
  intros C F. unfold complete_auth.
  destruct (stored_halves a w) as [Ha _].
  rewrite Ha, (stored_token a w C), F, join_omit. reflexivity.
Qed.

Lemma isSessionValid_run (w : World) :
  isSessionValid w =
  (Ok (has_session_auth w && has_refresh_token w
       && negb (session_expired_at (dateNow w) w)), heal w).
Proof.
  destruct (heal_frame w) as (_ & Me & D & _).
  unfold isSessionValid, bind, all2, getAuthState, getSessionValue.
  rewrite getRefreshToken_run, isSessionExpired_run.
  unfold ret, has_session_auth, has_refresh_token, session_expired_at.
  rewrite Me, D. reflexivity.
Qed.

End LoginFacts.



Section VerifyFacts.

Context {host : Host}.

Lemma complete_auth_heal (w : World) : complete_auth (heal w) = complete_auth w.
Proof.
  destruct (heal_frame w) as (S & _ & _ & _ & _ & _ & _ & R).
  unfold complete_auth. now rewrite S, R.
Qed.

Lemma long_code_truthy (otp : string) :
  4 <= Js.len otp -> Js.falsy otp || (Js.len otp <? 4) = false.
Proof.
  intros L. destruct otp as [|c s]; [unfold Js.len in L; cbn in L; lia|].
  cbn [Js.falsy orb]. apply Z.ltb_ge. exact L.
Qed.

(** The codes a provider error body can be mapped to. *)
Lemma mapAuth0ErrorToCode_codes (auth0Error : string) (errorDetail : option string) :
  In (mapAuth0ErrorToCode auth0Error errorDetail)
     [EMAIL_DOMAIN_NOT_ALLOWED; INVALID_EMAIL; INVALID_OTP; VALIDATION_ERROR;
      RATE_LIMITED; AUTH0_UNAVAILABLE].
Proof.
  unfold mapAuth0ErrorToCode. cbv zeta.
  repeat match goal with
         | |- context [if ?b then _ else _] => destruct b
         end; cbn; tauto.
Qed.

End VerifyFacts.



(** X18.  ASCII input that fails the checks of a handler is rejected on the
    spot:
    an address [validateEmail] refuses is answered INVALID_EMAIL by the three
    handlers that take one, and a code shorter than four characters is
    answered INVALID_OTP; no request is sent and the world stays as it
    was. *)
Theorem malformed_input_is_rejected_without_a_request {host : Host}
    (e otp : string) (w : World) :
  ascii_only e = true ->
  ascii_only otp = true ->
  validateEmail e = false \/ Js.len otp < 4 ->
  exists m,
    handleVerifyOTP e otp w
    = (Ok (Failure (if validateEmail e then INVALID_OTP else INVALID_EMAIL) m), w) /\
    (validateEmail e = false ->
     handleInitiateOTP e w = (Ok (Failure INVALID_EMAIL m), w) /\
     handleResendOTP e w = (Ok (Failure INVALID_EMAIL m), w)).
Proof.
  intros _ _ H. unfold handleVerifyOTP, handleInitiateOTP, handleResendOTP, try_catch.
  destruct (validateEmail e) eqn:V; cbn [negb].
  - destruct H as [H|H]; [discriminate|].
    eexists. split; [|discriminate].
    assert (E : Js.falsy otp || (Js.len otp <? 4) = true)
      by (apply orb_true_iff; right; now apply Z.ltb_lt).
    rewrite E. reflexivity.
  - eexists. split; [reflexivity|]. intros _. split; reflexivity.
Qed.

Lemma malformed_input_is_rejected_without_a_request_witness :
  let w := Sample.fresh Sample.friendly 0 in
  (validateEmail "user@example" = false \/ Js.len "123456" < 4) /\
  (validateEmail "user@example.com" = false \/ Js.len "123" < 4) /\
  (exists m,
     @handleVerifyOTP Sample.host "user@example" "123456" w
     = (Ok (Failure INVALID_EMAIL m), w)) /\
  (exists m,
     @handleVerifyOTP Sample.host "user@example.com" "123" w
     = (Ok (Failure INVALID_OTP m), w)).
Proof.
  assert (A : validateEmail "user@example" = false \/ Js.len "123456" < 4)
    by (left; reflexivity).
  assert (B : validateEmail "user@example.com" = false \/ Js.len "123" < 4)
    by (right; reflexivity).
  split; [exact A|]. split; [exact B|]. split.
  - destruct (@malformed_input_is_rejected_without_a_request Sample.host
                "user@example" "123456" (Sample.fresh Sample.friendly 0)
                eq_refl eq_refl A) as (m & E & _).
    exists m. exact E.
  - destruct (@malformed_input_is_rejected_without_a_request Sample.host
                "user@example.com" "123" (Sample.fresh Sample.friendly 0)
                eq_refl eq_refl B) as (m & E & _).
    exists m. exact E.
Defined.

(** X19.  For an ASCII address and code of at least four characters: when
    the provider rejects the code with a 4xx response whose JSON error body
    is not retried, [handleVerifyOTP] answers after a single request
    with the code the body is mapped to and that code's fixed message; the
    answer is never OTP_EXPIRED, and both storage partitions stay as they
    were. *)
Theorem rejected_code_is_never_reported_as_expired {host : Host}
    (w : World) (e otp : string)
    (resp : FetchResponse TokenResponse) (body : Auth0ErrorResponse) :
  ascii_only e = true ->
  ascii_only otp = true ->
  validateEmail e = true ->
  4 <= Js.len otp ->
  onToken (network w) (List.length (fetchLog w)) = Responded resp ->
  400 <= status resp < 500 ->
  errBody resp = Some body ->
  isRetryableError (ExnAuth (fromAuth0Error body)) = false ->
  handleVerifyOTP e otp w
  = (Ok (Failure (code (fromAuth0Error body))
           (ERROR_MESSAGES (code (fromAuth0Error body)))),
     log_fetch (TokenExchange e otp) w) /\
  code (fromAuth0Error body) <> OTP_EXPIRED /\
  In (code (fromAuth0Error body))
     [EMAIL_DOMAIN_NOT_ALLOWED; INVALID_EMAIL; INVALID_OTP; VALIDATION_ERROR;
      RATE_LIMITED].
Proof.
  intros _ _ V L N St B NR.
  unfold handleVerifyOTP, try_catch, bind.
  rewrite V. cbn [negb]. rewrite (long_code_truthy otp L).
  unfold exchangeOTPForTokens.
  rewrite (client_error_surfaces_at_once onToken (TokenExchange e otp) w resp body N St B NR).
  cbn [fromUnknown]. rewrite (fromAuth0Error_message body).
  assert (I : In (code (fromAuth0Error body))
                 [EMAIL_DOMAIN_NOT_ALLOWED; INVALID_EMAIL; INVALID_OTP; VALIDATION_ERROR;
                  RATE_LIMITED; AUTH0_UNAVAILABLE])
    by apply mapAuth0ErrorToCode_codes.
  assert (U : code (fromAuth0Error body) <> AUTH0_UNAVAILABLE).
  { intros E. cbn [isRetryableError] in NR. rewrite E in NR. discriminate. }
  cbn [In] in I.
  destruct I as [I|[I|[I|[I|[I|[I|[]]]]]]]; try congruence;
    rewrite <- I; (split; [reflexivity|]); (split; [discriminate|]); cbn [In]; tauto.
Qed.

Lemma rejected_code_is_never_reported_as_expired_witness :
  let body := {| error := "invalid_grant";
                 error_description := Some "Wrong email or verification code.";
                 error_message := None; statusCode := None |} in
  let net := {| onStart := onStart Sample.revoking;
                onToken := fun _ => Responded {| status := 403; okBody := None;
                                                 errBody := Some body |} |} in
  @handleVerifyOTP Sample.host "user@example.com" "000000" (Sample.fresh net 0)
  = (Ok (Failure INVALID_OTP (ERROR_MESSAGES INVALID_OTP)),
     log_fetch (TokenExchange "user@example.com" "000000") (Sample.fresh net 0)) /\
  code (fromAuth0Error body) <> OTP_EXPIRED.
Proof.
  cbv zeta.
  destruct (@rejected_code_is_never_reported_as_expired Sample.host
              (Sample.fresh
                 {| onStart := onStart Sample.revoking;
                    onToken := fun _ =>
                      Responded {| status := 403; okBody := None;
                                   errBody := Some {| error := "invalid_grant";
                                     error_description := Some "Wrong email or verification code.";
                                     error_message := None; statusCode := None |} |} |} 0)
              "user@example.com" "000000"
              {| status := 403; okBody := None;
                 errBody := Some {| error := "invalid_grant";
                   error_description := Some "Wrong email or verification code.";
                   error_message := None; statusCode := None |} |}
              {| error := "invalid_grant";
                 error_description := Some "Wrong email or verification code.";
                 error_message := None; statusCode := None |})
    as (E & N & _); try reflexivity.
  - vm_compute. discriminate.
  - cbn. lia.
  - split; [exact E | exact N].
Defined.

(** X20.  For an ASCII address and code of at least four characters, a
    token response without a refresh token (absent or empty) does not open
    a session: [handleVerifyOTP] answers VALIDATION_ERROR after
    its single request and stores nothing. *)
Theorem login_without_refresh_token_is_refused {host : Host} (w : World) (e otp : string)
    (resp : FetchResponse TokenResponse) (tr : TokenResponse) :
  ascii_only e = true ->
  ascii_only otp = true ->
  validateEmail e = true ->
  4 <= Js.len otp ->
  onToken (network w) (List.length (fetchLog w)) = Responded resp ->
  response_ok resp = true ->
  okBody resp = Some tr ->
  Js.falsy_opt (refresh_token tr) = true ->
  handleVerifyOTP e otp w
  = (Ok (Failure VALIDATION_ERROR "Authentication failed: no refresh token received"),
     log_fetch (TokenExchange e otp) w).
Proof.
  intros _ _ V L N K B F.
  unfold handleVerifyOTP, try_catch, bind.
  rewrite V. cbn [negb]. rewrite (long_code_truthy otp L).
  unfold exchangeOTPForTokens.
  rewrite (fetchWithRetry_ok onToken (TokenExchange e otp) w resp tr N K B).
  destruct (refresh_token tr) as [rt|]; [|reflexivity].
  cbn [Js.falsy_opt] in F. rewrite F. reflexivity.
Qed.

Lemma login_without_refresh_token_is_refused_witness :
  let tr := {| access_token := "at-1"; refresh_token := None; id_token := None;
               expires_in := 3600 |} in
  let net := {| onStart := onStart Sample.friendly;
                onToken := fun _ => Sample.ok200 tr |} in
  let w := Sample.fresh net 0 in
  @handleVerifyOTP Sample.host "user@example.com" "123456" w
  = (Ok (Failure VALIDATION_ERROR "Authentication failed: no refresh token received"),
     log_fetch (TokenExchange "user@example.com" "123456") w) /\
  session (log_fetch (TokenExchange "user@example.com" "123456") w) = session w.
Proof.
  cbv zeta. split; [|reflexivity].
  apply (@login_without_refresh_token_is_refused Sample.host
           (Sample.fresh
              {| onStart := onStart Sample.friendly;
                 onToken := fun _ =>
                   Sample.ok200 {| access_token := "at-1"; refresh_token := None;
                                   id_token := None; expires_in := 3600 |} |} 0)
           "user@example.com" "123456"
           {| status := 200;
              okBody := Some {| access_token := "at-1"; refresh_token := None;
                                id_token := None; expires_in := 3600 |};
              errBody := None |}
           {| access_token := "at-1"; refresh_token := None; id_token := None;
              expires_in := 3600 |}); try reflexivity.
  vm_compute. discriminate.
Defined.

(** X21.  A one-time code that could not be sent is not counted: for a
    valid ASCII address that is not rate-limited, when the request to the
    provider fails, whatever the failure and after however
    many attempts, [handleInitiateOTP] answers with the error's code and
    message and leaves both storage partitions, and so the rate-limit
    counter, as they were. *)
Theorem failed_send_is_not_counted {host : Host} (w : World) (e : string) (x : Exn) :
  ascii_only e = true ->
  validateEmail e = true ->
  limited (rate_limit e (dateNow w) (otpRequest (session w))) = false ->
  fst (initiatePasswordlessOTP e w) = Throw x ->
  exists w',
    handleInitiateOTP e w
    = (Ok (Failure (code (fromUnknown x NETWORK_ERROR))
             (message (fromUnknown x NETWORK_ERROR))), w') /\
    session w' = session w /\
    local w' = local w.
Proof.
  intros _ V L X.
  unfold handleInitiateOTP, try_catch, bind.
  rewrite V. cbn [negb]. rewrite isRateLimited_run, L.
  destruct (fetchWithRetry_storage_frame onStart (PasswordlessStart e) w)
    as (S & Lo).
  unfold initiatePasswordlessOTP in *.
  destruct (fetchWithRetry onStart (PasswordlessStart e) w) as [[v|y] w1];
    cbn [fst snd] in *; [discriminate|].
  injection X as ->.
  exists w1. split; [reflexivity|]. split; assumption.
Qed.

Lemma failed_send_is_not_counted_witness :
  let w := Sample.fresh Sample.confused 0 in
  let e := "user@example.com" in
  let x := ExnAuth (newAuthError AUTH0_UNAVAILABLE None) in
  validateEmail e = true /\
  limited (rate_limit e (dateNow w) (otpRequest (session w))) = false /\
  fst (initiatePasswordlessOTP e w) = Throw x /\
  exists w',
    @handleInitiateOTP Sample.host e w
    = (Ok (Failure (code (fromUnknown x NETWORK_ERROR))
             (message (fromUnknown x NETWORK_ERROR))), w') /\
    session w' = session w /\
    local w' = local w.
Proof.
  cbv zeta.
  assert (X : fst (initiatePasswordlessOTP "user@example.com" (Sample.fresh Sample.confused 0))
              = Throw (ExnAuth (newAuthError AUTH0_UNAVAILABLE None)))
    by (vm_compute; reflexivity).
  split; [reflexivity|]. split; [reflexivity|]. split; [exact X|].
  apply (@failed_send_is_not_counted Sample.host (Sample.fresh Sample.confused 0)
           "user@example.com" (ExnAuth (newAuthError AUTH0_UNAVAILABLE None))
           eq_refl eq_refl eq_refl X).
Defined.

(** X22.  The start-up reconciliation authenticates exactly the sessions
    [isSessionValid] accepts: run on the same world, [initializeStateMachine]
    ends in AUTHENTICATED if and only if [isSessionValid] resolves to true,
    and then it leaves the stored session as it found it. *)
Theorem startup_authenticates_exactly_valid_sessions {host : Host} (w : World) :
  exists b st w1 w2,
    isSessionValid w = (Ok b, w1) /\
    initializeStateMachine w = (Ok st, w2) /\
    (b = true <-> sm_flowState st = AUTHENTICATED) /\
    (b = true -> facts w2 = facts w).
Proof.
  destruct (initializeStateMachine_spec w) as (st & w2 & I & Fl & _ & Fa & _).
  rewrite isSessionValid_run, I.
  exists (has_session_auth w && has_refresh_token w
          && negb (session_expired_at (dateNow w) w)), st, (heal w), w2.
  split; [reflexivity|]. split; [reflexivity|].
  rewrite Fl, Fa, session_expired_facts.
  unfold flow_of, facts_after.
  change (has_session_auth w) with (fact_auth (facts w)).
  change (has_refresh_token w) with (fact_token (facts w)).
  destruct (fact_auth (facts w)), (fact_token (facts w)),
    (meta_expired (dateNow w) (facts w)), (otp_fresh (dateNow w) (facts w));
    cbn; split; try split; intros; try reflexivity; try discriminate.
Qed.

Section RefreshRun.

Context {host : Host}.

Lemma stored_dateNow (a : AuthState) (w : World) : dateNow (stored a w) = dateNow w.
Proof.
  unfold stored. rewrite setRefreshToken_run.
  pose proof (getEncryptionKey_frame (with_session (put_auth (Some (omit_refreshToken a))) w))
    as (_ & _ & D & _).
  cbn [snd dateNow with_local with_session use_entropy] in *. exact D.
Qed.

(** The world a successful refresh leaves. *)
Lemma handleRefreshToken_success_run (w : World) (a : SessionAuth) (rt : string)
    (resp : FetchResponse TokenResponse) (tr : TokenResponse) :
  session_expired_at (dateNow w) w = false ->
  readable_token w = Some rt ->
  Js.falsy rt = false ->
  auth (session w) = Some a ->
  onToken (network w) (List.length (fetchLog w)) = Responded resp ->
  response_ok resp = true ->
  okBody resp = Some tr ->
  handleRefreshToken w =
  (Ok (Success (dateNow w + expires_in tr * 1000)),
   heal (stored {| email := sa_email a;
                   accessToken := access_token tr;
                   refreshToken := nullish (refresh_token tr) rt;
                   expiresAt := dateNow w + expires_in tr * 1000;
                   idToken := nullish_opt (id_token tr) (sa_idToken a);
                   sessionCreatedAt := sa_sessionCreatedAt a |}
           (log_fetch (TokenRefresh rt) (heal w)))).
Proof.
  intros X R F A N K B.
  destruct (heal_frame w) as (S & _ & D & Nw & FL & _).
  unfold handleRefreshToken, try_catch, bind.
  rewrite isSessionExpired_run, X, getRefreshToken_run, R.
  cbn [Js.falsy_opt]. rewrite F.
  unfold getAuthState, getSessionValue. rewrite S, A.
  unfold refreshTokens.
  rewrite (fetchWithRetry_ok onToken (TokenRefresh rt) (heal w) resp tr)
    by (rewrite ?Nw, ?FL; assumption).
  unfold Date_now. rewrite transitionToAuthenticated_run.
  unfold ret, successResponse. cbv beta iota.
  cbn [dateNow log_fetch]. rewrite D. reflexivity.
Qed.

End RefreshRun.



(* ===================================================================== *)
(** ** The service worker and its refresh alarm *)
(* ===================================================================== *)

(** X24.  A background refresh that fails, for whatever reason and with
    whatever error code, ends the session: [performTokenRefresh] erases
    both storage partitions, sets the flow state to LOGGED_OUT and clears
    the refresh alarm, even where [handleRefreshToken] itself had kept the
    session. *)
Theorem failed_background_refresh_logs_out {host : Host} (w w1 : World)
    (alarm : Background.Alarm) (c : AuthErrorCode) (m : string) :
  handleRefreshToken w = (Ok (Failure c m), w1) ->
  exists w',
    Background.performTokenRefresh alarm w = (Ok None, w') /\
    session w' = {| auth := None; otpRequest := None; userProfile := None;
                    flowState := Some LOGGED_OUT |} /\
    local w' = {| encryptedRefreshToken := None; refreshTokenIV := None;
                  sessionMeta := None |}.
Proof.
  intros H. unfold Background.performTokenRefresh, bind. rewrite H.
  rewrite transitionToLoggedOut_run. unfold ret.
  exists (snd (clearAllAuthState w1)).
  destruct (cleared_storage w1) as (S & L & _). cbn zeta in *.
  split; [reflexivity|]. split; [exact S | exact L].
Qed.

Lemma failed_background_refresh_logs_out_witness :
  let w := at_time (60 * Sample.MINUTE) (Sample.loggedIn Sample.revoking) in
  let run := @handleRefreshToken Sample.host w in
  run = (Ok (Failure INVALID_OTP (ERROR_MESSAGES INVALID_OTP)), snd run) /\
  flowState (session (snd run)) = Some AUTHENTICATED /\
  exists w',
    @Background.performTokenRefresh Sample.host (Some 55%Q) w = (Ok None, w') /\
    session w' = {| auth := None; otpRequest := None; userProfile := None;
                    flowState := Some LOGGED_OUT |} /\
    local w' = {| encryptedRefreshToken := None; refreshTokenIV := None;
                  sessionMeta := None |}.
Proof.
  cbv zeta.
  set (w := at_time (60 * Sample.MINUTE) (Sample.loggedIn Sample.revoking)).
  assert (H : @handleRefreshToken Sample.host w
              = (Ok (Failure INVALID_OTP (ERROR_MESSAGES INVALID_OTP)),
                 snd (@handleRefreshToken Sample.host w)))
    by (vm_compute; reflexivity).
  split; [exact H|]. split; [vm_compute; reflexivity|].
  apply (@failed_background_refresh_logs_out Sample.host w
           (snd (@handleRefreshToken Sample.host w)) (Some 55%Q)
           INVALID_OTP (ERROR_MESSAGES INVALID_OTP) H).
Defined.



Section StartFacts.

Context {host : Host}.

(** Whatever branch it takes, the reconciliation returns the view of the
    world it wrote. *)
Lemma initializeStateMachine_view (w : World) :
  exists w0, initializeStateMachine w = (Ok (view w0), heal w0).
Proof.
  unfold initializeStateMachine, bind, all2.
  rewrite getCompleteAuthState_run, getRefreshToken_run, isSessionExpired_run.
  cbv beta iota.
  destruct (_ && _ && negb _).
  - unfold setFlowState, setSessionValue. rewrite getCurrentState_run. eauto.
  - destruct (_ || _).
    + rewrite clearAllAuthState_run, getCurrentState_run. eauto.
    + unfold getOTPRequest, getSessionValue, Date_now.
      destruct (otpRequest (session (heal (heal w)))) as [r|].
      * destruct (_ <? _).
        -- unfold setFlowState, setSessionValue. rewrite getCurrentState_run. eauto.
        -- unfold clearOTPRequest, removeSessionValue, setFlowState, setSessionValue.
           rewrite getCurrentState_run. eauto.
      * unfold setFlowState, setSessionValue. rewrite getCurrentState_run. eauto.
Qed.

(** The reconciliation of a valid session only sets the flow state. *)
Lemma initializeStateMachine_valid_run (w : World) :
  has_session_auth w = true ->
  has_refresh_token w = true ->
  session_expired_at (dateNow w) w = false ->
  let w0 := with_session (put_flowState (Some AUTHENTICATED)) (heal (heal w)) in
  initializeStateMachine w = (Ok (view w0), heal w0).
Proof.
  intros A T X. cbn zeta.
  unfold initializeStateMachine, bind, all2.
  rewrite getCompleteAuthState_run, getRefreshToken_run, isSessionExpired_run.
  cbv beta iota.
  destruct (heal_frame w) as (_ & Me & D & _ & _ & _ & _ & R).
  destruct (heal_frame (heal w)) as (_ & Me' & D' & _).
  assert (E : session_expired_at (dateNow (heal (heal w))) (heal (heal w)) = false).
  { unfold session_expired_at in *. rewrite Me', Me, D', D. exact X. }
  rewrite E, (complete_auth_present w), A, R.
  pose proof T as T'. unfold has_refresh_token in T'. rewrite T, T'. cbn [andb negb].
  unfold setFlowState, setSessionValue. rewrite getCurrentState_run. reflexivity.
Qed.

End StartFacts.

(** X26.  When the service worker starts, the refresh alarm is armed for
    exactly the sessions [isSessionValid] accepts: for any other stored
    state the alarm is left as it was, and for a valid session whose expiry
    is not zero it is set to fire five minutes before the access token
    expires, and no sooner than in one minute. *)
Theorem worker_start_arms_the_alarm_for_valid_sessions {host : Host}
    (w : World) (alarm : Background.Alarm) :
  exists b al' w1 w',
    isSessionValid w = (Ok b, w1) /\
    Background.startup alarm w = (Ok al', w') /\
    (b = false -> al' = alarm) /\
    (b = true ->
     forall a, auth (session w) = Some a -> sa_expiresAt a <> 0 ->
               al' = Some (Background.Math_max 1
                             (inject_Z (sa_expiresAt a - 300000 - dateNow w) / 60000)%Q)).
Proof.
  rewrite isSessionValid_run.
  destruct (has_session_auth w && has_refresh_token w
            && negb (session_expired_at (dateNow w) w)) eqn:B.
  - apply andb_prop in B. destruct B as [B X]. apply andb_prop in B. destruct B as [A T].
    apply negb_true_iff in X.
    unfold Background.startup, bind.
    rewrite (initializeStateMachine_valid_run w A T X). cbv beta iota zeta.
    set (w0 := with_session (put_flowState (Some AUTHENTICATED)) (heal (heal w))).
    assert (CA : complete_auth w0 = complete_auth w)
      by (change (complete_auth w0) with (complete_auth (heal (heal w)));
          now rewrite !complete_auth_heal).
    assert (D : dateNow (heal w0) = dateNow w).
    { destruct (heal_frame w0) as (_ & _ & D0 & _).
      destruct (heal_frame (heal w)) as (_ & _ & D1 & _).
      destruct (heal_frame w) as (_ & _ & D2 & _).
      rewrite D0. change (dateNow w0) with (dateNow (heal (heal w))). congruence. }
    unfold has_session_auth in A. unfold has_refresh_token in T.
    destruct (auth (session w)) as [a0|] eqn:Ea; [|discriminate].
    destruct (readable_token w) as [rt|] eqn:Er; [|discriminate].
    cbn [Js.falsy_opt] in T. apply negb_true_iff in T.
    assert (CW : complete_auth w = Some (join_auth a0 rt))
      by (unfold complete_auth; now rewrite Ea, Er, T).
    unfold view. cbn [sm_expiresAt isAuthenticated]. rewrite CA, CW.
    cbn [option_map expiresAt join_auth session w0 with_session put_flowState flowState
         nullish AuthFlowState_eqb andb].
    unfold Background.truthy.
    destruct (sa_expiresAt a0 =? 0) eqn:Z0; cbn [negb].
    + apply Z.eqb_eq in Z0. unfold ret.
      exists true, alarm, (heal w), (heal w0).
      split; [reflexivity|]. split; [reflexivity|]. split; [discriminate|].
      intros _ a Ha NZ. injection Ha as <-. contradiction.
    + unfold Background.scheduleTokenRefresh, bind, Date_now, ret. rewrite D.
      eexists true, _, (heal w), (heal w0).
      split; [reflexivity|]. split; [reflexivity|]. split; [discriminate|].
      intros _ a Ha _. injection Ha as <-. reflexivity.
  - destruct (initializeStateMachine_spec w) as (st & w' & I & Fl & _).
    destruct (initializeStateMachine_view w) as (w0 & V).
    rewrite V in I. injection I as <- <-.
    assert (NA : isAuthenticated (view w0) = false).
    { unfold view in Fl |- *. cbn [sm_flowState isAuthenticated] in *. rewrite Fl.
      rewrite session_expired_facts in B. unfold flow_of.
      change (has_session_auth w) with (fact_auth (facts w)) in B.
      change (has_refresh_token w) with (fact_token (facts w)) in B.
      destruct (fact_auth (facts w)), (fact_token (facts w)),
        (meta_expired (dateNow w) (facts w)), (otp_fresh (dateNow w) (facts w));
        cbn in B |- *; try reflexivity; discriminate. }
    unfold Background.startup, bind. rewrite V. cbv beta iota.
    rewrite NA. cbn [andb].
    exists false, alarm, (heal w), (heal w0).
    split; [reflexivity|]. split.
    + destruct (sm_expiresAt (view w0)); reflexivity.
    + split; [reflexivity | discriminate].
Qed.

(* ===================================================================== *)
(** ** The other readers of an ID token, and the base URL *)
(* ===================================================================== *)

Section TokenReaders.

Variable JsonValue : Type.
Variable JSON_parse_value : string -> option JsonValue.
Variable header_of : JsonValue -> JWTHeader.
Variable claims_of : JsonValue -> Payload.
Variable ToNumber : string -> option Z.

#[local] Abbreviation parse := (parseJWT JsonValue JSON_parse_value header_of claims_of).
#[local] Abbreviation parses := (parses_to JsonValue JSON_parse_value claims_of).
#[local] Abbreviation validate :=
  (validateIDToken JsonValue JSON_parse_value header_of claims_of ToNumber).
#[local] Abbreviation expired :=
  (isTokenExpired JsonValue JSON_parse_value header_of claims_of ToNumber).
#[local] Abbreviation email_of :=
  (extractEmailFromToken JsonValue JSON_parse_value header_of claims_of).

(** X27.  The three readers of an ID token agree: a token [validateIDToken]
    accepts is not expired for [isTokenExpired] at the same time and with
    the same tolerance, and [extractEmailFromToken] returns the e-mail of
    the validated token. *)
Theorem validated_token_is_unexpired_and_names_its_email (config : Auth0Config)
    (dateNow : Z) (token : string) (options : ValidationOptions) (v : ValidatedToken) :
  validate config dateNow token options = Ok v ->
  expired dateNow token (opt_clockTolerance options) = false /\
  email_of token = vt_email v.
Proof.
  unfold validateIDToken, isTokenExpired, extractEmailFromToken.
  destruct (parse token) as [parsed|x]; [|discriminate].
  cbv zeta. destruct (payload parsed) as [|c]; [discriminate|]. intros H.
  repeat match type of H with
         | (if ?b then _ else _) = _ => destruct b eqn:?; [discriminate|]
         end.
  injection H as <-. split; reflexivity.
Qed.


End TokenReaders.

Lemma validated_token_is_unexpired_and_names_its_email_witness :
  let token := Sample.tokenOf Sample.claimsSegment in
  Sample.validateSample 1500000 token Sample.noOptions
  = Ok {| claims := Sample.sampleClaims; vt_email := Some "user@example.com";
          vt_sub := Some "auth0|1" |} /\
  isTokenExpired Payload Sample.parseSample Sample.sampleHeader (fun p => p)
    Sample.sampleToNumber 1500000 token None = false /\
  extractEmailFromToken Payload Sample.parseSample Sample.sampleHeader (fun p => p)
    token = Some "user@example.com".
Proof.
  cbv zeta.
  assert (H : Sample.validateSample 1500000 (Sample.tokenOf Sample.claimsSegment)
                Sample.noOptions
              = Ok {| claims := Sample.sampleClaims; vt_email := Some "user@example.com";
                      vt_sub := Some "auth0|1" |})
    by (vm_compute; reflexivity).
  split; [exact H|].
  apply (validated_token_is_unexpired_and_names_its_email
           Payload Sample.parseSample Sample.sampleHeader (fun p => p)
           Sample.sampleToNumber
           Sample.sampleConfig 1500000 (Sample.tokenOf Sample.claimsSegment)
           Sample.noOptions _ H).
Defined.

(** X29.  [getAuth0BaseUrl] normalises the scheme: a domain given bare, with
    [https://] or with [http://] yields the same [https://] URL, and
    applying it to its own result changes nothing. *)
Theorem base_url_is_normalised (d : string) :
  getAuth0BaseUrl (getAuth0BaseUrl d) = getAuth0BaseUrl d /\
  getAuth0BaseUrl ("https://" ++ d) = "https://" ++ d /\
  getAuth0BaseUrl ("http://" ++ d) = "https://" ++ d /\
  Js.starts_with "https://" (getPasswordlessStartUrl d) = true /\
  Js.starts_with "https://" (getTokenUrl d) = true /\
  Js.starts_with "https://" (getUserInfoUrl d) = true.
Proof. repeat split; reflexivity. Qed.

(** The cases of the repository's tests of the PKCE encoder. *)
Example base64UrlEncode_tests :
  Pkce.base64UrlEncode (list_byte_of_string "Hello") = "SGVsbG8" /\
  Pkce.base64UrlEncode [xfb; xff] = "-_8" /\
  Pkce.base64UrlDecode "SGVsbG8" = Some (list_byte_of_string "Hello") /\
  validateOTP "123456" = true /\
  validateOTP " 123456 " = true /\
  validateOTP "12345" = false /\
  validateOTP "12345a" = false /\
  normalizeEmail "  User@Example.COM " = "user@example.com" /\
  normalizeOTP " 123-456 " = "123456".
Proof. repeat split; reflexivity. Qed.

Section RestoreFacts.

Context {host : Host}.

Lemma view_heal_authenticated (w : World) :
  isAuthenticated (view (heal w)) = isAuthenticated (view w).
Proof.
  destruct (heal_frame w) as (S & _).
  unfold view. cbn [isAuthenticated]. now rewrite S, complete_auth_heal.
Qed.

Lemma needsTokenRefresh_run (w : World) :
  needsTokenRefresh w =
  (Ok (isAuthenticated (view w)
       && match auth (session w) with
          | Some a => dateNow w >? sa_expiresAt a - 5 * 60 * 1000
          | None => true
          end), heal w).
Proof.
  destruct (heal_frame w) as (S & _ & D & _).
  unfold needsTokenRefresh, bind. rewrite getCurrentState_run. cbv beta iota.
  destruct (isAuthenticated (view w)); cbn [negb andb]; [|reflexivity].
  unfold isAccessTokenExpired, bind, getAuthState, getSessionValue, Date_now, ret.
  rewrite S. destruct (auth (session w)); cbv beta iota; rewrite ?D; reflexivity.
Qed.

(** The reconciliation sends nothing to the provider. *)
Lemma initializeStateMachine_quiet (w : World) :
  exists w0,
    initializeStateMachine w = (Ok (view w0), heal w0) /\
    fetchLog (heal w0) = fetchLog w.
Proof.
  assert (F : fetchLog (heal (heal w)) = fetchLog w).
  { destruct (heal_frame (heal w)) as (_ & _ & _ & _ & F1 & _).
    destruct (heal_frame w) as (_ & _ & _ & _ & F2 & _). congruence. }
  assert (Q : forall w0, fetchLog w0 = fetchLog w -> fetchLog (heal w0) = fetchLog w).
  { intros w0 E. destruct (heal_frame w0) as (_ & _ & _ & _ & F0 & _). congruence. }
  unfold initializeStateMachine, bind, all2.
  rewrite getCompleteAuthState_run, getRefreshToken_run, isSessionExpired_run.
  cbv beta iota.
  destruct (_ && _ && negb _).
  - unfold setFlowState, setSessionValue. rewrite getCurrentState_run.
    eexists. split; [reflexivity|]. apply Q. exact F.
  - destruct (_ || _).
    + rewrite clearAllAuthState_run, getCurrentState_run.
      eexists. split; [reflexivity|]. apply Q.
      destruct (cleared_storage (heal (heal w))) as (_ & _ & F0 & _).
      cbn zeta in F0. congruence.
    + unfold getOTPRequest, getSessionValue, Date_now.
      destruct (otpRequest (session (heal (heal w)))) as [r|].
      * destruct (_ <? _).
        -- unfold setFlowState, setSessionValue. rewrite getCurrentState_run.
           eexists. split; [reflexivity|]. apply Q. exact F.
        -- unfold clearOTPRequest, removeSessionValue, setFlowState, setSessionValue.
           rewrite getCurrentState_run.
           eexists. split; [reflexivity|]. apply Q. exact F.
      * unfold setFlowState, setSessionValue. rewrite getCurrentState_run.
        eexists. split; [reflexivity|]. apply Q. exact F.
Qed.

End RestoreFacts.

(** X30.  When the browser starts, [restoreSession] sends nothing to the
    provider unless a valid session is about to lose its access token: a
    stored state [isSessionValid] rejects leaves the alarm as it was; a
    valid session whose access token lives for more than five minutes gets
    its alarm armed for five minutes before the expiry (at least one
    minute ahead); and a valid session closer to its expiry is refreshed at
    once by [performTokenRefresh]. *)
Theorem browser_start_refreshes_only_when_due {host : Host}
    (w : World) (alarm : Background.Alarm) :
  exists b w1,
    isSessionValid w = (Ok b, w1) /\
    (b = false ->
     exists w',
       Background.restoreSession alarm w = (Ok alarm, w') /\
       fetchLog w' = fetchLog w) /\
    (b = true ->
     forall a, auth (session w) = Some a ->
       (dateNow w <= sa_expiresAt a - 300000 -> sa_expiresAt a <> 0 ->
        exists w',
          Background.restoreSession alarm w
          = (Ok (Some (Background.Math_max 1
                         (inject_Z (sa_expiresAt a - 300000 - dateNow w) / 60000)%Q)), w') /\
          fetchLog w' = fetchLog w) /\
       (dateNow w > sa_expiresAt a - 300000 ->
        exists w2,
          Background.restoreSession alarm w = Background.performTokenRefresh alarm w2 /\
          fetchLog w2 = fetchLog w /\
          facts w2 = facts w)).
Proof.
  rewrite isSessionValid_run. eexists _, _. split; [reflexivity|].
  destruct (has_session_auth w && has_refresh_token w
            && negb (session_expired_at (dateNow w) w)) eqn:B.
  - split; [discriminate|]. intros _ a Ha.
    apply andb_prop in B. destruct B as [B X]. apply andb_prop in B. destruct B as [A T].
    apply negb_true_iff in X.
    unfold Background.restoreSession, bind.
    rewrite (initializeStateMachine_valid_run w A T X). cbv beta iota zeta.
    set (w0 := with_session (put_flowState (Some AUTHENTICATED)) (heal (heal w))).
    destruct (heal_frame w) as (S1 & _ & D1 & _ & F1 & _).
    destruct (heal_frame (heal w)) as (S2 & _ & D2 & _ & F2 & _).
    destruct (heal_frame w0) as (S3 & _ & D3 & _ & F3 & _).
    destruct (heal_frame (heal w0)) as (S4 & _ & D4 & _ & F4 & _).
    assert (CA : complete_auth w0 = complete_auth w)
      by (change (complete_auth w0) with (complete_auth (heal (heal w)));
          now rewrite !complete_auth_heal).
    unfold has_refresh_token in T.
    destruct (readable_token w) as [rt|] eqn:Er; [|discriminate].
    cbn [Js.falsy_opt] in T. apply negb_true_iff in T.
    assert (CW : complete_auth w0 = Some (join_auth a rt))
      by (rewrite CA; unfold complete_auth; now rewrite Ha, Er, T).
    assert (IA : isAuthenticated (view w0) = true)
      by (unfold view; cbn [isAuthenticated]; now rewrite CW).
    assert (EX : sm_expiresAt (view w0) = Some (sa_expiresAt a))
      by (unfold view; cbn [sm_expiresAt]; now rewrite CW).
    assert (Sa : auth (session (heal w0)) = Some a).
    { rewrite S3. change (auth (session w0)) with (auth (session (heal (heal w)))).
      now rewrite S2, S1. }
    assert (Dw : dateNow (heal w0) = dateNow w).
    { rewrite D3. change (dateNow w0) with (dateNow (heal (heal w))). congruence. }
    assert (Fw : fetchLog (heal w0) = fetchLog w).
    { rewrite F3. change (fetchLog w0) with (fetchLog (heal (heal w))). congruence. }
    rewrite IA, needsTokenRefresh_run, view_heal_authenticated, IA, Sa, Dw.
    cbn [andb]. change (5 * 60 * 1000) with 300000.
    split.
    + intros Fresh NZ.
      replace (dateNow w >? sa_expiresAt a - 300000) with false
        by (symmetry; rewrite Z.gtb_ltb; apply Z.ltb_ge; lia).
      rewrite EX. unfold Background.truthy.
      replace (sa_expiresAt a =? 0) with false by (symmetry; now apply Z.eqb_neq).
      cbn [negb]. unfold Background.scheduleTokenRefresh, bind, Date_now, ret.
      rewrite D4, Dw. eexists. split; [reflexivity|]. congruence.
    + intros Due.
      replace (dateNow w >? sa_expiresAt a - 300000) with true
        by (symmetry; rewrite Z.gtb_ltb; apply Z.ltb_lt; lia).
      exists (heal (heal w0)). split; [reflexivity|]. split; [congruence|].
      rewrite !facts_heal. unfold w0. rewrite facts_put_flowState.
      now rewrite !facts_heal.
  - split; [|discriminate]. intros _.
    destruct (initializeStateMachine_spec w) as (st & w' & I & Fl & _).
    destruct (initializeStateMachine_quiet w) as (w0 & V & Q).
    rewrite V in I. injection I as <- <-.
    assert (NA : isAuthenticated (view w0) = false).
    { unfold view in Fl |- *. cbn [sm_flowState isAuthenticated] in *. rewrite Fl.
      rewrite session_expired_facts in B. unfold flow_of.
      change (has_session_auth w) with (fact_auth (facts w)) in B.
      change (has_refresh_token w) with (fact_token (facts w)) in B.
      destruct (fact_auth (facts w)), (fact_token (facts w)),
        (meta_expired (dateNow w) (facts w)), (otp_fresh (dateNow w) (facts w));
        cbn in B |- *; try reflexivity; discriminate. }
    unfold Background.restoreSession, bind. rewrite V. cbv beta iota.
    rewrite NA. exists (heal w0). split; [reflexivity | exact Q].
Qed.

(** The service worker on the sample worlds: a session created at time 0
    with a one-hour access token. *)
Example worker_start_examples :
  let start := @Background.startup Sample.host None in
  let restore := @Background.restoreSession Sample.host None in
  let armed (r : Result Background.Alarm) (minutes : Q) :=
    match r with
    | Ok (Some d) => Qeq_bool d minutes
    | _ => false
    end in
  Sample.eval start (Sample.fresh Sample.friendly 0) = Ok None /\
  armed (Sample.eval start (Sample.loggedIn Sample.friendly)) 55%Q = true /\
  armed (Sample.eval start
           (at_time (54 * Sample.MINUTE + 30000) (Sample.loggedIn Sample.friendly))) 1%Q = true /\
  armed (Sample.eval restore
           (at_time (10 * Sample.MINUTE) (Sample.loggedIn Sample.friendly))) 45%Q = true /\
  fetchLog (Sample.exec restore
              (at_time (10 * Sample.MINUTE) (Sample.loggedIn Sample.friendly)))
  = [TokenExchange "user@example.com" "123456"] /\
  armed (Sample.eval restore
           (at_time (58 * Sample.MINUTE) (Sample.loggedIn Sample.friendly))) 55%Q = true /\
  fetchLog (Sample.exec restore
              (at_time (58 * Sample.MINUTE) (Sample.loggedIn Sample.friendly)))
  = [TokenExchange "user@example.com" "123456"; TokenRefresh "rt-1"] /\
  Sample.eval restore (at_time (8 * Sample.DAY) (Sample.loggedIn Sample.friendly))
  = Ok None.
Proof. vm_compute. repeat split; reflexivity. Qed.
